(** * financial_mapper: label-mapping pipeline and tabular layout detector

    A shallow embedding of the Python package [financial_mapper]
    (normalizer, synonym dictionary, fuzzy matcher, validator, pipeline
    orchestrator and the year-header / de-duplication parts of the Excel
    parser), followed by the properties established about it.

    Conventions.
    - A Python [str] is a list of Unicode code points ([Py.str]).
    - A Python [float] is a binary64 number (Rocq's primitive [float]).
    - Similarity scores, thresholds and confidences live on the documented
      0..100 scale; they are rationals ([Q]), the values of the floats the
      code holds.  They are compared, and in one place two scores are
      subtracted: the result of that float subtraction is the exact
      difference rounded, with the rounding of the runtime.
    - A function that can raise returns [Py.result]; exceptions carry
      their message.
    - An f-string is kept as the list of its literal and interpolated
      pieces ([Py.msg]); no rendering of numbers or [repr] is assumed.
    - What the interpreter and third-party libraries contribute (the
      Unicode tables behind [str.lower], [\d] and [\w], the scorer of
      rapidfuzz, the iteration order of a [set], the rounding of float
      arithmetic on scores) is collected in the class [Py.Runtime]; the
      theorems hold for every runtime.
    - Logging is left out, except in [parse_file], where the level of the
      records is part of what is stated. *)

From Stdlib Require Import ZArith NArith List Bool Lia String Ascii QArith Floats Sorted.
From stdpp Require Import gmap list.
Import ListNotations.

Set Default Proof Using "Type".

(* ===================================================================== *)
(** * Part I. The embedding                                               *)
(* ===================================================================== *)

Module Py.

(** ** Text *)

Abbreviation char := N (only parsing).
Abbreviation str := (list N) (only parsing).

(** An ASCII literal as a Python string. *)
Definition u (s : string) : str :=
  List.map N_of_ascii (list_ascii_of_string s).

Definition in_range (lo hi c : N) : bool := ((lo <=? c) && (c <=? hi))%N.

Definition is_ascii (c : char) : bool := (c <? 128)%N.

(** [str.isspace] of one character, which is also [\s] of [re] on [str]
    patterns: the code points CPython's [_PyUnicode_IsWhitespace] accepts. *)
Definition is_space (c : char) : bool :=
  in_range 9 13 c || in_range 28 32 c || (c =? 133)%N || (c =? 160)%N
  || (c =? 5760)%N || in_range 8192 8202 c || (c =? 8232)%N
  || (c =? 8233)%N || (c =? 8239)%N || (c =? 8287)%N || (c =? 12288)%N.

Fixpoint lstrip (s : str) : str :=
  match s with
  | [] => []
  | c :: s' => if is_space c then lstrip s' else s
  end.

Definition rstrip (s : str) : str :=
  fold_right
    (fun c acc => match acc with
                  | [] => if is_space c then [] else [c]
                  | _ :: _ => c :: acc
                  end) [] s.

(** [s.strip()] *)
Definition strip (s : str) : str := rstrip (lstrip s).

(** [a == b] on strings. *)
Fixpoint str_eqb (a b : str) : bool :=
  match a, b with
  | [], [] => true
  | x :: a', y :: b' => (x =? y)%N && str_eqb a' b'
  | _, _ => false
  end.

Fixpoint startswith (p s : str) : bool :=
  match p, s with
  | [], _ => true
  | _ :: _, [] => false
  | a :: p', b :: s' => (a =? b)%N && startswith p' s'
  end.

Definition endswith (p s : str) : bool := startswith (rev p) (rev s).

(** [s.replace(old, new)] for a non-empty [old]: leftmost, non-overlapping
    occurrences.  [skip] counts the characters of a match still to drop. *)
Fixpoint replace_from (old new : str) (skip : nat) (s : str) : str :=
  match s with
  | [] => []
  | c :: s' =>
      match skip with
      | S k => replace_from old new k s'
      | O => if startswith old s
             then new ++ replace_from old new (Nat.pred (List.length old)) s'
             else c :: replace_from old new O s'
      end
  end.

Definition replace (old new s : str) : str := replace_from old new O s.

(** [sep.join(parts)] *)
Fixpoint join {A} (sep : list A) (parts : list (list A)) : list A :=
  match parts with
  | [] => []
  | [p] => p
  | p :: ps => p ++ sep ++ join sep ps
  end.

Definition ascii_lower_char (c : char) : char :=
  if in_range 65 90 c then (c + 32)%N else c.

(** Decimal digits of a natural number, as [str(n)] prints them. *)
Fixpoint digits_fuel (fuel : nat) (n : N) (acc : str) : str :=
  match fuel with
  | O => acc
  | S k =>
      let acc' := (48 + n mod 10)%N :: acc in
      if (n <? 10)%N then acc' else digits_fuel k (n / 10)%N acc'
  end.

Definition str_of_N (n : N) : str := digits_fuel (S (N.to_nat (N.log2 n))) n [].

(** [n] printed with at least [w] digits ([%02d], [%04d]). *)
Definition zero_pad (w : nat) (n : N) : str :=
  let d := str_of_N n in
  List.repeat 48%N (w - List.length d) ++ d.

(** ** What the interpreter and the libraries supply *)

Class Runtime := {
  (** [str.lower] on strings that are not pure ASCII (full Unicode case
      mapping, including the context rule for final sigma). *)
  unicode_lower : str -> str;
  (** The decimal value of a non-ASCII character of category Nd. *)
  unicode_decimal : char -> option N;
  (** [str.isalnum] of a non-ASCII character (the [\w] of [re]). *)
  unicode_alnum : char -> bool;
  (** rapidfuzz [fuzz.token_sort_ratio], as [process.extract] applies it to
      a query and a choice: a score on the 0..100 scale. *)
  token_sort_ratio : str -> str -> Q;
  (** The order in which iterating a [set] of strings yields its elements,
      given the elements in source order. *)
  set_iteration : list str -> list str;
  set_iteration_perm : forall l, Permutation (set_iteration l) l;
  (** The value of the [float] nearest to a number within the range of
      [float]: the result of a [float] operation is the exact result
      rounded this way.  Rounding to nearest keeps the order. *)
  float_round : Q -> Q;
  float_round_le : forall x y, (x <= y)%Q -> (float_round x <= float_round y)%Q
}.

(** A statement about every runtime, as a closed proposition. *)
Definition in_every_runtime (P : Runtime -> Prop) : Prop := forall R, P R.

(** A runtime that knows ASCII only; it shows the class is inhabited.
    Its scores are 0 and 100, whose differences are floats, so that no
    difference it computes is changed by rounding. *)
Definition ascii_runtime : Runtime := {|
  unicode_lower := fun s => s;
  unicode_decimal := fun _ => None;
  unicode_alnum := fun _ => false;
  token_sort_ratio := fun a b => if str_eqb a b then 100%Q else 0%Q;
  set_iteration := fun l => l;
  set_iteration_perm := fun l => Permutation_refl l;
  float_round := fun x => x;
  float_round_le := fun x y H => H
|}.

Section WithRuntime.
Context {R : Runtime}.

(** [s.lower()] *)
Definition lower (s : str) : str :=
  if forallb is_ascii s then List.map ascii_lower_char s else unicode_lower s.

(** [\d] of [re] on a [str] pattern. *)
Definition is_digit (c : char) : bool :=
  if is_ascii c then in_range 48 57 c
  else match unicode_decimal c with Some _ => true | None => false end.

(** [\w] of [re] on a [str] pattern. *)
Definition is_word (c : char) : bool :=
  if is_ascii c
  then in_range 48 57 c || in_range 65 90 c || in_range 97 122 c || (c =? 95)%N
  else unicode_alnum c.

End WithRuntime.

(** ** Exceptions *)

(** One piece of an f-string. *)
Inductive frag :=
| T (s : str)            (* literal text, or an interpolated [str] *)
| ReprStr (s : str)      (* [{s!r}] of a string *)
| ReprObj (r : str)      (* [{v!r}] of an object, given by its repr *)
| IntDec (z : Z)         (* [{n}] of an int *)
| FloatStr (f : float)   (* [{x}] of a float *)
| Fixed1 (q : Q).        (* [{x:.1f}] *)

Definition msg := list frag.

Inductive exn :=
| ValueError (m : msg)
| OverflowError (m : msg)
| RuntimeError (m : msg)
| KeyError (m : msg).

Inductive result (A : Type) :=
| Ok (a : A)
| Raise (e : exn).
Arguments Ok {A} a.
Arguments Raise {A} e.

Definition bind {A B} (r : result A) (k : A -> result B) : result B :=
  match r with
  | Ok a => k a
  | Raise e => Raise e
  end.

End Py.

#[global] Instance result_ret : MRet Py.result := fun A a => Py.Ok a.
#[global] Instance result_bind : MBind Py.result := fun A B k r => Py.bind r k.

Import Py.

(** ** Numbers: the builtins [float(...)] and [int(...)] *)

Module PyNum.

(** A Python object as the code distinguishes them by [isinstance].  A
    [bool] is an [int] (0 or 1); [POther] is an object of any other type,
    given by [type(x).__name__] and [repr(x)]. *)
Inductive pyobj :=
| PNone
| PInt (z : Z)
| PFloat (f : float)
| PStr (s : str)
| POther (type_name repr : str).

(** The binary64 number nearest to [m * 2^e] (ties to even; infinite
    beyond the range). *)
Definition round_binary64 (m e : Z) : float :=
  SF2Prim (binary_normalize prec emax m e false).

(** [float(z)] of an int: raises when the rounded value is out of range. *)
Definition float_of_int (z : Z) : result float :=
  let f := round_binary64 z 0 in
  if PrimFloat.is_infinity f
  then Raise (OverflowError [T (u "int too large to convert to float")])
  else Ok f.

(** The binary64 number nearest to [(-1)^neg * m * 10^e], for [0 <= m].
    For a negative exponent the quotient is computed with 64 extra bits
    and a sticky bit, which rounds as the exact quotient does. *)
Definition float_of_decimal (neg : bool) (m e : Z) : float :=
  let sg := if neg then (-1)%Z else 1%Z in
  if (m =? 0)%Z then (if neg then neg_zero else zero)
  else if (0 <=? e)%Z then round_binary64 (sg * m * 10 ^ e) 0
  else
    let d := (10 ^ (- e))%Z in
    let k := Z.max 0 (64 + Z.log2 d - Z.log2 m) in
    let n := (m * 2 ^ k)%Z in
    let sticky := if (n mod d =? 0)%Z then 0%Z else 1%Z in
    round_binary64 (sg * (2 * (n / d) + sticky)) (- k - 1).

Definition is_ascii_digit (c : char) : bool := in_range 48 57 c.

(** The whitespace of C's [isspace] in the C locale. *)
Definition is_c_space (c : char) : bool := in_range 9 13 c || (c =? 32)%N.

Fixpoint c_lstrip (s : str) : str :=
  match s with
  | [] => []
  | c :: s' => if is_c_space c then c_lstrip s' else s
  end.

Definition c_strip (s : str) : str := rev (c_lstrip (rev (c_lstrip s))).

Fixpoint span_digits (s : str) : str * str :=
  match s with
  | c :: s' =>
      if is_ascii_digit c
      then let '(ds, r) := span_digits s' in (c :: ds, r)
      else ([], s)
  | [] => ([], [])
  end.

Definition digits_value (ds : str) : Z :=
  fold_left (fun acc c => (10 * acc + (Z.of_N c - 48))%Z) ds 0%Z.

(** Underscores are legal only between two digits; they are dropped. *)
Fixpoint remove_underscores (prev : char) (s : str) : option str :=
  match s with
  | [] => if (prev =? 95)%N then None else Some []
  | c :: s' =>
      if (c =? 95)%N
      then if is_ascii_digit prev then remove_underscores c s' else None
      else if (prev =? 95)%N && negb (is_ascii_digit c) then None
      else option_map (cons c) (remove_underscores c s')
  end.

Definition split_sign (s : str) : bool * str :=
  match s with
  | 45%N :: r => (true, r)
  | 43%N :: r => (false, r)
  | _ => (false, s)
  end.

(** The unsigned part of a float literal. *)
Definition parse_unsigned (neg : bool) (s : str) : option float :=
  let lw := List.map ascii_lower_char s in
  if str_eqb lw (u "inf") || str_eqb lw (u "infinity")
  then Some (if neg then neg_infinity else infinity)
  else if str_eqb lw (u "nan") then Some nan
  else
    let '(ip, r1) := span_digits s in
    let '(fp, r2) := match r1 with
                     | 46%N :: r => span_digits r
                     | _ => ([], r1)
                     end in
    let mant := digits_value (ip ++ fp) in
    let scale := Z.of_nat (List.length fp) in
    match ip ++ fp, r2 with
    | [], _ => None
    | _ :: _, [] => Some (float_of_decimal neg mant (- scale))
    | _ :: _, c :: r3 =>
        if (c =? 101)%N || (c =? 69)%N then
          let '(eneg, r4) := split_sign r3 in
          let '(ed, r5) := span_digits r4 in
          match ed, r5 with
          | _ :: _, [] =>
              let ex := digits_value ed in
              Some (float_of_decimal neg mant
                      ((if eneg then - ex else ex) - scale))
          | _, _ => None
          end
        else None
    end.

Section WithRuntime.
Context {R : Runtime}.

(** A character of the argument as [float] reads it: ASCII as it is,
    Unicode whitespace as a blank, a Unicode decimal digit as its ASCII
    digit; anything else makes the literal invalid. *)
Definition float_char (c : char) : option char :=
  if is_ascii c then Some c
  else if is_space c then Some 32%N
  else match unicode_decimal c with
       | Some d => Some (48 + d)%N
       | None => None
       end.

(** [float(s)] of a string: [None] stands for [ValueError]. *)
Definition float_of_str (s : str) : option float :=
  cs ← mapM float_char s;
  body ← (let t := c_strip cs in
          if existsb (N.eqb 95) t then remove_underscores 0%N t else Some t);
  let '(neg, r) := split_sign body in
  parse_unsigned neg r.

End WithRuntime.

(** [int(x)] of a float: truncation toward zero; NaN and the infinities
    raise. *)
Definition int_of_float (f : float) : result Z :=
  match Prim2SF f with
  | S754_zero _ => Ok 0%Z
  | S754_finite s m e =>
      let mag := if (0 <=? e)%Z then (Z.pos m * 2 ^ e)%Z
                 else (Z.pos m / 2 ^ (- e))%Z in
      Ok (if s then - mag else mag)%Z
  | S754_infinity _ =>
      Raise (OverflowError [T (u "cannot convert float infinity to integer")])
  | S754_nan =>
      Raise (ValueError [T (u "cannot convert float NaN to integer")])
  end.

End PyNum.

Import PyNum.

(** ** normalizer.py *)

Module Normalizer.

(** [_CURRENCY_RE]: the character class as the source file spells it,
    U+00E2 U+201A U+0105 [$] U+00E2 U+201A U+00AC U+00C2 U+0141 U+00C2
    U+0104. *)
Definition _CURRENCY_RE (c : char) : bool :=
  existsb (N.eqb c) [226; 8218; 261; 36; 226; 8218; 172; 194; 321; 194; 260]%N.

(** [_PAREN_NEG_RE.match(text)], the pattern [^\((.+)\)$] on a text that
    does not end in a line break: group 1 when the text is a
    parenthesised, non-empty run without a line break. *)
Definition _PAREN_NEG_RE (text : str) : option str :=
  match text with
  | 40%N :: rest =>
      match rev rest with
      | 41%N :: rmid =>
          let mid := rev rmid in
          match mid with
          | [] => None
          | _ :: _ => if existsb (N.eqb 10) mid then None else Some mid
          end
      | _ => None
      end
  | _ => None
  end.

(** [_PUNCT_RE] is [[^a-z0-9\s\-&]]: the characters it leaves in place. *)
Definition kept_by_PUNCT_RE (c : char) : bool :=
  in_range 97 122 c || in_range 48 57 c || is_space c
  || (c =? 45)%N || (c =? 38)%N.

(** [_MULTI_SPACE_RE.sub(" ", text)]: every maximal run of whitespace
    becomes one blank.  [in_run] tells that the previous character was
    whitespace. *)
Fixpoint collapse_from (in_run : bool) (s : str) : str :=
  match s with
  | [] => []
  | c :: s' =>
      if is_space c
      then (if in_run then collapse_from true s'
            else 32%N :: collapse_from true s')
      else c :: collapse_from false s'
  end.

Definition _MULTI_SPACE_RE_sub (s : str) : str := collapse_from false s.

Section WithRuntime.
Context {R : Runtime}.

Definition normalize_label (raw : str) : str :=
  let text := strip raw in
  let text := lower text in
  (* the two [replace] calls, with the needles as the source has them *)
  let text := replace [226; 8364; 8220]%N (u "-") text in
  let text := replace [226; 8364; 8221]%N (u "-") text in
  let text := List.filter kept_by_PUNCT_RE text in
  strip (_MULTI_SPACE_RE_sub text).

Definition normalize_value (raw : pyobj) : result (option float * list msg) :=
  match raw with
  | PNone => Ok (None, [[T (u "Value is None")]])
  | PInt z => f ← float_of_int z; Ok (Some f, [])
  | PFloat f => Ok (Some f, [])
  | POther ty _ => Ok (None, [[T (u "Unexpected value type: "); T ty]])
  | PStr s =>
      let text := strip s in
      match text with
      | [] => Ok (None, [[T (u "Value is empty string")]])
      | _ :: _ =>
          let text := strip (List.filter (fun c => negb (_CURRENCY_RE c)) text) in
          let text := match _PAREN_NEG_RE text with
                      | Some g => u "-" ++ g
                      | None => text
                      end in
          let text := replace (u ",") [] text in
          let '(text, warnings) :=
            if endswith (u "%") text
            then (strip (removelast text),
                  [[T (u "Percent symbol stripped; raw value treated as number")]])
            else (text, []) in
          match float_of_str text with
          | Some value => Ok (Some value, warnings)
          | None =>
              Ok (None, warnings ++
                        [[T (u "Cannot parse numeric value from: "); ReprStr s]])
          end
      end
  end.

Definition normalize_pair (raw_label : str) (raw_value : pyobj)
  : result (str * option float * list msg) :=
  let label := normalize_label raw_label in
  '(value, warnings) ← normalize_value raw_value;
  Ok (label, value, warnings).

End WithRuntime.
End Normalizer.

(** ** schema.py *)

Module Schema.

(** Every field the system can map to, in declaration order. *)
Inductive CanonicalField :=
| CURRENT_ASSETS
| CURRENT_LIABILITIES
| LONG_TERM_BORROWINGS
| LONG_TERM_PROVISIONS
| SHARE_CAPITAL
| RESERVES_AND_SURPLUS
| GROSS_PROFIT
| INDIRECT_EXPENSES
| CASH_SALES
| CREDIT_SALES
| OTHER_OPERATING_INCOME
| OPERATING_EXPENSES
| CASH_ACCRUALS
| LOAN_INSTALLMENT
| INTEREST
| OPENING_INVENTORY
| CLOSING_INVENTORY
| NET_PURCHASES
| DIRECT_EXPENSES
| OPENING_DEBTORS
| CLOSING_DEBTORS
| NET_SALES
| LONG_TERM_LIABILITIES
| INTANGIBLE_ASSETS
| FIXED_COST
| SELLING_PRICE
| VARIABLE_COST
| NET_PROFIT
| NET_WORTH
| TOTAL_ASSETS
| TOTAL_LIABILITIES
| EBITDA
| DEPRECIATION
| TAX
| REVENUE
| TOTAL_DEBT
| EQUITY
| WORKING_CAPITAL
| TANGIBLE_ASSETS
| FIXED_ASSETS
| INVENTORY
| TRADE_RECEIVABLES
| TRADE_PAYABLES
| CASH_AND_EQUIVALENTS
| TOTAL_INCOME
| TOTAL_EXPENSES
| NET_REVENUE
| COST_OF_GOODS_SOLD
| OPERATING_PROFIT
| PROFIT_BEFORE_TAX.

(** The [.value] of a member: the human-readable canonical name. *)
Definition value (f : CanonicalField) : str :=
  match f with
  | CURRENT_ASSETS => u "Current Assets"
  | CURRENT_LIABILITIES => u "Current Liabilities"
  | LONG_TERM_BORROWINGS => u "Long-term Borrowings"
  | LONG_TERM_PROVISIONS => u "Long-term Provisions"
  | SHARE_CAPITAL => u "Share Capital"
  | RESERVES_AND_SURPLUS => u "Reserves & Surplus"
  | GROSS_PROFIT => u "Gross Profit"
  | INDIRECT_EXPENSES => u "Indirect Expenses"
  | CASH_SALES => u "Cash Sales"
  | CREDIT_SALES => u "Credit Sales"
  | OTHER_OPERATING_INCOME => u "Other Operating Income"
  | OPERATING_EXPENSES => u "Operating Expenses"
  | CASH_ACCRUALS => u "Cash Accruals"
  | LOAN_INSTALLMENT => u "Loan Installment"
  | INTEREST => u "Interest"
  | OPENING_INVENTORY => u "Opening Inventory"
  | CLOSING_INVENTORY => u "Closing Inventory"
  | NET_PURCHASES => u "Net Purchases"
  | DIRECT_EXPENSES => u "Direct Expenses"
  | OPENING_DEBTORS => u "Opening Debtors"
  | CLOSING_DEBTORS => u "Closing Debtors"
  | NET_SALES => u "Net Sales"
  | LONG_TERM_LIABILITIES => u "Long-term Liabilities"
  | INTANGIBLE_ASSETS => u "Intangible Assets"
  | FIXED_COST => u "Fixed Cost"
  | SELLING_PRICE => u "Selling Price"
  | VARIABLE_COST => u "Variable Cost"
  | NET_PROFIT => u "Net Profit"
  | NET_WORTH => u "Net Worth"
  | TOTAL_ASSETS => u "Total Assets"
  | TOTAL_LIABILITIES => u "Total Liabilities"
  | EBITDA => u "EBITDA"
  | DEPRECIATION => u "Depreciation"
  | TAX => u "Tax"
  | REVENUE => u "Revenue"
  | TOTAL_DEBT => u "Total Debt"
  | EQUITY => u "Equity"
  | WORKING_CAPITAL => u "Working Capital"
  | TANGIBLE_ASSETS => u "Tangible Assets"
  | FIXED_ASSETS => u "Fixed Assets"
  | INVENTORY => u "Inventory"
  | TRADE_RECEIVABLES => u "Trade Receivables"
  | TRADE_PAYABLES => u "Trade Payables"
  | CASH_AND_EQUIVALENTS => u "Cash and Cash Equivalents"
  | TOTAL_INCOME => u "Total Income"
  | TOTAL_EXPENSES => u "Total Expenses"
  | NET_REVENUE => u "Net Revenue"
  | COST_OF_GOODS_SOLD => u "Cost of Goods Sold"
  | OPERATING_PROFIT => u "Operating Profit"
  | PROFIT_BEFORE_TAX => u "Profit Before Tax"
  end.

(** Iteration over the enum: declaration order. *)
Definition members : list CanonicalField :=
  [CURRENT_ASSETS; CURRENT_LIABILITIES; LONG_TERM_BORROWINGS;
   LONG_TERM_PROVISIONS; SHARE_CAPITAL; RESERVES_AND_SURPLUS; GROSS_PROFIT;
   INDIRECT_EXPENSES; CASH_SALES; CREDIT_SALES; OTHER_OPERATING_INCOME;
   OPERATING_EXPENSES; CASH_ACCRUALS; LOAN_INSTALLMENT; INTEREST;
   OPENING_INVENTORY; CLOSING_INVENTORY; NET_PURCHASES; DIRECT_EXPENSES;
   OPENING_DEBTORS; CLOSING_DEBTORS; NET_SALES; LONG_TERM_LIABILITIES;
   INTANGIBLE_ASSETS; FIXED_COST; SELLING_PRICE; VARIABLE_COST; NET_PROFIT;
   NET_WORTH; TOTAL_ASSETS; TOTAL_LIABILITIES; EBITDA; DEPRECIATION; TAX;
   REVENUE; TOTAL_DEBT; EQUITY; WORKING_CAPITAL; TANGIBLE_ASSETS;
   FIXED_ASSETS; INVENTORY; TRADE_RECEIVABLES; TRADE_PAYABLES;
   CASH_AND_EQUIVALENTS; TOTAL_INCOME; TOTAL_EXPENSES; NET_REVENUE;
   COST_OF_GOODS_SOLD; OPERATING_PROFIT; PROFIT_BEFORE_TAX].

(** [CANONICAL_NAMES], a [set]: its elements in source order.  Membership
    is [canonical_name_in]; iteration goes through [set_iteration]. *)
Definition CANONICAL_NAMES : list str := List.map value members.

Definition canonical_name_in (name : str) : bool :=
  existsb (str_eqb name) CANONICAL_NAMES.

Section WithRuntime.
Context {R : Runtime}.

(** Case-insensitive lookup by value. *)
Definition canonical_lookup (name : str) : option CanonicalField :=
  let _lower := lower (strip name) in
  List.find (fun f => str_eqb (lower (value f)) _lower) members.

End WithRuntime.

(** A single raw-label to canonical-field mapping. *)
Record MappingResult := {
  canonical_name : str;
  raw_label : str;
  mvalue : pyobj;              (* [value] *)
  confidence : Q;
  match_method : str;
  warnings : list msg
}.

(** Aggregate result of a full pipeline run; an unmapped entry is the
    dict of its raw label and raw value. *)
Record PipelineOutput := {
  mappings : list MappingResult;
  unmapped : list (str * pyobj);
  validation_errors : list msg;
  validation_warnings : list msg
}.

Definition success (o : PipelineOutput) : bool :=
  (List.length (validation_errors o) =? 0)%nat.

End Schema.

(** ** config.py *)

Module Config.

Record MatchingConfig := {
  fuzzy_threshold : Q;
  fuzzy_ambiguity_delta : Q;
  semantic_threshold : Q;
  strict_mode : bool
}.

Record ValidationConfig := {
  required_fields : list str;
  max_absolute_value : float;
  error_on_duplicate : bool
}.

(** [custom_synonym_path] names a JSON file; the field holds the object
    that file contains, as [json.load] returns it. *)
Record PipelineConfig := {
  matching : MatchingConfig;
  validation : ValidationConfig;
  log_level : Z;
  custom_synonym_path : option (list (str * str));
  enable_semantic_layer : bool
}.

Definition default_MatchingConfig : MatchingConfig :=
  {| fuzzy_threshold := 80; fuzzy_ambiguity_delta := 5;
     semantic_threshold := 85 # 100; strict_mode := false |}.

Definition default_ValidationConfig : ValidationConfig :=
  {| required_fields := []; max_absolute_value := 1e15%float;
     error_on_duplicate := true |}.

Definition default_PipelineConfig : PipelineConfig :=
  {| matching := default_MatchingConfig;
     validation := default_ValidationConfig;
     log_level := 20;
     custom_synonym_path := None;
     enable_semantic_layer := false |}.

End Config.

(** ** synonym_mapper.py *)

Module SynonymMapper.

(** The built-in dictionary, entry by entry as the literal lists them
    (a later entry for the same key replaces the earlier one). *)
Definition _BUILTIN_SYNONYMS : list (str * str) :=
  List.map (fun '(k, v) => (u k, u v)) [
    (* --- Current Assets --- *)
    ("current assets", "Current Assets");
    ("total current assets", "Current Assets");
    ("current assets total", "Current Assets");
    ("ca", "Current Assets");
    ("net current assets", "Current Assets");
    (* --- Current Liabilities --- *)
    ("current liabilities", "Current Liabilities");
    ("total current liabilities", "Current Liabilities");
    ("current liabilities total", "Current Liabilities");
    ("cl", "Current Liabilities");
    ("current liabilities & provisions", "Current Liabilities");
    ("current liabilities and provisions", "Current Liabilities");
    (* --- Long-term Borrowings --- *)
    ("long-term borrowings", "Long-term Borrowings");
    ("long term borrowings", "Long-term Borrowings");
    ("lt borrowings", "Long-term Borrowings");
    ("long term loans", "Long-term Borrowings");
    ("long-term loans", "Long-term Borrowings");
    ("term loans", "Long-term Borrowings");
    ("secured loans", "Long-term Borrowings");
    ("unsecured loans", "Long-term Borrowings");
    ("borrowings non-current", "Long-term Borrowings");
    ("non-current borrowings", "Long-term Borrowings");
    (* --- Long-term Provisions --- *)
    ("long-term provisions", "Long-term Provisions");
    ("long term provisions", "Long-term Provisions");
    ("lt provisions", "Long-term Provisions");
    ("non-current provisions", "Long-term Provisions");
    ("provisions non-current", "Long-term Provisions");
    (* --- Share Capital --- *)
    ("share capital", "Share Capital");
    ("equity share capital", "Share Capital");
    ("paid-up capital", "Share Capital");
    ("paid up capital", "Share Capital");
    ("issued capital", "Share Capital");
    ("authorized capital", "Share Capital");
    ("authorised capital", "Share Capital");
    ("share capital & premium", "Share Capital");
    (* --- Reserves & Surplus --- *)
    ("reserves & surplus", "Reserves & Surplus");
    ("reserves and surplus", "Reserves & Surplus");
    ("reserves", "Reserves & Surplus");
    ("surplus", "Reserves & Surplus");
    ("retained earnings", "Reserves & Surplus");
    ("other reserves", "Reserves & Surplus");
    ("general reserve", "Reserves & Surplus");
    ("profit & loss account", "Reserves & Surplus");
    ("profit and loss account", "Reserves & Surplus");
    ("accumulated profits", "Reserves & Surplus");
    (* --- Gross Profit --- *)
    ("gross profit", "Gross Profit");
    ("gp", "Gross Profit");
    ("gross margin", "Gross Profit");
    ("gross income", "Gross Profit");
    (* --- Indirect Expenses --- *)
    ("indirect expenses", "Indirect Expenses");
    ("indirect costs", "Indirect Expenses");
    ("overhead expenses", "Indirect Expenses");
    ("overheads", "Indirect Expenses");
    ("administrative expenses", "Indirect Expenses");
    ("admin expenses", "Indirect Expenses");
    (* --- Cash Sales --- *)
    ("cash sales", "Cash Sales");
    ("cash revenue", "Cash Sales");
    (* --- Credit Sales --- *)
    ("credit sales", "Credit Sales");
    ("credit revenue", "Credit Sales");
    ("sales on credit", "Credit Sales");
    (* --- Other Operating Income --- *)
    ("other operating income", "Other Operating Income");
    ("other income", "Other Operating Income");
    ("non-operating income", "Other Operating Income");
    ("miscellaneous income", "Other Operating Income");
    (* --- Operating Expenses --- *)
    ("operating expenses", "Operating Expenses");
    ("opex", "Operating Expenses");
    ("operational expenses", "Operating Expenses");
    (* --- Cash Accruals --- *)
    ("cash accruals", "Cash Accruals");
    ("cash accrual", "Cash Accruals");
    ("net cash accruals", "Cash Accruals");
    (* --- Loan Installment --- *)
    ("loan installment", "Loan Installment");
    ("loan instalment", "Loan Installment");
    ("emi", "Loan Installment");
    ("loan repayment", "Loan Installment");
    ("debt repayment", "Loan Installment");
    (* --- Interest --- *)
    ("interest", "Interest");
    ("interest expense", "Interest");
    ("interest cost", "Interest");
    ("finance cost", "Interest");
    ("finance costs", "Interest");
    ("interest paid", "Interest");
    ("interest on borrowings", "Interest");
    (* --- Inventory items --- *)
    ("opening inventory", "Opening Inventory");
    ("opening stock", "Opening Inventory");
    ("beginning inventory", "Opening Inventory");
    ("inventory at beginning", "Opening Inventory");
    ("closing inventory", "Closing Inventory");
    ("closing stock", "Closing Inventory");
    ("ending inventory", "Closing Inventory");
    ("inventory at end", "Closing Inventory");
    (* --- Net Purchases --- *)
    ("net purchases", "Net Purchases");
    ("purchases", "Net Purchases");
    ("total purchases", "Net Purchases");
    (* --- Direct Expenses --- *)
    ("direct expenses", "Direct Expenses");
    ("direct costs", "Direct Expenses");
    ("manufacturing expenses", "Direct Expenses");
    ("production expenses", "Direct Expenses");
    ("factory expenses", "Direct Expenses");
    (* --- Debtors --- *)
    ("opening debtors", "Opening Debtors");
    ("opening trade receivables", "Opening Debtors");
    ("debtors at beginning", "Opening Debtors");
    ("closing debtors", "Closing Debtors");
    ("closing trade receivables", "Closing Debtors");
    ("debtors at end", "Closing Debtors");
    (* --- Net Sales --- *)
    ("net sales", "Net Sales");
    ("total sales", "Net Sales");
    ("sales", "Net Sales");
    ("turnover", "Net Sales");
    ("net turnover", "Net Sales");
    ("total turnover", "Net Sales");
    ("revenue from operations", "Net Sales");
    (* --- Long-term Liabilities --- *)
    ("long-term liabilities", "Long-term Liabilities");
    ("long term liabilities", "Long-term Liabilities");
    ("non-current liabilities", "Long-term Liabilities");
    ("total non-current liabilities", "Long-term Liabilities");
    (* --- Intangible Assets --- *)
    ("intangible assets", "Intangible Assets");
    ("goodwill", "Intangible Assets");
    ("patents", "Intangible Assets");
    ("trademarks", "Intangible Assets");
    ("intangibles", "Intangible Assets");
    (* --- Cost items --- *)
    ("fixed cost", "Fixed Cost");
    ("fixed costs", "Fixed Cost");
    ("fixed expenses", "Fixed Cost");
    ("selling price", "Selling Price");
    ("sale price", "Selling Price");
    ("sp", "Selling Price");
    ("variable cost", "Variable Cost");
    ("variable costs", "Variable Cost");
    ("variable expenses", "Variable Cost");
    (* --- Extended / derived fields --- *)
    ("net profit", "Net Profit");
    ("profit after tax", "Net Profit");
    ("pat", "Net Profit");
    ("net income", "Net Profit");
    ("bottom line", "Net Profit");
    ("profit for the year", "Net Profit");
    ("profit for the period", "Net Profit");
    ("net worth", "Net Worth");
    ("networth", "Net Worth");
    ("owner funds", "Net Worth");
    ("owners funds", "Net Worth");
    ("shareholders funds", "Net Worth");
    ("shareholders equity", "Net Worth");
    ("stockholders equity", "Net Worth");
    ("total equity", "Net Worth");
    ("total assets", "Total Assets");
    ("total asset", "Total Assets");
    ("total liabilities", "Total Liabilities");
    ("total liability", "Total Liabilities");
    ("ebitda", "EBITDA");
    ("operating profit before depreciation", "EBITDA");
    ("earnings before interest tax depreciation & amortization", "EBITDA");
    ("depreciation", "Depreciation");
    ("depreciation & amortization", "Depreciation");
    ("depreciation and amortisation", "Depreciation");
    ("dep", "Depreciation");
    ("tax", "Tax");
    ("income tax", "Tax");
    ("provision for tax", "Tax");
    ("tax expense", "Tax");
    ("taxation", "Tax");
    ("revenue", "Revenue");
    ("total revenue", "Revenue");
    ("gross revenue", "Revenue");
    ("income from operations", "Revenue");
    ("total debt", "Total Debt");
    ("total borrowings", "Total Debt");
    ("debt", "Total Debt");
    ("equity", "Equity");
    ("owner equity", "Equity");
    ("equity capital", "Equity");
    ("working capital", "Working Capital");
    ("net working capital", "Working Capital");
    ("tangible assets", "Tangible Assets");
    ("net tangible assets", "Tangible Assets");
    ("property plant & equipment", "Tangible Assets");
    ("property plant and equipment", "Tangible Assets");
    ("ppe", "Tangible Assets");
    ("fixed assets", "Fixed Assets");
    ("non-current assets", "Fixed Assets");
    ("total fixed assets", "Fixed Assets");
    ("net fixed assets", "Fixed Assets");
    ("net block", "Fixed Assets");
    ("gross block", "Fixed Assets");
    ("inventory", "Inventory");
    ("inventories", "Inventory");
    ("stock", "Inventory");
    ("stocks", "Inventory");
    ("trade receivables", "Trade Receivables");
    ("sundry debtors", "Trade Receivables");
    ("accounts receivable", "Trade Receivables");
    ("debtors", "Trade Receivables");
    ("trade payables", "Trade Payables");
    ("sundry creditors", "Trade Payables");
    ("accounts payable", "Trade Payables");
    ("creditors", "Trade Payables");
    ("cash and cash equivalents", "Cash and Cash Equivalents");
    ("cash & cash equivalents", "Cash and Cash Equivalents");
    ("cash and bank balances", "Cash and Cash Equivalents");
    ("cash & bank balances", "Cash and Cash Equivalents");
    ("cash", "Cash and Cash Equivalents");
    ("bank balance", "Cash and Cash Equivalents");
    ("total income", "Total Income");
    ("total expenses", "Total Expenses");
    ("total expenditure", "Total Expenses");
    ("net revenue", "Net Revenue");
    ("cost of goods sold", "Cost of Goods Sold");
    ("cogs", "Cost of Goods Sold");
    ("cost of sales", "Cost of Goods Sold");
    ("cost of revenue", "Cost of Goods Sold");
    ("operating profit", "Operating Profit");
    ("ebit", "Operating Profit");
    ("earnings before interest and tax", "Operating Profit");
    ("operating income", "Operating Profit");
    ("profit before tax", "Profit Before Tax");
    ("pbt", "Profit Before Tax");
    ("earnings before tax", "Profit Before Tax");
    ("income before tax", "Profit Before Tax");
    (* --- Additional missing variations --- *)
    ("assets", "Total Assets");
    ("total assets (ta)", "Total Assets");
    ("liabilities", "Total Liabilities");
    ("total liabilities (tl)", "Total Liabilities");
    ("borrowings", "Total Debt");
    ("earnings", "Net Profit");
    ("eat", "Net Profit");
    ("sales", "Net Sales");
    ("sale", "Net Sales");
    ("sales revenue", "Net Sales");
    ("revenue from sales", "Net Sales");
    ("earnings from operations", "Operating Profit");
    ("short term borrowings", "Current Liabilities");
    ("st borrowings", "Current Liabilities");
    ("long form liabilities", "Long-term Liabilities");
    ("nd", "Long-term Borrowings");
    ("current borrowings", "Short-term Borrowings");
    ("floating cash", "Cash and Cash Equivalents");
    ("bank", "Cash and Cash Equivalents");
    ("cash balance", "Cash and Cash Equivalents")
  ]%string.

Section WithRuntime.
Context {R : Runtime}.

(** [lookup]: the canonical name if the normalised label is a key of the
    dictionary. *)
Definition lookup (d : gmap (list N) (list N)) (normalised_label : str)
  : option str :=
  d !! normalised_label.

(** [add_synonym]: the dictionary after the call, or the [ValueError]. *)
Definition add_synonym (d : gmap (list N) (list N)) (variant canonical : str)
  : result (gmap (list N) (list N)) :=
  canonical ←
    (if Schema.canonical_name_in canonical then Ok canonical
     else match Schema.canonical_lookup canonical with
          | None =>
              Raise (ValueError
                       [T (u "Unknown canonical name "); ReprStr canonical;
                        T (u ". Must be one of the CanonicalField values.")])
          | Some cf => Ok (Schema.value cf)
          end);
  let nk := Normalizer.normalize_label variant in
  Ok (<[nk := canonical]> d).

(** [add_synonyms]: one [add_synonym] per item, in order; the first
    exception ends the loop. *)
Fixpoint add_synonyms (d : gmap (list N) (list N)) (mapping : list (str * str))
  : result (gmap (list N) (list N)) :=
  match mapping with
  | [] => Ok d
  | (variant, canonical) :: rest =>
      d' ← add_synonym d variant canonical;
      add_synonyms d' rest
  end.

(** [load_custom_synonyms], given the object read from the file: the
    dictionary after the call and the number of entries. *)
Definition load_custom_synonyms (d : gmap (list N) (list N))
  (data : list (str * str)) : result (gmap (list N) (list N) * nat) :=
  d' ← add_synonyms d data;
  Ok (d', List.length data).

(** [__init__]: the built-in entries under their normalised keys, then
    the extra synonyms when there are any. *)
Definition __init__ (extra_synonyms : option (list (str * str)))
  : result (gmap (list N) (list N)) :=
  let d := fold_left
             (fun d '(variant, canonical) =>
                <[Normalizer.normalize_label variant := canonical]> d)
             _BUILTIN_SYNONYMS ∅ in
  match extra_synonyms with
  | None | Some [] => Ok d
  | Some (e :: es) => add_synonyms d (e :: es)
  end.

Definition size (d : gmap (list N) (list N)) : nat := base.size d.

End WithRuntime.
End SynonymMapper.

(** ** A [dict] whose order of insertion matters *)

Module ODict.

(** [d[k] = v]: the value is replaced in place when the key is there, and
    the item is added at the end when it is not. *)
Fixpoint set {K V} `{EqDecision K} (k : K) (v : V) (d : list (K * V))
  : list (K * V) :=
  match d with
  | [] => [(k, v)]
  | (k', v') :: d' =>
      if decide (k = k') then (k, v) :: d' else (k', v') :: set k v d'
  end.

Fixpoint get {K V} `{EqDecision K} (k : K) (d : list (K * V)) : option V :=
  match d with
  | [] => None
  | (k', v') :: d' => if decide (k = k') then Some v' else get k d'
  end.

Definition keys {K V} (d : list (K * V)) : list K := List.map fst d.
Definition values {K V} (d : list (K * V)) : list V := List.map snd d.

End ODict.

(** ** fuzzy_matcher.py *)

Module FuzzyMatcher.

(** A single candidate returned by the fuzzy matcher. *)
Record FuzzyCandidate := {
  canonical_name : str;
  score : Q;
  is_ambiguous : bool
}.

(** The state of a [FuzzyMatcher] object. *)
Record t := {
  _config : Config.MatchingConfig;
  _targets : list (str * str);      (* canonical_lower -> canonical_original *)
  _target_keys : list str
}.

(** [a < b] on scores. *)
Definition Qltb (a b : Q) : bool := negb (Qle_bool b a).

Section WithRuntime.
Context {R : Runtime}.

Definition __init__ (config : Config.MatchingConfig)
  (extra_targets : option (list str)) : t :=
  let targets :=
    fold_left (fun d name => ODict.set (lower name) name d)
      (set_iteration Schema.CANONICAL_NAMES) [] in
  let targets :=
    match extra_targets with
    | None => targets
    | Some ts => fold_left (fun d x => ODict.set (lower x) x d) ts targets
    end in
  {| _config := config; _targets := targets;
     _target_keys := ODict.keys targets |}.

(** rapidfuzz [process.extract(query, choices, scorer=fuzz.token_sort_ratio,
    limit=n)]: every choice with its score and index, best score first,
    equal scores in the order of the choices, cut to [n] results. *)
Fixpoint insert_by_score (x : str * Q * nat) (l : list (str * Q * nat))
  : list (str * Q * nat) :=
  match l with
  | [] => [x]
  | y :: l' =>
      if Qltb (snd (fst x)) (snd (fst y)) then y :: insert_by_score x l'
      else x :: l
  end.

Definition extract (query : str) (choices : list str) (limit : nat)
  : list (str * Q * nat) :=
  firstn limit
    (fold_right insert_by_score []
       (imap (fun i c => (c, token_sort_ratio query c, i)) choices)).

(** [match]: the best canonical match for the normalised label, [None] if
    nothing qualifies. *)
Definition match_ (self : t) (normalised_label : str)
  : result (option FuzzyCandidate) :=
  match normalised_label with
  | [] => Ok None
  | _ :: _ =>
      let results := extract normalised_label (_target_keys self) 5 in
      match results with
      | [] => Ok None
      | (best_key, best_score, _) :: rest =>
          if Qltb best_score (Config.fuzzy_threshold (_config self))
          then Ok None
          else
            (* [best_score - second_score] is a subtraction of floats:
               the exact difference, rounded *)
            let is_ambiguous :=
              match rest with
              | (_, second_score, _) :: _ =>
                  Qle_bool (float_round (best_score - second_score))
                    (Config.fuzzy_ambiguity_delta (_config self))
              | [] => false
              end in
            match ODict.get best_key (_targets self) with
            | Some canonical =>
                Ok (Some {| canonical_name := canonical;
                            score := best_score;
                            is_ambiguous := is_ambiguous |})
            | None => Raise (KeyError [ReprStr best_key])
            end
      end
  end.

(** [match_batch]: a dict from each label to its candidate; a label that
    comes again takes the later result. *)
Fixpoint match_batch_from (self : t) (labels : list str)
  (acc : list (str * option FuzzyCandidate))
  : result (list (str * option FuzzyCandidate)) :=
  match labels with
  | [] => Ok acc
  | label :: rest =>
      c ← match_ self label;
      match_batch_from self rest (ODict.set label c acc)
  end.

Definition match_batch (self : t) (labels : list str)
  : result (list (str * option FuzzyCandidate)) :=
  match_batch_from self labels [].

End WithRuntime.
End FuzzyMatcher.

(** ** validator.py *)

Module Validator.

(** Accumulates errors and warnings during a validation pass. *)
Record ValidationReport := {
  errors : list msg;
  warnings : list msg
}.

Definition is_valid (r : ValidationReport) : bool :=
  (List.length (errors r) =? 0)%nat.

Definition add_error (m : msg) (r : ValidationReport) : ValidationReport :=
  {| errors := errors r ++ [m]; warnings := warnings r |}.

Definition add_warning (m : msg) (r : ValidationReport) : ValidationReport :=
  {| errors := errors r; warnings := warnings r ++ [m] |}.

(** [math.isnan(x) or math.isinf(x)] of an int: the int is converted to a
    float first, which raises when it does not fit. *)
Definition int_nonfinite (z : Z) : result bool :=
  f ← float_of_int z;
  Ok (PrimFloat.is_nan f || PrimFloat.is_infinity f).

(** [z > f] between an int and a float, which Python decides exactly. *)
Definition int_gt_float (z : Z) (f : float) : bool :=
  match Prim2SF f with
  | S754_nan => false
  | S754_infinity s => s
  | S754_zero _ => (0 <? z)%Z
  | S754_finite s m e =>
      let fm := if s then Z.neg m else Z.pos m in
      if (0 <=? e)%Z then (fm * 2 ^ e <? z)%Z else (fm <? z * 2 ^ (- e))%Z
  end.

(** Detect if two raw labels mapped to the same canonical name. *)
Fixpoint _check_duplicates_from (cfg : Config.ValidationConfig)
  (seen : gmap (list N) (list N)) (ms : list Schema.MappingResult)
  (report : ValidationReport) : ValidationReport :=
  match ms with
  | [] => report
  | m :: rest =>
      match seen !! Schema.canonical_name m with
      | Some first =>
          let m_ := [T (u "Duplicate canonical mapping '");
                     T (Schema.canonical_name m);
                     T (u "': first from '"); T first;
                     T (u "', again from '"); T (Schema.raw_label m);
                     T (u "'")] in
          _check_duplicates_from cfg seen rest
            (if Config.error_on_duplicate cfg then add_error m_ report
             else add_warning m_ report)
      | None =>
          _check_duplicates_from cfg
            (<[Schema.canonical_name m := Schema.raw_label m]> seen) rest report
      end
  end.

Definition _check_duplicates (cfg : Config.ValidationConfig)
  (ms : list Schema.MappingResult) (report : ValidationReport)
  : ValidationReport :=
  _check_duplicates_from cfg ∅ ms report.

(** Ensure every required canonical field has a mapping. *)
Definition _check_required_fields (cfg : Config.ValidationConfig)
  (ms : list Schema.MappingResult) (report : ValidationReport)
  : ValidationReport :=
  match Config.required_fields cfg with
  | [] => report
  | _ :: _ =>
      let mapped_names := List.map Schema.canonical_name ms in
      fold_left
        (fun r req =>
           if existsb (str_eqb req) mapped_names then r
           else add_error [T (u "Required field missing: '"); T req; T (u "'")] r)
        (Config.required_fields cfg) report
  end.

Definition exceeds_msg (cfg : Config.ValidationConfig)
  (m : Schema.MappingResult) (shown : frag) : msg :=
  [T (u "'"); T (Schema.canonical_name m); T (u "' value "); shown;
   T (u " exceeds max_absolute_value (");
   FloatStr (Config.max_absolute_value cfg);
   T (u "). Possible unit error?")].

Definition nonfinite_msg (m : Schema.MappingResult) (shown : frag) : msg :=
  [T (u "'"); T (Schema.canonical_name m); T (u "' has non-finite value: ");
   shown].

(** Sanity-check individual values. *)
Fixpoint _check_values (cfg : Config.ValidationConfig)
  (ms : list Schema.MappingResult) (report : ValidationReport)
  : result ValidationReport :=
  match ms with
  | [] => Ok report
  | m :: rest =>
      match Schema.mvalue m with
      | PNone =>
          _check_values cfg rest
            (add_warning [T (u "'"); T (Schema.canonical_name m);
                          T (u "' (from '"); T (Schema.raw_label m);
                          T (u "') has value None")] report)
      | PStr s =>
          _check_values cfg rest
            (add_warning [T (u "'"); T (Schema.canonical_name m);
                          T (u "' has non-numeric value: "); ReprStr s] report)
      | POther _ r =>
          _check_values cfg rest
            (add_warning [T (u "'"); T (Schema.canonical_name m);
                          T (u "' has non-numeric value: "); ReprObj r] report)
      | PFloat f =>
          if PrimFloat.is_nan f || PrimFloat.is_infinity f
          then _check_values cfg rest
                 (add_error (nonfinite_msg m (FloatStr f)) report)
          else if PrimFloat.ltb (Config.max_absolute_value cfg) (PrimFloat.abs f)
          then _check_values cfg rest
                 (add_warning (exceeds_msg cfg m (FloatStr f)) report)
          else _check_values cfg rest report
      | PInt z =>
          nonfinite ← int_nonfinite z;
          if (nonfinite : bool)
          then _check_values cfg rest
                 (add_error (nonfinite_msg m (IntDec z)) report)
          else if int_gt_float (Z.abs z) (Config.max_absolute_value cfg)
          then _check_values cfg rest
                 (add_warning (exceeds_msg cfg m (IntDec z)) report)
          else _check_values cfg rest report
      end
  end.

(** Run all checks and return a [ValidationReport]. *)
Definition validate (cfg : Config.ValidationConfig)
  (ms : list Schema.MappingResult) : result ValidationReport :=
  let report := {| errors := []; warnings := [] |} in
  let report := _check_duplicates cfg ms report in
  let report := _check_required_fields cfg ms report in
  _check_values cfg ms report.

End Validator.

(** ** schema_builder.py (the parts the pipeline runs through) *)

Module SchemaBuilder.

(** [read_dict]: the items of the dict, in order. *)
Definition read_dict (data : list (str * pyobj)) : list (str * pyobj) := data.

(** [build_output]; [x or []] of a list is the list. *)
Definition build_output (mappings : list Schema.MappingResult)
  (unmapped : list (str * pyobj)) (errors warnings : list msg)
  : Schema.PipelineOutput :=
  {| Schema.mappings := mappings;
     Schema.unmapped := unmapped;
     Schema.validation_errors := errors;
     Schema.validation_warnings := warnings |}.

End SchemaBuilder.

(** ** pipeline.py *)

Module FinancialMappingPipeline.

(** The state of a pipeline object. *)
Record t := {
  _config : Config.PipelineConfig;
  _synonyms : gmap (list N) (list N);
  _fuzzy : FuzzyMatcher.t
}.

(** A value as [normalize_value] hands it on: a float or [None]. *)
Definition of_parsed (v : option float) : pyobj :=
  match v with
  | Some f => PFloat f
  | None => PNone
  end.

(** Hook for embedding-based semantic matching: a placeholder. *)
Definition _semantic_match (normalised_label : str) : option (str * Q) := None.

(** Create a [MappingResult] and check for duplicate canonical mappings;
    returns the result and the updated [seen_canonical]. *)
Definition _build_result (canonical_name raw_label : str) (value : pyobj)
  (confidence : Q) (method : str) (warnings : list msg)
  (seen_canonical : gmap (list N) (list N))
  : Schema.MappingResult * gmap (list N) (list N) :=
  let '(warnings, seen_canonical) :=
    match seen_canonical !! canonical_name with
    | Some prev =>
        (warnings ++
           [[T (u "Duplicate mapping to '"); T canonical_name;
             T (u "': previously mapped from '"); T prev;
             T (u "', now also from '"); T raw_label; T (u "'")]],
         seen_canonical)
    | None => (warnings, <[canonical_name := raw_label]> seen_canonical)
    end in
  ({| Schema.canonical_name := canonical_name;
      Schema.raw_label := raw_label;
      Schema.mvalue := value;
      Schema.confidence := confidence;
      Schema.match_method := method;
      Schema.warnings := warnings |},
   seen_canonical).

Section WithRuntime.
Context {R : Runtime}.

Definition __init__ (config : option Config.PipelineConfig)
  (extra_synonyms : option (list (str * str))) : result t :=
  let config := default Config.default_PipelineConfig config in
  synonyms ← SynonymMapper.__init__ extra_synonyms;
  let fuzzy := FuzzyMatcher.__init__ (Config.matching config) None in
  synonyms ←
    match Config.custom_synonym_path config with
    | Some data =>
        '(d, _) ← SynonymMapper.load_custom_synonyms synonyms data; Ok d
    | None => Ok synonyms
    end;
  Ok {| _config := config; _synonyms := synonyms; _fuzzy := fuzzy |}.

(** Map one (label, value) pair through the matching layers: the mapping
    if any, and the updated [seen_canonical]. *)
Definition _map_single (self : t) (raw_label : str) (raw_value : pyobj)
  (seen_canonical : gmap (list N) (list N))
  : result (option Schema.MappingResult * gmap (list N) (list N)) :=
  (* Step 1: normalise *)
  '(norm_label, value, warnings) ← Normalizer.normalize_pair raw_label raw_value;
  let value := of_parsed value in
  (* Step 2: synonym lookup *)
  match SynonymMapper.lookup (_synonyms self) norm_label with
  | Some canonical =>
      let '(r, seen) :=
        _build_result canonical raw_label value 100 (u "synonym") warnings
          seen_canonical in
      Ok (Some r, seen)
  | None =>
      (* Step 3: fuzzy match *)
      candidate ← FuzzyMatcher.match_ (_fuzzy self) norm_label;
      match candidate with
      | Some c =>
          let warnings :=
            if FuzzyMatcher.is_ambiguous c
            then warnings ++
                   [[T (u "Ambiguous fuzzy match for '"); T raw_label;
                     T (u "' " ++ [8594%N] ++ u " '");
                     T (FuzzyMatcher.canonical_name c);
                     T (u "' (score="); Fixed1 (FuzzyMatcher.score c);
                     T (u ")")]]
            else warnings in
          let '(r, seen) :=
            _build_result (FuzzyMatcher.canonical_name c) raw_label value
              (FuzzyMatcher.score c) (u "fuzzy") warnings seen_canonical in
          Ok (Some r, seen)
      | None =>
          (* Step 4: semantic match (optional) *)
          match (if Config.enable_semantic_layer (_config self)
                 then _semantic_match norm_label else None) with
          | Some (can_name, score) =>
              let '(r, seen) :=
                _build_result can_name raw_label value (score * 100)
                  (u "semantic") warnings seen_canonical in
              Ok (Some r, seen)
          | None => Ok (None, seen_canonical)
          end
      end
  end.

(** The loop of [_run] over the pairs. *)
Fixpoint _run_loop (self : t) (pairs : list (str * pyobj))
  (mappings : list Schema.MappingResult) (unmapped : list (str * pyobj))
  (seen_canonical : gmap (list N) (list N))
  : result (list Schema.MappingResult * list (str * pyobj)) :=
  match pairs with
  | [] => Ok (mappings, unmapped)
  | (raw_label, raw_value) :: rest =>
      '(result, seen) ← _map_single self raw_label raw_value seen_canonical;
      match result with
      | Some r => _run_loop self rest (mappings ++ [r]) unmapped seen
      | None =>
          _run_loop self rest mappings (unmapped ++ [(raw_label, raw_value)]) seen
      end
  end.

(** Execute the full mapping pipeline on raw (label, value) pairs. *)
Definition _run (self : t) (pairs : list (str * pyobj))
  : result Schema.PipelineOutput :=
  '(mappings, unmapped) ← _run_loop self pairs [] [] ∅;
  (* Validation pass *)
  report ← Validator.validate (Config.validation (_config self)) mappings;
  let output :=
    SchemaBuilder.build_output mappings unmapped
      (Validator.errors report) (Validator.warnings report) in
  if Config.strict_mode (Config.matching (_config self))
     && negb (Schema.success output)
  then Raise (RuntimeError
                ([T (u "Strict mode: pipeline produced ");
                  IntDec (Z.of_nat (List.length (Validator.errors report)));
                  T (u " validation error(s):" ++ [10%N])]
                 ++ join [T [10%N]] (Validator.errors report)))
  else Ok output.

(** Map a plain Python dictionary. *)
Definition map_dict (self : t) (data : list (str * pyobj))
  : result Schema.PipelineOutput :=
  _run self (SchemaBuilder.read_dict data).

(** Map from a pre-built list of (label, value) tuples. *)
Definition map_pairs (self : t) (pairs : list (str * pyobj))
  : result Schema.PipelineOutput :=
  _run self pairs.

End WithRuntime.
End FinancialMappingPipeline.

(** ** excel_parser.py: year headers and the assembly of [parse_file] *)

Module ExcelParser.

(** A cell of the grid: a [datetime] (its time of day plays no role
    here) or any other value. *)
Inductive cell :=
| CDatetime (year month day : N)
| CVal (o : pyobj).

(** [cell.strftime("%Y-%m-%d")], for a four-digit year. *)
Definition strftime_Ymd (year month day : N) : str :=
  zero_pad 4 year ++ u "-" ++ zero_pad 2 month ++ u "-" ++ zero_pad 2 day.

(** [re.search]: the match at the leftmost position that has one.  The
    matcher sees the character before the position and the rest of the
    text. *)
Fixpoint search {A} (m : option N -> list N -> option A)
  (prev : option N) (s : str) : option A :=
  match m prev s with
  | Some r => Some r
  | None =>
      match s with
      | [] => None
      | c :: s' => search m (Some c) s'
      end
  end.

Definition is_sep (c : char) : bool := (c =? 45)%N || (c =? 47)%N.

Section WithRuntime.
Context {R : Runtime}.

Definition word_at (c : option N) : bool :=
  match c with
  | Some c => is_word c
  | None => false
  end.

(** [\b] between the character before and the character after. *)
Definition boundary (before after : option N) : bool :=
  xorb (word_at before) (word_at after).

(** Pattern 1, [\b(\d{2})[-/](\d{2})[-/](\d{4})\b]: groups 1, 2, 3. *)
Definition pattern1 (prev : option N) (s : str) : option (str * str * str) :=
  match s with
  | a1 :: a2 :: s1 :: b1 :: b2 :: s2 :: c1 :: c2 :: c3 :: c4 :: rest =>
      if boundary prev (Some a1)
         && forallb is_digit [a1; a2; b1; b2; c1; c2; c3; c4]
         && is_sep s1 && is_sep s2
         && boundary (Some c4) (head rest)
      then Some ([a1; a2], [b1; b2], [c1; c2; c3; c4])
      else None
  | _ => None
  end.

(** Pattern 2, [\b(\d{4})[-/](\d{2})[-/](\d{2})\b]: group 0. *)
Definition pattern2 (prev : option N) (s : str) : option str :=
  match s with
  | a1 :: a2 :: a3 :: a4 :: s1 :: b1 :: b2 :: s2 :: c1 :: c2 :: rest =>
      if boundary prev (Some a1)
         && forallb is_digit [a1; a2; a3; a4; b1; b2; c1; c2]
         && is_sep s1 && is_sep s2
         && boundary (Some c2) (head rest)
      then Some [a1; a2; a3; a4; s1; b1; b2; s2; c1; c2]
      else None
  | _ => None
  end.

(** Pattern 3, [\b(20\d{2})\b]: group 1. *)
Definition pattern3 (prev : option N) (s : str) : option str :=
  match s with
  | 50%N :: 48%N :: d1 :: d2 :: rest =>
      if boundary prev (Some 50%N) && is_digit d1 && is_digit d2
         && boundary (Some d2) (head rest)
      then Some [50%N; 48%N; d1; d2]
      else None
  | _ => None
  end.

(** [\s*(\d{4})] at the start of [s]: the longest run of whitespace
    first, shorter runs on failure. *)
Fixpoint spaces_then_year (s : str) : option str :=
  let here :=
    match s with
    | d1 :: d2 :: d3 :: d4 :: _ =>
        if forallb is_digit [d1; d2; d3; d4] then Some [d1; d2; d3; d4]
        else None
    | _ => None
    end in
  match s with
  | c :: s' =>
      if is_space c
      then match spaces_then_year s' with
           | Some g => Some g
           | None => here
           end
      else here
  | [] => None
  end.

(** Pattern 4, [FY\s*(\d{4})] with [re.IGNORECASE]: group 1. *)
Definition pattern4 (prev : option N) (s : str) : option str :=
  match s with
  | f :: y :: rest =>
      if ((f =? 70)%N || (f =? 102)%N) && ((y =? 89)%N || (y =? 121)%N)
      then spaces_then_year rest
      else None
  | _ => None
  end.

(** Extract year identifier from a header cell (date, year number, or
    text). *)
Definition _extract_year_from_header (c : cell) : result (option str) :=
  match c with
  | CDatetime y m d => Ok (Some (strftime_Ymd y m d))
  | CVal (PInt z) =>
      if (2000 <=? z)%Z && (z <=? 2100)%Z
      then Ok (Some (str_of_N (Z.to_N z))) else Ok None
  | CVal (PFloat f) =>
      year_num ← int_of_float f;
      if (2000 <=? year_num)%Z && (year_num <=? 2100)%Z
      then Ok (Some (str_of_N (Z.to_N year_num))) else Ok None
  | CVal (PStr s) =>
      let text := strip s in
      match search pattern1 None text with
      | Some (g1, g2, g3) => Ok (Some (g3 ++ u "-" ++ g2 ++ u "-" ++ g1))
      | None =>
          match search pattern2 None text with
          | Some g0 => Ok (Some (replace (u "/") (u "-") g0))
          | None =>
              match search pattern3 None text with
              | Some g1 => Ok (Some g1)
              | None =>
                  match search pattern4 None text with
                  | Some g1 => Ok (Some (u "FY" ++ g1))
                  | None => Ok None
                  end
              end
          end
      end
  | CVal _ => Ok None
  end.

(** The entries of a layout dict that the year headers read, each absent
    or present. *)
Record layout := {
  value_cols : option (list nat);
  header_row : option nat
}.

(** The scan of one row: every value column that has no year yet takes
    the year its cell yields, if any. *)
Fixpoint scan_row (row : list cell) (cols : list nat)
  (year_headers : list (nat * str)) : result (list (nat * str)) :=
  match cols with
  | [] => Ok year_headers
  | col_idx :: rest =>
      match row !! col_idx, ODict.get col_idx year_headers with
      | Some c, None =>
          year ← _extract_year_from_header c;
          match year with
          | Some (ch :: y) =>
              scan_row row rest (ODict.set col_idx (ch :: y) year_headers)
          | _ => scan_row row rest year_headers
          end
      | _, _ => scan_row row rest year_headers
      end
  end.

Fixpoint scan_rows (grid : list (list cell)) (header_row_idx : nat)
  (cols : list nat) (offsets : list Z) (year_headers : list (nat * str))
  : result (list (nat * str)) :=
  match offsets with
  | [] => Ok year_headers
  | row_offset :: rest =>
      let row_idx := (Z.of_nat header_row_idx + row_offset)%Z in
      if (0 <=? row_idx)%Z && (row_idx <? Z.of_nat (List.length grid))%Z
      then
        match grid !! Z.to_nat row_idx with
        | Some row =>
            yh ← scan_row row cols year_headers;
            scan_rows grid header_row_idx cols rest yh
        | None => scan_rows grid header_row_idx cols rest year_headers
        end
      else scan_rows grid header_row_idx cols rest year_headers
  end.

(** The default labels: [Year i+1] for the [i]-th value column. *)
Definition default_years (cols : list nat) : list (nat * str) :=
  fold_left
    (fun yh '(i, col_idx) =>
       ODict.set col_idx (u "Year " ++ str_of_N (N.of_nat (i + 1))) yh)
    (imap (fun i col_idx => (i, col_idx)) cols) [].

(** Extract year identifiers from column headers: a dict from column
    index to year identifier. *)
Definition _extract_year_headers (grid : list (list cell)) (lay : layout)
  : result (list (nat * str)) :=
  let value_cols := default [] (value_cols lay) in
  let header_row_idx := default 0%nat (header_row lay) in
  year_headers ← scan_rows grid header_row_idx value_cols [0; -1; 1; -2]%Z [];
  match year_headers with
  | [] => Ok (default_years value_cols)
  | _ :: _ => Ok year_headers
  end.

End WithRuntime.

(** *** [parse_file] *)

Inductive level := DEBUG | INFO | WARNING | ERROR.

(** A call of the logger: level, format string and arguments. *)
Record log_record := {
  log_level : level;
  log_format : str;
  log_args : list frag
}.

(** A worksheet as [parse_file] sees it: its name and size, and what the
    two sheet parsers return on it. *)
Record sheet := {
  sheet_name : str;
  max_row : Z;
  max_column : Z;
  parsed_single : list (str * pyobj);              (* [_parse_sheet] *)
  parsed_multi_year : list (str * list (str * pyobj))  (* [_parse_sheet_multi_year] *)
}.

Section WithRuntime.
Context {R : Runtime}.

(** The key of the de-duplication: [label.strip().lower()]. *)
Definition dedup_key (label : str) : str := lower (strip label).

(** Single-year mode: every pair is kept; a repeated key is logged at
    debug level. *)
Fixpoint legacy_dedup (pairs : list (str * pyobj))
  (seen : gmap (list N) pyobj)
  : list (str * pyobj) * list log_record :=
  match pairs with
  | [] => ([], [])
  | (label, value) :: rest =>
      let key := dedup_key label in
      let log := match seen !! key with
                 | Some _ => [{| log_level := DEBUG;
                                 log_format := u "Duplicate label across sheets: %r";
                                 log_args := [ReprStr label] |}]
                 | None => []
                 end in
      let '(deduped, logs) := legacy_dedup rest (<[key := value]> seen) in
      ((label, value) :: deduped, log ++ logs)
  end.

(** All-years mode, the inner loop: a pair is kept when its key has not
    been seen. *)
Fixpoint dedup_from (pairs : list (str * pyobj)) (seen : gmap (list N) pyobj)
  : list (str * pyobj) :=
  match pairs with
  | [] => []
  | (label, value) :: rest =>
      let key := dedup_key label in
      match seen !! key with
      | None => (label, value) :: dedup_from rest (<[key := value]> seen)
      | Some _ => dedup_from rest seen
      end
  end.

(** All-years mode, the loop over the years. *)
Definition dedup_years (year_data : list (str * list (str * pyobj)))
  : list (str * list (str * pyobj)) * list log_record :=
  (List.map (fun '(year, pairs) => (year, dedup_from pairs ∅)) year_data,
   List.map (fun '(year, pairs) =>
               {| log_level := INFO;
                  log_format := u "Year '%s': %d unique pairs after deduplication";
                  log_args := [T year;
                               IntDec (Z.of_nat (List.length (dedup_from pairs ∅)))] |})
     year_data).

(** Merging what one sheet yields into [year_data]. *)
Fixpoint merge_sheet (name : str) (sheet_year_data : list (str * list (str * pyobj)))
  (year_data : list (str * list (str * pyobj)))
  : list (str * list (str * pyobj)) * list log_record :=
  match sheet_year_data with
  | [] => (year_data, [])
  | (year, pairs) :: rest =>
      let old := default [] (ODict.get year year_data) in
      let '(yd, logs) :=
        merge_sheet name rest (ODict.set year (old ++ pairs) year_data) in
      (yd, {| log_level := INFO;
              log_format := u "Extracted %d pairs for year '%s' from sheet '%s'";
              log_args := [IntDec (Z.of_nat (List.length pairs)); T year; T name] |}
           :: logs)
  end.

Fixpoint merge_sheets (sheets : list sheet)
  (year_data : list (str * list (str * pyobj)))
  : list (str * list (str * pyobj)) * list log_record :=
  match sheets with
  | [] => (year_data, [])
  | ws :: rest =>
      let opening :=
        {| log_level := INFO;
           log_format := u "Parsing sheet for ALL years: %s (%d rows "
                         ++ [215%N] ++ u " %d cols)";
           log_args := [T (sheet_name ws); IntDec (max_row ws);
                        IntDec (max_column ws)] |} in
      let '(yd, logs1) := merge_sheet (sheet_name ws) (parsed_multi_year ws) year_data in
      let '(yd, logs2) := merge_sheets rest yd in
      (yd, opening :: logs1 ++ logs2)
  end.

(** What [parse_file] returns: a list in single-year mode, a dict from
    year to list in all-years mode. *)
Inductive parsed :=
| SingleYear (pairs : list (str * pyobj))
| AllYears (year_data : list (str * list (str * pyobj))).

(** [parse_file] on a loaded workbook, with the log records of
    [parse_file] itself. *)
Definition parse_file (year_index : option nat) (wb : list sheet)
  : parsed * list log_record :=
  match year_index with
  | Some _ =>
      let per_sheet :=
        List.map
          (fun ws =>
             (parsed_single ws,
              [{| log_level := INFO;
                  log_format := u "Parsing sheet: %s (%d rows "
                                ++ [215%N] ++ u " %d cols)";
                  log_args := [T (sheet_name ws); IntDec (max_row ws);
                               IntDec (max_column ws)] |};
               {| log_level := INFO;
                  log_format := u "Extracted %d pairs from sheet '%s'";
                  log_args := [IntDec (Z.of_nat (List.length (parsed_single ws)));
                               T (sheet_name ws)] |}]))
          wb in
      let all_pairs := List.concat (List.map fst per_sheet) in
      let '(deduped, logs) := legacy_dedup all_pairs ∅ in
      (SingleYear deduped,
       List.concat (List.map snd per_sheet) ++ logs ++
       [{| log_level := INFO;
           log_format := u "Total extracted pairs: %d (from %d sheets)";
           log_args := [IntDec (Z.of_nat (List.length deduped));
                        IntDec (Z.of_nat (List.length wb))] |}])
  | None =>
      let '(year_data, logs1) := merge_sheets wb [] in
      let '(year_data, logs2) := dedup_years year_data in
      (AllYears year_data, logs1 ++ logs2)
  end.

End WithRuntime.
End ExcelParser.

(** ** Notions used in the statements of Part II *)

Section Notions.
Context {R : Runtime}.

(** The characters a normalised label is made of. *)
Definition plain (c : char) : bool :=
  in_range 97 122 c || in_range 48 57 c
  || (c =? 32)%N || (c =? 45)%N || (c =? 38)%N.

(** Every character is [plain] and no blank follows a blank;
    [after_space] says that a blank came just before. *)
Fixpoint single_spaced (after_space : bool) (s : str) : bool :=
  match s with
  | [] => true
  | c :: s' =>
      plain c &&
      (if is_space c then negb after_space && single_spaced true s'
       else single_spaced false s')
  end.

Definition score_of (x : list N * Q * nat) : Q := snd (fst x).

(** Best score first. *)
Definition descending (l : list (list N * Q * nat)) : Prop :=
  StronglySorted (fun x y => (score_of y <= score_of x)%Q) l.

(** A pipeline whose dictionary has the empty string as a key. *)
Definition blank_synonym_pipeline : FinancialMappingPipeline.t :=
  {| FinancialMappingPipeline._config := Config.default_PipelineConfig;
     FinancialMappingPipeline._synonyms := {[ [] := u "Net Profit" ]};
     FinancialMappingPipeline._fuzzy :=
       FuzzyMatcher.__init__ Config.default_MatchingConfig None |}.

(** A float that is NaN or infinite. *)
Definition nonfinite (f : float) : bool :=
  PrimFloat.is_nan f || PrimFloat.is_infinity f.

(** An int value within the range of [float]: [math.isnan] accepts it. *)
Definition int_fits_float (z : Z) : Prop :=
  PrimFloat.is_infinity (round_binary64 z 0) = false.

Definition value_fits_float (v : pyobj) : Prop :=
  match v with
  | PInt z => int_fits_float z
  | _ => True
  end.

(** The entries the value check adds to [errors]: one per mapping whose
    value is a NaN or infinite float, in the order of the mappings.  (An
    int is tested through its conversion to float.) *)
Definition value_errors (ms : list Schema.MappingResult) : list msg :=
  flat_map
    (fun m => match Schema.mvalue m with
              | PFloat f =>
                  if nonfinite f
                  then [Validator.nonfinite_msg m (FloatStr f)] else []
              | PInt z =>
                  match Validator.int_nonfinite z with
                  | Ok true => [Validator.nonfinite_msg m (IntDec z)]
                  | _ => []
                  end
              | _ => []
              end) ms.

(** The mappings of the failing run: a NaN next to an int beyond the
    range of [float]. *)
Definition nan_and_huge_int : list Schema.MappingResult :=
  [ {| Schema.canonical_name := u "Net Profit"; Schema.raw_label := u "PAT";
       Schema.mvalue := PFloat nan; Schema.confidence := 100;
       Schema.match_method := u "synonym"; Schema.warnings := [] |};
    {| Schema.canonical_name := u "Revenue"; Schema.raw_label := u "Sales";
       Schema.mvalue := PInt (10 ^ 400); Schema.confidence := 100;
       Schema.match_method := u "synonym"; Schema.warnings := [] |} ].

(** A value that came out of [normalize_value]: a float or [None]. *)
Definition parsed_value (m : Schema.MappingResult) : Prop :=
  exists pv, Schema.mvalue m = FinancialMappingPipeline.of_parsed pv.

(** The message of the [RuntimeError] of strict mode. *)
Definition strict_message (errors : list msg) : msg :=
  [T (u "Strict mode: pipeline produced ");
   IntDec (Z.of_nat (List.length errors));
   T (u " validation error(s):" ++ [10%N])]
  ++ join [T [10%N]] errors.

(** The run of the end-to-end example. *)
Definition profit_after_tax_run : result Schema.PipelineOutput :=
  p ← FinancialMappingPipeline.__init__ None None;
  FinancialMappingPipeline.map_dict p [(u "Profit After Tax", PInt 500000)].

(** A pipeline with one synonym. *)
Definition one_synonym_pipeline : FinancialMappingPipeline.t :=
  {| FinancialMappingPipeline._config := Config.default_PipelineConfig;
     FinancialMappingPipeline._synonyms := {[ u "pat" := u "Net Profit" ]};
     FinancialMappingPipeline._fuzzy :=
       FuzzyMatcher.__init__ Config.default_MatchingConfig None |}.

(** The pipeline that [__init__] builds without arguments. *)
Definition builtin_pipeline : FinancialMappingPipeline.t :=
  {| FinancialMappingPipeline._config := Config.default_PipelineConfig;
     FinancialMappingPipeline._synonyms :=
       fold_left
         (fun d '(variant, canonical) =>
            <[Normalizer.normalize_label variant := canonical]> d)
         SynonymMapper._BUILTIN_SYNONYMS ∅;
     FinancialMappingPipeline._fuzzy :=
       FuzzyMatcher.__init__ Config.default_MatchingConfig None |}.

(** The run of the failing example: a dict whose value is the int
    10^400, on a pipeline with the default (non-strict) configuration. *)
Definition huge_int_run : result Schema.PipelineOutput :=
  p ← FinancialMappingPipeline.__init__ None None;
  FinancialMappingPipeline.map_dict p [(u "Revenue", PInt (10 ^ 400))].

(** The rupee sign, U+20B9, followed by [12,000]. *)
Definition rupee_12000 : list N := 8377%N :: u "12,000".

Definition year_label (i : nat) : list N :=
  u "Year " ++ str_of_N (N.of_nat (i + 1)).

(** No cell that the scan reads yields a year: the rows at the offsets
    0, -1, 1, -2 from the header row, at the value columns. *)
Definition no_year_found (grid : list (list ExcelParser.cell))
  (header_row_idx : nat) (cols : list nat) : Prop :=
  forall row_offset row col_idx c,
    In row_offset [0; -1; 1; -2]%Z ->
    (0 <= Z.of_nat header_row_idx + row_offset)%Z ->
    grid !! Z.to_nat (Z.of_nat header_row_idx + row_offset) = Some row ->
    In col_idx cols ->
    row !! col_idx = Some c ->
    ExcelParser._extract_year_from_header c = Ok None.

Definition pair_key (p : list N * pyobj) : list N := ExcelParser.dedup_key (fst p).

(** The first pair of [l] whose key is [k]. *)
Definition first_with_key (k : list N) (l : list (list N * pyobj))
  : option (list N * pyobj) :=
  List.find (fun p => str_eqb (pair_key p) k) l.

(** A workbook with one sheet, on which the label [Cash] comes twice for
    the year 2025 (the second time with other case and blanks). *)
Definition cash_twice : list ExcelParser.sheet :=
  [ {| ExcelParser.sheet_name := u "Sheet1";
       ExcelParser.max_row := 4; ExcelParser.max_column := 2;
       ExcelParser.parsed_single := [];
       ExcelParser.parsed_multi_year :=
         [(u "2025", [(u "Cash", PFloat 1); (u " cash ", PFloat 2);
                      (u "Bank", PFloat 3)])] |} ].

(** A workbook with one sheet whose single-year parse gives the label
    [Cash] twice (the second time in lower case). *)
Definition cash_and_cash : list ExcelParser.sheet :=
  [ {| ExcelParser.sheet_name := u "Sheet1";
       ExcelParser.max_row := 3; ExcelParser.max_column := 2;
       ExcelParser.parsed_single := [(u "Cash", PFloat 1); (u "cash", PFloat 2)];
       ExcelParser.parsed_multi_year := [] |} ].

End Notions.

(* ===================================================================== *)
(** * Part I, continued. More of the code                                 *)
(* ===================================================================== *)

(** ** schema.py: the views of the data models *)

Module SchemaViews.

(** [MappingResult.is_confident] *)
Definition is_confident (m : Schema.MappingResult) : bool :=
  (List.length (Schema.warnings m) =? 0)%nat.

(** [PipelineOutput.mapped_dict]: the dict comprehension
    [{m.canonical_name: m.value for m in self.mappings}]. *)
Definition mapped_dict (o : Schema.PipelineOutput) : list (str * pyobj) :=
  fold_left
    (fun d m => ODict.set (Schema.canonical_name m) (Schema.mvalue m) d)
    (Schema.mappings o) [].

End SchemaViews.

(** ** excel_parser.py: the classification of cells and the generic
    layout *)

Module ExcelCells.

Import ExcelParser.

(** [s[1:-1]] *)
Definition strip_ends (s : str) : str := removelast (tl s).

Section WithRuntime.
Context {R : Runtime}.

(** The text that the three classifiers hand to [float]: commas, rupee
    signs and dollar signs removed, one pair of enclosing parentheses
    taken off; the flag tells that there was such a pair. *)
Definition unwrap (cleaned : str) : str * bool :=
  if startswith (u "(") cleaned && endswith (u ")") cleaned
  then (strip_ends cleaned, true)
  else (cleaned, false).

Definition without_separators (s : str) : str :=
  replace (u "$") [] (replace [8377%N] [] (replace (u ",") [] s)).

(** Check if a value is numeric (int, float) and not a date. *)
Definition _is_numeric (val : cell) : bool :=
  match val with
  | CVal (PInt _) | CVal (PFloat _) => true
  | CDatetime _ _ _ => false
  | CVal (PStr s) =>
      let cleaned := without_separators (strip s) in
      match float_of_str (fst (unwrap cleaned)) with
      | Some _ => true
      | None => false
      end
  | CVal _ => false
  end.

(** Convert a value to a float, returning None if not possible. *)
Definition _to_number (val : cell) : result (option float) :=
  match val with
  | CVal PNone => Ok None
  | CVal (PInt z) => f ← float_of_int z; Ok (Some f)
  | CVal (PFloat f) => Ok (Some f)
  | CDatetime _ _ _ => Ok None
  | CVal (PStr s) =>
      let cleaned := without_separators (strip s) in
      let '(cleaned, neg) := unwrap cleaned in
      match float_of_str cleaned with
      | Some result => Ok (Some (if neg then PrimFloat.opp result else result))
      | None => Ok None
      end
  | CVal (POther _ _) => Ok None
  end.

(** Check if a value looks like a text label (not a number/date). *)
Definition _is_label (val : cell) : bool :=
  match val with
  | CVal PNone => false
  | CDatetime _ _ _ => false
  | CVal (PInt _) | CVal (PFloat _) => false
  | CVal (PStr val) =>
      let s := strip val in
      match s with
      | [] => false
      | _ :: _ =>
          let cleaned := without_separators s in
          match float_of_str (fst (unwrap cleaned)) with
          | Some _ => false
          | None => true
          end
      end
  | CVal (POther _ _) => false
  end.

(** [counts[j] += 1] *)
Definition bump (j : nat) (counts : list nat) : list nat := alter S j counts.

(** The two counters after one row; [j < max_cols] guards each cell. *)
Fixpoint count_row (max_cols : nat) (j : nat) (row : list cell)
  (counts : list nat * list nat) : list nat * list nat :=
  match row with
  | [] => counts
  | c :: rest =>
      let '(col_label_count, col_num_count) := counts in
      let counts :=
        if (j <? max_cols)%nat
        then if _is_label c then (bump j col_label_count, col_num_count)
             else if _is_numeric c then (col_label_count, bump j col_num_count)
             else counts
        else counts in
      count_row max_cols (S j) rest counts
  end.

(** [l.index(max(l))] of a non-empty list: the first position of the
    greatest element. *)
Definition index_of_max (l : list nat) : nat :=
  let m := fold_right Nat.max 0%nat l in
  default 0%nat (fst <$> list_find (fun x => x = m) l).

(** The layout dict of the generic detection. *)
Record generic_layout := {
  gl_type : str;
  label_col : nat;
  value_cols : list nat
}.

(** Detect generic two-column layout. *)
Definition _detect_generic_columns (grid : list (list cell)) : generic_layout :=
  let max_cols := fold_right Nat.max 0%nat (List.map (@List.length cell) grid) in
  let '(col_label_count, col_num_count) :=
    fold_left (fun counts row => count_row max_cols 0 row counts) grid
      (List.repeat 0%nat max_cols, List.repeat 0%nat max_cols) in
  let label_col :=
    match col_label_count with
    | [] => 0%nat
    | _ :: _ => index_of_max col_label_count
    end in
  let value_cols :=
    List.filter
      (fun j => (2 <? default 0%nat (col_num_count !! j))%nat
                && negb (j =? label_col)%nat)
      (seq 0 max_cols) in
  let value_cols :=
    match value_cols with
    | [] => if (label_col + 1 <? max_cols)%nat then [(label_col + 1)%nat]
            else [label_col]
    | _ :: _ => value_cols
    end in
  {| gl_type := u "generic"; label_col := label_col; value_cols := value_cols |}.

End WithRuntime.
End ExcelCells.

(** ** Notions used in the statements of Part II, continued *)

Section MoreNotions.
Context {R : Runtime}.

(** Every value of the dictionary is a canonical name. *)
Definition all_canonical (d : gmap (list N) (list N)) : Prop :=
  forall k v, d !! k = Some v -> Schema.canonical_name_in v = true.

(** The dictionary of a mapper built without extra synonyms. *)
Definition builtin_dict : gmap (list N) (list N) :=
  FinancialMappingPipeline._synonyms builtin_pipeline.

(** The run on a dict with the one label [Current Borrowings]. *)
Definition current_borrowings_run : result Schema.PipelineOutput :=
  p ← FinancialMappingPipeline.__init__ None None;
  FinancialMappingPipeline.map_dict p [(u "Current Borrowings", PInt 1)].


End MoreNotions.

(** *** The validator *)

(** The message of the duplicate check for a mapping [m] whose canonical
    name was first reached from the label [first]. *)
Definition duplicate_msg (first : list N) (m : Schema.MappingResult) : msg :=
  [T (u "Duplicate canonical mapping '"); T (Schema.canonical_name m);
   T (u "': first from '"); T first;
   T (u "', again from '"); T (Schema.raw_label m); T (u "'")].

(** The first of the mappings [before] with the canonical name [name]. *)
Definition first_named (name : list N) (before : list Schema.MappingResult)
  : option Schema.MappingResult :=
  List.find (fun m' => str_eqb (Schema.canonical_name m') name) before.

(** One message for each mapping of [ms] whose canonical name an earlier
    mapping has (of [before] or of [ms]); the message names the raw label
    of the first mapping with that name. *)
Fixpoint duplicate_msgs (before ms : list Schema.MappingResult) : list msg :=
  match ms with
  | [] => []
  | m :: rest =>
      match first_named (Schema.canonical_name m) before with
      | Some first => [duplicate_msg (Schema.raw_label first) m]
      | None => []
      end ++ duplicate_msgs (before ++ [m]) rest
  end.

(** The required fields that no mapping has, in the order of the
    configuration. *)
Definition missing_required (cfg : Config.ValidationConfig)
  (ms : list Schema.MappingResult) : list (list N) :=
  List.filter
    (fun req => negb (existsb (str_eqb req) (List.map Schema.canonical_name ms)))
    (Config.required_fields cfg).

Definition missing_msg (req : list N) : msg :=
  [T (u "Required field missing: '"); T req; T (u "'")].

(** *** The pipeline *)

Section PipelineNotions.
Context {R : Runtime}.

(** What the synonym layer and the fuzzy layer say about a raw label. *)
Definition synonym_of (self : FinancialMappingPipeline.t) (label : list N)
  : option (list N) :=
  SynonymMapper.lookup (FinancialMappingPipeline._synonyms self)
    (Normalizer.normalize_label label).

Definition fuzzy_of (self : FinancialMappingPipeline.t) (label : list N)
  : result (option FuzzyMatcher.FuzzyCandidate) :=
  FuzzyMatcher.match_ (FinancialMappingPipeline._fuzzy self)
    (Normalizer.normalize_label label).

(** A mapping that the synonym layer made. *)
Definition from_synonym (self : FinancialMappingPipeline.t)
  (m : Schema.MappingResult) : Prop :=
  Schema.match_method m = u "synonym" /\
  Schema.confidence m = 100%Q /\
  synonym_of self (Schema.raw_label m) = Some (Schema.canonical_name m).

(** A mapping that the fuzzy layer made, after the synonym layer found
    nothing. *)
Definition from_fuzzy (self : FinancialMappingPipeline.t)
  (m : Schema.MappingResult) : Prop :=
  Schema.match_method m = u "fuzzy" /\
  synonym_of self (Schema.raw_label m) = None /\
  exists c,
    fuzzy_of self (Schema.raw_label m) = Ok (Some c) /\
    Schema.canonical_name m = FuzzyMatcher.canonical_name c /\
    Schema.confidence m = FuzzyMatcher.score c.

(** A label that neither layer maps. *)
Definition unmatched (self : FinancialMappingPipeline.t) (label : list N) : Prop :=
  synonym_of self label = None /\ fuzzy_of self label = Ok None.

(** The value of a mapping is what [normalize_value] makes of a raw value
    that came with the mapping's raw label. *)
Definition value_from (pairs : list (list N * pyobj)) (m : Schema.MappingResult)
  : Prop :=
  exists raw pv ws,
    In (Schema.raw_label m, raw) pairs /\
    Normalizer.normalize_value raw = Ok (pv, ws) /\
    Schema.mvalue m = FinancialMappingPipeline.of_parsed pv.

(** The pairs of a run sorted into mappings and unmapped pairs, in order. *)
Inductive classified (self : FinancialMappingPipeline.t)
  : list (list N * pyobj) -> list Schema.MappingResult ->
    list (list N * pyobj) -> Prop :=
| classified_nil : classified self [] [] []
| classified_mapped label raw pv ws m pairs ms um :
    Schema.raw_label m = label ->
    Normalizer.normalize_value raw = Ok (pv, ws) ->
    Schema.mvalue m = FinancialMappingPipeline.of_parsed pv ->
    from_synonym self m \/ from_fuzzy self m ->
    classified self pairs ms um ->
    classified self ((label, raw) :: pairs) (m :: ms) um
| classified_unmapped label raw pairs ms um :
    unmatched self label ->
    classified self pairs ms um ->
    classified self ((label, raw) :: pairs) ms ((label, raw) :: um).

(** The pipeline with the flag [enable_semantic_layer] set to [b]. *)
Definition with_semantic_layer (b : bool) (self : FinancialMappingPipeline.t)
  : FinancialMappingPipeline.t :=
  let cfg := FinancialMappingPipeline._config self in
  {| FinancialMappingPipeline._config :=
       {| Config.matching := Config.matching cfg;
          Config.validation := Config.validation cfg;
          Config.log_level := Config.log_level cfg;
          Config.custom_synonym_path := Config.custom_synonym_path cfg;
          Config.enable_semantic_layer := b |};
     FinancialMappingPipeline._synonyms := FinancialMappingPipeline._synonyms self;
     FinancialMappingPipeline._fuzzy := FinancialMappingPipeline._fuzzy self |}.

(** The default matching configuration with the threshold lowered to 0,
    so that the best target of the pool is always a candidate. *)
Definition accept_all_MatchingConfig : Config.MatchingConfig :=
  {| Config.fuzzy_threshold := 0; Config.fuzzy_ambiguity_delta := 5;
     Config.semantic_threshold := 85 # 100; Config.strict_mode := false |}.

(** A canonical name, or the one built-in target that is none. *)
Definition known_target (name : list N) : Prop :=
  Schema.canonical_name_in name = true \/ name = u "Short-term Borrowings".

End PipelineNotions.

(** *** The Excel parser *)

Section ExcelNotions.
Context {R : Runtime}.

(** The widest row of a grid. *)
Definition width (grid : list (list ExcelParser.cell)) : nat :=
  fold_right Nat.max 0%nat (List.map (@List.length ExcelParser.cell) grid).

(** The number of rows with a label, or with a number, in column [j]. *)
Definition cell_is (p : ExcelParser.cell -> bool) (j : nat)
  (row : list ExcelParser.cell) : bool :=
  match row !! j with
  | Some c => p c
  | None => false
  end.

(** One for a cell that counts, zero for one that does not. *)
Definition hit (b : bool) : nat := if b then 1%nat else 0%nat.

Definition labels_in (grid : list (list ExcelParser.cell)) (j : nat) : nat :=
  List.length (List.filter (cell_is ExcelCells._is_label j) grid).

Definition numbers_in (grid : list (list ExcelParser.cell)) (j : nat) : nat :=
  List.length (List.filter (cell_is ExcelCells._is_numeric j) grid).

(** Everything the sheets give for a year, in the order of the sheets. *)
Definition pairs_of_year (year : list N) (wb : list ExcelParser.sheet)
  : list (list N * pyobj) :=
  List.concat
    (List.map
       (fun ws =>
          List.concat
            (List.map snd
               (List.filter (fun yp => str_eqb (fst yp) year)
                  (ExcelParser.parsed_multi_year ws))))
       wb).

(** The years the sheets name. *)
Definition years_of (wb : list ExcelParser.sheet) : list (list N) :=
  List.concat
    (List.map (fun ws => List.map fst (ExcelParser.parsed_multi_year ws)) wb).

End ExcelNotions.

Section YearNotions.
Context {R : Runtime}.


End YearNotions.

(** *** Duplicate warnings of the pipeline *)

(** The warning [_build_result] adds to a mapping whose canonical name
    was reached before, from the label [prev]. *)
Definition duplicate_warning (name prev raw : list N) : msg :=
  [T (u "Duplicate mapping to '"); T name;
   T (u "': previously mapped from '"); T prev;
   T (u "', now also from '"); T raw; T (u "'")].

Definition has_duplicate_warning (m : Schema.MappingResult) : Prop :=
  exists prev,
    In (duplicate_warning (Schema.canonical_name m) prev (Schema.raw_label m))
       (Schema.warnings m).

(** A message that is no duplicate warning. *)
Definition other_warning (w : msg) : Prop :=
  forall name prev raw, w <> duplicate_warning name prev raw.

(** The mappings [ms], coming after the mappings [before], carry the
    duplicate warning where an earlier mapping has their name, as the
    last warning, and nowhere else. *)
Fixpoint duplicates_marked (before ms : list Schema.MappingResult) : Prop :=
  match ms with
  | [] => True
  | m :: rest =>
      (exists ws0,
         Forall other_warning ws0 /\
         Schema.warnings m
         = ws0 ++ match first_named (Schema.canonical_name m) before with
                  | Some first =>
                      [duplicate_warning (Schema.canonical_name m)
                         (Schema.raw_label first) (Schema.raw_label m)]
                  | None => []
                  end) /\
      duplicates_marked (before ++ [m]) rest
  end.

(* ===================================================================== *)
(** * Part II. Properties                                                 *)
(* ===================================================================== *)

(** ** Characters and whitespace *)

(** Boolean tests on code points, read as arithmetic. *)
Ltac char_arith :=
  unfold Normalizer.kept_by_PUNCT_RE, is_space, is_ascii, ascii_lower_char,
    in_range in *;
  repeat rewrite ?orb_true_iff, ?andb_true_iff, ?orb_false_iff,
    ?andb_false_iff, ?N.leb_le, ?N.leb_gt, ?N.eqb_eq, ?N.eqb_neq,
    ?N.ltb_lt, ?N.ltb_ge in *;
  try lia.

Lemma kept_space_is_plain c :
  Normalizer.kept_by_PUNCT_RE c = true -> is_space c = false -> plain c = true.
Proof. unfold plain. char_arith. Qed.

Lemma plain_space c : plain c = true -> is_space c = true -> c = 32%N.
Proof. unfold plain. char_arith. Qed.

Lemma plain_kept c : plain c = true -> Normalizer.kept_by_PUNCT_RE c = true.
Proof. unfold plain. char_arith. Qed.

Lemma plain_ascii_lower c :
  plain c = true -> is_ascii c = true /\ ascii_lower_char c = c.
Proof.
  unfold plain, ascii_lower_char. intros H.
  destruct (in_range 65 90 c) eqn:E; revert H E; char_arith.
Qed.

Lemma plain_not_226 c : plain c = true -> c <> 226%N.
Proof. unfold plain. char_arith. Qed.

(** ** [strip] *)

Lemma lstrip_head s :
  match lstrip s with [] => True | c :: _ => is_space c = false end.
Proof.
  induction s as [|c s IH]; simpl; auto.
  destruct (is_space c) eqn:E; auto.
Qed.

Lemma lstrip_fixed c s : is_space c = false -> lstrip (c :: s) = c :: s.
Proof. intros H. simpl. rewrite H. reflexivity. Qed.

Lemma rstrip_cons c s :
  rstrip (c :: s) =
  match rstrip s with
  | [] => if is_space c then [] else [c]
  | _ :: _ => c :: rstrip s
  end.
Proof. reflexivity. Qed.

Lemma rstrip_idem s : rstrip (rstrip s) = rstrip s.
Proof.
  induction s as [|c s IH]; auto.
  rewrite rstrip_cons. destruct (rstrip s) as [|x r] eqn:E.
  - destruct (is_space c) eqn:Ec; auto. rewrite rstrip_cons. simpl.
    rewrite Ec. reflexivity.
  - rewrite rstrip_cons, IH. reflexivity.
Qed.

Lemma rstrip_keeps_head c s :
  is_space c = false -> exists r, rstrip (c :: s) = c :: r.
Proof.
  intros H. rewrite rstrip_cons. destruct (rstrip s); rewrite ?H; eauto.
Qed.

Lemma strip_idem s : strip (strip s) = strip s.
Proof.
  unfold strip. pose proof (lstrip_head s) as Hh.
  destruct (lstrip s) as [|c t] eqn:E; auto.
  destruct (rstrip_keeps_head c t Hh) as [r Hr]. rewrite Hr.
  rewrite lstrip_fixed by exact Hh. rewrite <- Hr. apply rstrip_idem.
Qed.

(** ** Shape of a normalised label *)

Lemma single_spaced_plain b s : single_spaced b s = true -> Forall (fun c => plain c = true) s.
Proof.
  revert b. induction s as [|c s IH]; intros b H; constructor;
    simpl in H; apply andb_true_iff in H; destruct H as [Hp H]; auto.
  destruct (is_space c); [apply andb_true_iff in H; destruct H|]; eauto.
Qed.

Lemma collapse_single_spaced b s :
  Forall (fun c => Normalizer.kept_by_PUNCT_RE c = true) s ->
  single_spaced b (Normalizer.collapse_from b s) = true.
Proof.
  intros H. revert b. induction H as [|c s Hc Hs IH]; intros b; simpl; auto.
  destruct (is_space c) eqn:E.
  - destruct b; auto. simpl. rewrite IH. reflexivity.
  - simpl. rewrite E, IH, (kept_space_is_plain c Hc E). reflexivity.
Qed.

Lemma single_spaced_weaken b s :
  single_spaced b s = true -> single_spaced false s = true.
Proof.
  destruct s as [|c s]; simpl; auto. destruct (is_space c); auto.
  rewrite !andb_true_iff. intuition.
Qed.

Lemma lstrip_single_spaced b s :
  single_spaced b s = true -> single_spaced false (lstrip s) = true.
Proof.
  revert b. induction s as [|c s IH]; intros b H; auto.
  simpl. destruct (is_space c) eqn:E.
  - simpl in H. rewrite E in H. rewrite !andb_true_iff in H. apply (IH true), H.
  - eapply single_spaced_weaken, H.
Qed.

Lemma single_spaced_cons b c s :
  single_spaced b (c :: s) =
  plain c && (if is_space c then negb b && single_spaced true s
              else single_spaced false s).
Proof. reflexivity. Qed.

Lemma rstrip_single_spaced b s :
  single_spaced b s = true -> single_spaced b (rstrip s) = true.
Proof.
  revert b. induction s as [|c s IH]; intros b H; auto.
  rewrite rstrip_cons. rewrite single_spaced_cons in H.
  apply andb_true_iff in H. destruct H as [Hp H].
  destruct (is_space c) eqn:E.
  - apply andb_true_iff in H. destruct H as [Hb H]. apply IH in H.
    destruct (rstrip s) eqn:Er; auto.
    rewrite single_spaced_cons, Hp, E, Hb, H. reflexivity.
  - apply IH in H. destruct (rstrip s) eqn:Er.
    + rewrite single_spaced_cons, Hp, E. reflexivity.
    + rewrite single_spaced_cons, Hp, E, H. reflexivity.
Qed.

Lemma collapse_fixed b s :
  single_spaced b s = true -> Normalizer.collapse_from b s = s.
Proof.
  revert b. induction s as [|c s IH]; intros b H; auto.
  simpl in *. apply andb_true_iff in H. destruct H as [Hp H].
  destruct (is_space c) eqn:E.
  - apply andb_true_iff in H. destruct H as [Hb H].
    apply negb_true_iff in Hb. subst b.
    rewrite (IH true H), (plain_space c Hp E). reflexivity.
  - rewrite (IH false H). reflexivity.
Qed.

Lemma replace_absent old new s :
  Forall (fun c => c <> 226%N) s ->
  replace (226%N :: old) new s = s.
Proof.
  unfold replace. induction 1 as [|c s Hc Hs IH]; auto.
  cbn [replace_from startswith].
  destruct (N.eqb_spec 226 c) as [E|_]; [congruence|].
  simpl. rewrite IH. reflexivity.
Qed.

Lemma filter_fixed (p : char -> bool) s :
  Forall (fun c => p c = true) s -> List.filter p s = s.
Proof.
  induction 1 as [|c s Hc Hs IH]; simpl; auto. rewrite Hc, IH. reflexivity.
Qed.

Section NormalizerFacts.
Context {R : Runtime}.

Lemma lower_plain s : Forall (fun c => plain c = true) s -> lower s = s.
Proof.
  intros H. unfold lower.
  assert (forallb is_ascii s = true) as ->.
  { induction H as [|c s Hc Hs IH]; simpl; auto.
    rewrite (proj1 (plain_ascii_lower c Hc)). exact IH. }
  induction H as [|c s Hc Hs IH]; simpl; auto.
  rewrite (proj2 (plain_ascii_lower c Hc)), IH. reflexivity.
Qed.

(** What [normalize_label] returns: plain characters, single blanks, no
    blank at either end. *)
Lemma normalize_label_shape raw :
  single_spaced false (Normalizer.normalize_label raw) = true /\
  strip (Normalizer.normalize_label raw) = Normalizer.normalize_label raw.
Proof.
  unfold Normalizer.normalize_label, Normalizer._MULTI_SPACE_RE_sub. split.
  - unfold strip. apply rstrip_single_spaced.
    eapply lstrip_single_spaced, collapse_single_spaced.
    apply List.Forall_forall. intros c Hc. apply List.filter_In in Hc. apply Hc.
  - apply strip_idem.
Qed.

Lemma normalize_label_fixed t :
  single_spaced false t = true -> strip t = t -> Normalizer.normalize_label t = t.
Proof.
  intros Hs Hst. pose proof (single_spaced_plain _ _ Hs) as Hp.
  unfold Normalizer.normalize_label, Normalizer._MULTI_SPACE_RE_sub.
  rewrite Hst, (lower_plain t Hp).
  assert (Forall (fun c => c <> 226%N) t) as H226.
  { eapply List.Forall_impl; [|exact Hp]. intros c. apply plain_not_226. }
  rewrite (replace_absent _ _ t H226), (replace_absent _ _ t H226).
  rewrite filter_fixed.
  - rewrite (collapse_fixed false t Hs). exact Hst.
  - eapply List.Forall_impl; [|exact Hp]. intros c. apply plain_kept.
Qed.

(** C7. [normalize_label] is idempotent: normalising an already normalised
    label changes nothing, for every input string. *)
Theorem normalize_label_idempotent (s : str) :
  Normalizer.normalize_label (Normalizer.normalize_label s)
  = Normalizer.normalize_label s.
Proof.
  destruct (normalize_label_shape s) as [Hs Hst].
  apply normalize_label_fixed; assumption.
Qed.

End NormalizerFacts.

(** ** Ordered dicts *)

Lemma odict_get_key {V} (k : list N) (d : list (list N * V)) :
  In k (ODict.keys d) -> exists v, ODict.get k d = Some v.
Proof.
  induction d as [|[k' v'] d IH]; simpl; [tauto|].
  destruct (decide (k = k')); eauto.
  intros [E|H]; [congruence|auto].
Qed.

(** ** Scores *)

Lemma Qltb_true a b : FuzzyMatcher.Qltb a b = true <-> (a < b)%Q.
Proof.
  unfold FuzzyMatcher.Qltb. rewrite negb_true_iff. split.
  - intros H. apply Qnot_le_lt. intros Hle.
    apply Qle_bool_iff in Hle. congruence.
  - intros H. destruct (Qle_bool b a) eqn:E; auto.
    apply Qle_bool_iff in E. exfalso. exact (Qlt_not_le _ _ H E).
Qed.

Lemma Qltb_false a b : FuzzyMatcher.Qltb a b = false <-> (b <= a)%Q.
Proof.
  unfold FuzzyMatcher.Qltb. rewrite negb_false_iff. apply Qle_bool_iff.
Qed.

Section FuzzyFacts.
Context {R : Runtime}.

Lemma insert_by_score_perm x l :
  Permutation (FuzzyMatcher.insert_by_score x l) (x :: l).
Proof.
  induction l as [|y l IH]; simpl; auto.
  destruct (FuzzyMatcher.Qltb _ _); auto.
  rewrite IH. apply perm_swap.
Qed.

Lemma insert_by_score_descending x l :
  descending l -> descending (FuzzyMatcher.insert_by_score x l).
Proof.
  unfold descending. induction 1 as [|y l Hl IH Hy]; simpl.
  - repeat constructor.
  - destruct (FuzzyMatcher.Qltb (snd (fst x)) (snd (fst y))) eqn:E.
    + constructor; auto.
      apply List.Forall_forall. intros z Hz.
      apply (Permutation_in _ (insert_by_score_perm x l)) in Hz.
      destruct Hz as [<-|Hz].
      * apply Qlt_le_weak, Qltb_true, E.
      * revert z Hz. apply List.Forall_forall, Hy.
    + apply Qltb_false in E. constructor; [constructor; auto|].
      constructor; [exact E|].
      eapply List.Forall_impl; [|exact Hy]. intros z Hz.
      eapply Qle_trans; [exact Hz|exact E].
Qed.

Lemma sort_by_score_perm l :
  Permutation (fold_right FuzzyMatcher.insert_by_score [] l) l.
Proof.
  induction l as [|x l IH]; simpl; auto.
  rewrite insert_by_score_perm. auto.
Qed.

Lemma sort_by_score_descending l :
  descending (fold_right FuzzyMatcher.insert_by_score [] l).
Proof.
  induction l as [|x l IH]; simpl.
  - constructor.
  - apply insert_by_score_descending, IH.
Qed.

(** The first result of [process.extract] is a choice with its score, and
    no choice scores higher. *)
Lemma extract_head query choices n key s i rest :
  FuzzyMatcher.extract query choices (S n) = (key, s, i) :: rest ->
  In key choices /\ s = token_sort_ratio query key /\
  forall k, In k choices -> (token_sort_ratio query k <= s)%Q.
Proof.
  unfold FuzzyMatcher.extract.
  set (scored := imap (fun i c => (c, token_sort_ratio query c, i)) choices).
  pose proof (sort_by_score_perm scored) as Hperm.
  pose proof (sort_by_score_descending scored) as Hdesc.
  destruct (fold_right FuzzyMatcher.insert_by_score [] scored) as [|x sorted] eqn:E;
    [discriminate|].
  simpl. intros Heq. injection Heq as -> _.
  assert (Hin : forall y, In y scored ->
                  exists c, In c choices /\ y = (c, token_sort_ratio query c, snd y)).
  { intros y Hy. apply list_elem_of_In, elem_of_lookup_imap in Hy.
    destruct Hy as (j & c & -> & Hc). exists c. split; auto.
    apply list_elem_of_In. eapply list_elem_of_lookup_2, Hc. }
  assert (Hall : forall k, In k choices ->
                   exists j, In (k, token_sort_ratio query k, j) scored).
  { intros k Hk. apply list_elem_of_In, list_elem_of_lookup in Hk.
    destruct Hk as [j Hj]. exists j. apply list_elem_of_In, elem_of_lookup_imap.
    exists j, k. auto. }
  destruct (Hin (key, s, i)) as (c & Hc & Heq).
  { apply (Permutation_in _ Hperm). left; reflexivity. }
  injection Heq as -> ->. split; [exact Hc|]. split; [reflexivity|].
  intros k Hk. destruct (Hall k Hk) as [j Hj].
  apply (Permutation_in _ (Permutation_sym Hperm)) in Hj.
  destruct Hj as [Hj|Hj].
  - injection Hj as -> _. apply Qle_refl.
  - inversion Hdesc as [|? ? _ Hfa]; subst.
    apply (proj1 (List.Forall_forall _ _) Hfa) in Hj. exact Hj.
Qed.

(** C10. [match] on the empty string returns [None] whatever the matcher
    holds (any configuration, any target pool), and so a pair whose
    normalised label is empty is never mapped by the fuzzy layer: if
    [_map_single] maps it at all, the method is not [fuzzy]. *)
Theorem empty_label_never_fuzzy :
  (forall self : FuzzyMatcher.t, FuzzyMatcher.match_ self [] = Ok None) /\
  (forall cfg extra,
     FuzzyMatcher.match_ (FuzzyMatcher.__init__ cfg extra) [] = Ok None) /\
  (forall (self : FinancialMappingPipeline.t) raw_label raw_value seen r seen',
     Normalizer.normalize_label raw_label = [] ->
     FinancialMappingPipeline._map_single self raw_label raw_value seen
       = Ok (Some r, seen') ->
     Schema.match_method r = u "synonym" /\ Schema.match_method r <> u "fuzzy").
Proof.
  split; [reflexivity|]. split; [reflexivity|].
  intros self raw_label raw_value seen r seen' Hnorm.
  unfold FinancialMappingPipeline._map_single, Normalizer.normalize_pair.
  rewrite Hnorm.
  destruct (Normalizer.normalize_value raw_value) as [[value ws]|e]; simpl;
    [|discriminate].
  destruct (SynonymMapper.lookup _ _) as [canonical|].
  - unfold FinancialMappingPipeline._build_result.
    destruct (seen !! canonical); intros H; injection H as <- _; simpl;
      (split; [reflexivity|discriminate]).
  - destruct (Config.enable_semantic_layer _); simpl; discriminate.
Qed.

(** What [match] does on a matcher built by [__init__]. *)
Lemma fuzzy_match_cases cfg extra label :
  let self := FuzzyMatcher.__init__ cfg extra in
  (exists r, FuzzyMatcher.match_ self label = Ok r) /\
  (forall c, FuzzyMatcher.match_ self label = Ok (Some c) ->
     (Config.fuzzy_threshold cfg <= FuzzyMatcher.score c)%Q /\
     (exists key, In key (FuzzyMatcher._target_keys self) /\
        FuzzyMatcher.score c = token_sort_ratio label key /\
        ODict.get key (FuzzyMatcher._targets self)
          = Some (FuzzyMatcher.canonical_name c)) /\
     (forall key, In key (FuzzyMatcher._target_keys self) ->
        (token_sort_ratio label key <= FuzzyMatcher.score c)%Q)) /\
  (forall best,
     (forall key, In key (FuzzyMatcher._target_keys self) ->
        (token_sort_ratio label key <= best)%Q) ->
     (best < Config.fuzzy_threshold cfg)%Q ->
     FuzzyMatcher.match_ self label = Ok None).
Proof.
  intros self. unfold FuzzyMatcher.match_.
  destruct label as [|ch label]; [repeat split; eauto; discriminate|].
  destruct (FuzzyMatcher.extract (ch :: label) (FuzzyMatcher._target_keys self) 5)
    as [|[[key s] i] rest] eqn:E; [repeat split; eauto; discriminate|].
  destruct (extract_head _ _ _ _ _ _ _ E) as (Hkey & Hs & Hmax).
  change (Config.fuzzy_threshold (FuzzyMatcher._config self))
    with (Config.fuzzy_threshold cfg).
  destruct (odict_get_key key (FuzzyMatcher._targets self)) as [canonical Hget].
  { exact Hkey. }
  rewrite Hget.
  destruct (FuzzyMatcher.Qltb s (Config.fuzzy_threshold cfg)) eqn:Ethr.
  - repeat split; eauto; discriminate.
  - apply Qltb_false in Ethr. split; [eauto|]. split.
    + intros c Hc. injection Hc as <-. simpl. split; [exact Ethr|].
      split; [exists key; auto|exact Hmax].
    + intros best Hbest Hlt. exfalso.
      apply (Qlt_not_le _ _ Hlt). eapply Qle_trans; [exact Ethr|].
      rewrite Hs. apply Hbest, Hkey.
Qed.

(** C6. For a matcher built from any configuration and any extra
    targets, [match] never raises; a candidate it returns scores at least
    [fuzzy_threshold], is the entry of a target of the pool and no target
    scores higher; and when the best score over the pool is below the
    threshold, the result is [None]. *)
Theorem fuzzy_match_respects_threshold cfg extra label :
  let self := FuzzyMatcher.__init__ cfg extra in
  (exists r, FuzzyMatcher.match_ self label = Ok r) /\
  (forall c, FuzzyMatcher.match_ self label = Ok (Some c) ->
     (Config.fuzzy_threshold cfg <= FuzzyMatcher.score c)%Q /\
     (exists key, In key (FuzzyMatcher._target_keys self) /\
        FuzzyMatcher.score c = token_sort_ratio label key /\
        ODict.get key (FuzzyMatcher._targets self)
          = Some (FuzzyMatcher.canonical_name c)) /\
     (forall key, In key (FuzzyMatcher._target_keys self) ->
        (token_sort_ratio label key <= FuzzyMatcher.score c)%Q)) /\
  (forall best,
     (forall key, In key (FuzzyMatcher._target_keys self) ->
        (token_sort_ratio label key <= best)%Q) ->
     (best < Config.fuzzy_threshold cfg)%Q ->
     FuzzyMatcher.match_ self label = Ok None).
Proof. exact (fuzzy_match_cases cfg extra label). Qed.

End FuzzyFacts.

Lemma fuzzy_match_respects_threshold_witness :
  exists c,
    FuzzyMatcher.match_ (R := ascii_runtime)
      (FuzzyMatcher.__init__ (R := ascii_runtime)
         Config.default_MatchingConfig None)
      (u "net profit") = Ok (Some c) /\
    (80 <= FuzzyMatcher.score c)%Q.
Proof.
  destruct (FuzzyMatcher.match_ (R := ascii_runtime)
              (FuzzyMatcher.__init__ (R := ascii_runtime)
                 Config.default_MatchingConfig None)
              (u "net profit")) as [[c|]|e] eqn:E;
    try (exfalso; vm_compute in E; discriminate).
  exists c. split; [reflexivity|].
  apply (proj1 (proj2 (fuzzy_match_respects_threshold (R := ascii_runtime)
                         Config.default_MatchingConfig None (u "net profit")))
           c E).
Defined.

Lemma empty_label_never_fuzzy_witness :
  in_every_runtime (fun R =>
    exists r seen',
      FinancialMappingPipeline._map_single blank_synonym_pipeline
        (u "(!)") PNone ∅ = Ok (Some r, seen') /\
      Schema.match_method r <> u "fuzzy").
Proof.
  intros R.
  destruct (FinancialMappingPipeline._map_single blank_synonym_pipeline
              (u "(!)") PNone ∅) as [[[r|] seen']|e] eqn:E;
    try (exfalso; vm_compute in E; discriminate).
  exists r, seen'. split; [reflexivity|].
  apply (proj2 (proj2 empty_label_never_fuzzy) blank_synonym_pipeline
           (u "(!)") PNone ∅ r seen'); [vm_compute; reflexivity|exact E].
Defined.


(** ** The canonical vocabulary and the synonym dictionary *)

Lemma str_eqb_eq a b : str_eqb a b = true <-> a = b.
Proof.
  revert b. induction a as [|x a IH]; intros [|y b]; simpl; split;
    try discriminate; auto.
  - rewrite andb_true_iff, N.eqb_eq, IH. intros [-> ->]. reflexivity.
  - intros H. injection H as -> ->. rewrite N.eqb_refl. simpl. apply IH.
    reflexivity.
Qed.

Lemma canonical_name_in_spec name :
  Schema.canonical_name_in name = true <->
  exists f, name = Schema.value f.
Proof.
  unfold Schema.canonical_name_in, Schema.CANONICAL_NAMES.
  rewrite existsb_exists. split.
  - intros (x & Hx & Heq). apply in_map_iff in Hx. destruct Hx as (f & <- & _).
    exists f. apply str_eqb_eq, Heq.
  - intros (f & ->). exists (Schema.value f). split.
    + apply in_map. destruct f; vm_compute; tauto.
    + apply str_eqb_eq. reflexivity.
Qed.

Section SynonymFacts.
Context {R : Runtime}.

(** A canonical name is found under itself: no two members of the enum
    agree up to case. *)
Lemma canonical_lookup_value f :
  Schema.canonical_lookup (Schema.value f) = Some f.
Proof. destruct f; vm_compute; reflexivity. Qed.

(** The entry [add_synonym] stores for an accepted [canonical]. *)
Lemma add_synonym_accepts d variant canonical cf :
  Schema.canonical_lookup canonical = Some cf ->
  SynonymMapper.add_synonym d variant canonical
  = Ok (<[Normalizer.normalize_label variant := Schema.value cf]> d).
Proof.
  intros Hcf. unfold SynonymMapper.add_synonym.
  destruct (Schema.canonical_name_in canonical) eqn:E.
  - apply canonical_name_in_spec in E. destruct E as [f ->].
    rewrite canonical_lookup_value in Hcf. injection Hcf as ->. reflexivity.
  - rewrite Hcf. reflexivity.
Qed.

Lemma add_synonym_rejects d variant canonical :
  Schema.canonical_lookup canonical = None ->
  exists m, SynonymMapper.add_synonym d variant canonical = Raise (ValueError m).
Proof.
  intros Hcf. unfold SynonymMapper.add_synonym.
  destruct (Schema.canonical_name_in canonical) eqn:E.
  - apply canonical_name_in_spec in E. destruct E as [f ->].
    rewrite canonical_lookup_value in Hcf. discriminate.
  - rewrite Hcf. simpl. eauto.
Qed.


End SynonymFacts.



(** ** Validator *)

Lemma float_of_int_fits z :
  int_fits_float z -> float_of_int z = Ok (round_binary64 z 0).
Proof. unfold int_fits_float, float_of_int. intros ->. reflexivity. Qed.

Lemma float_of_int_overflow z :
  ~ int_fits_float z -> exists m, float_of_int z = Raise (OverflowError m).
Proof.
  unfold int_fits_float, float_of_int. intros H.
  destruct (PrimFloat.is_infinity (round_binary64 z 0)); [eauto|congruence].
Qed.

Lemma int_nonfinite_fits z :
  int_fits_float z -> exists b, Validator.int_nonfinite z = Ok b.
Proof.
  intros H. unfold Validator.int_nonfinite. rewrite (float_of_int_fits z H).
  simpl. eauto.
Qed.

Lemma add_error_errors m r :
  Validator.errors (Validator.add_error m r) = Validator.errors r ++ [m].
Proof. reflexivity. Qed.

(** The value check only appends, one entry per non-finite value. *)
Lemma check_values_errors cfg ms r r' :
  Validator._check_values cfg ms r = Ok r' ->
  Validator.errors r' = Validator.errors r ++ value_errors ms.
Proof.
  revert r. induction ms as [|m ms IH]; intros r; simpl.
  - intros H. injection H as <-. rewrite app_nil_r. reflexivity.
  - unfold value_errors. simpl. fold (value_errors ms).
    destruct (Schema.mvalue m) as [|z|f|s|ty rp].
    + intros H. apply IH in H. exact H.
    + destruct (Validator.int_nonfinite z) as [[|]|e]; simpl; [| |discriminate].
      * intros H. apply IH in H. rewrite H, add_error_errors, <- app_assoc.
        reflexivity.
      * destruct (Validator.int_gt_float _ _); intros H; apply IH in H; exact H.
    + unfold nonfinite.
      destruct (PrimFloat.is_nan f || PrimFloat.is_infinity f).
      * intros H. apply IH in H. rewrite H, add_error_errors, <- app_assoc.
        reflexivity.
      * destruct (PrimFloat.ltb _ _); intros H; apply IH in H; exact H.
    + intros H. apply IH in H. exact H.
    + intros H. apply IH in H. exact H.
Qed.

(** The value check completes when every int value fits a float. *)
Lemma check_values_total cfg ms r :
  Forall (fun m => value_fits_float (Schema.mvalue m)) ms ->
  exists r', Validator._check_values cfg ms r = Ok r'.
Proof.
  intros H. revert r. induction H as [|m ms Hm Hms IH]; intros r; simpl; eauto.
  destruct (Schema.mvalue m) as [|z|f|s|ty rp]; auto.
  - destruct (int_nonfinite_fits z Hm) as [b ->]. simpl.
    destruct b; auto. destruct (Validator.int_gt_float _ _); auto.
  - destruct (PrimFloat.is_nan f || PrimFloat.is_infinity f); auto.
    destruct (PrimFloat.ltb _ _); auto.
Qed.

(** C5.  Whatever the configuration, when validation completes the
    [errors] of the report are those of the duplicate and required-field
    checks followed by one entry for each mapping whose value is NaN or
    infinite: such a value is never only warned about, and no finding of
    the other checks suppresses its entry.  Validation completes on every
    list whose int values fit a float; the values of a [MappingResult]
    are floats or [None], as the field is typed and as the pipeline builds
    it, so this is every list [validate] is given. *)
Theorem validate_reports_nonfinite :
  (forall cfg ms report,
     Validator.validate cfg ms = Ok report ->
     Validator.errors report
     = Validator.errors
         (Validator._check_required_fields cfg ms
            (Validator._check_duplicates cfg ms
               {| Validator.errors := []; Validator.warnings := [] |}))
       ++ value_errors ms /\
     forall m f, In m ms -> Schema.mvalue m = PFloat f -> nonfinite f = true ->
       In (Validator.nonfinite_msg m (FloatStr f)) (Validator.errors report)) /\
  (forall cfg ms,
     Forall (fun m => value_fits_float (Schema.mvalue m)) ms ->
     exists report, Validator.validate cfg ms = Ok report).
Proof.
  split.
  - intros cfg ms report H. unfold Validator.validate in H.
    apply check_values_errors in H. split; [exact H|].
    intros m f Hin Hv Hnf. rewrite H. apply in_or_app. right.
    unfold value_errors. apply in_flat_map. exists m. split; [exact Hin|].
    rewrite Hv, Hnf. left. reflexivity.
  - intros cfg ms H. apply check_values_total, H.
Qed.

(** Outside these lists, on a mapping built by hand around an int beyond
    the range of [float], [math.isnan] raises [OverflowError]. *)
Lemma validate_raises_beyond_float_range cfg :
  exists m, Validator.validate cfg nan_and_huge_int = Raise (OverflowError m).
Proof.
  unfold Validator.validate, nan_and_huge_int.
  cbn [Validator._check_values Schema.mvalue].
  replace (PrimFloat.is_nan nan || PrimFloat.is_infinity nan) with true
    by (vm_compute; reflexivity).
  cbn [Validator._check_values Schema.mvalue].
  replace (Validator.int_nonfinite (10 ^ 400))
    with (@Raise bool (OverflowError [T (u "int too large to convert to float")]))
    by (vm_compute; reflexivity).
  simpl. eauto.
Qed.

Lemma validate_reports_nonfinite_witness :
  exists report,
    Validator.validate Config.default_ValidationConfig (firstn 1 nan_and_huge_int)
      = Ok report /\
    exists m, In m (Validator.errors report).
Proof.
  destruct (Validator.validate Config.default_ValidationConfig
              (firstn 1 nan_and_huge_int)) as [report|e] eqn:E;
    [|exfalso; vm_compute in E; discriminate].
  exists report. split; [reflexivity|]. eexists.
  apply (proj2 (proj1 validate_reports_nonfinite
                  Config.default_ValidationConfig (firstn 1 nan_and_huge_int)
                  report E) _ nan (or_introl eq_refl)); reflexivity.
Defined.

(** ** Pipeline *)

Lemma build_result_fields canonical raw value conf method ws seen :
  let r := fst (FinancialMappingPipeline._build_result canonical raw value
                  conf method ws seen) in
  Schema.canonical_name r = canonical /\ Schema.raw_label r = raw /\
  Schema.mvalue r = value /\ Schema.confidence r = conf /\
  Schema.match_method r = method /\
  (seen !! canonical = None -> Schema.warnings r = ws).
Proof.
  unfold FinancialMappingPipeline._build_result.
  destruct (seen !! canonical); simpl; repeat split; auto; discriminate.
Qed.

Lemma normalize_value_total v :
  forall {R : Runtime}, value_fits_float v ->
  exists pv ws, Normalizer.normalize_value v = Ok (pv, ws).
Proof.
  intros R H. destruct v as [|z|f|s|ty rp]; simpl; eauto.
  - rewrite (float_of_int_fits z H). simpl. eauto.
  - destruct (strip s); eauto.
    match goal with
    | |- context [if ?b then _ else _] => destruct b
    end;
    match goal with
    | |- context [float_of_str ?t] => destruct (float_of_str t)
    end; eauto.
Qed.

Section PipelineFacts.
Context {R : Runtime}.

Lemma parsed_value_fits m : parsed_value m -> value_fits_float (Schema.mvalue m).
Proof. intros [[f|] ->]; exact I. Qed.

Lemma map_single_parsed self raw_label raw_value seen r seen' :
  FinancialMappingPipeline._map_single self raw_label raw_value seen
    = Ok (Some r, seen') ->
  parsed_value r.
Proof.
  unfold FinancialMappingPipeline._map_single, Normalizer.normalize_pair.
  destruct (Normalizer.normalize_value raw_value) as [[pv ws]|e]; simpl;
    [|discriminate].
  destruct (SynonymMapper.lookup _ _) as [canonical|].
  - destruct (FinancialMappingPipeline._build_result _ _ _ _ _ _ _) as [r0 s0] eqn:E.
    intros H. injection H as <- _. exists pv.
    pose proof (build_result_fields canonical raw_label
                  (FinancialMappingPipeline.of_parsed pv) 100 (u "synonym") ws seen) as F.
    rewrite E in F. apply F.
  - destruct (FuzzyMatcher.match_ _ _) as [[c|]|e]; simpl; [| |discriminate].
    + match goal with
      | |- context [FinancialMappingPipeline._build_result ?a ?b ?c ?d ?e ?f ?g] =>
          pose proof (build_result_fields a b c d e f g) as F;
          destruct (FinancialMappingPipeline._build_result a b c d e f g) as [r0 s0]
      end.
      intros H. injection H as <- _. exists pv. apply F.
    + destruct (Config.enable_semantic_layer _); simpl; discriminate.
Qed.

Lemma run_loop_parsed self pairs acc um seen ms um' :
  Forall parsed_value acc ->
  FinancialMappingPipeline._run_loop self pairs acc um seen = Ok (ms, um') ->
  Forall parsed_value ms.
Proof.
  revert acc um seen. induction pairs as [|[l v] pairs IH]; intros acc um seen Hacc; simpl.
  - intros H. injection H as <- _. exact Hacc.
  - destruct (FinancialMappingPipeline._map_single self l v seen)
      as [[[r|] seen']|e] eqn:E; simpl; [| |discriminate].
    + apply IH. apply Forall_app. split; [exact Hacc|].
      constructor; [|constructor]. eapply map_single_parsed, E.
    + apply IH, Hacc.
Qed.

(** On a pipeline whose fuzzy matcher was built by [__init__], a pair is
    processed without exception when its value can be normalised. *)
Lemma map_single_total self raw_label raw_value seen mcfg :
  FinancialMappingPipeline._fuzzy self = FuzzyMatcher.__init__ mcfg None ->
  value_fits_float raw_value ->
  exists res, FinancialMappingPipeline._map_single self raw_label raw_value seen
              = Ok res.
Proof.
  intros Hf Hv. unfold FinancialMappingPipeline._map_single, Normalizer.normalize_pair.
  destruct (normalize_value_total raw_value Hv) as (pv & ws & ->). simpl.
  destruct (SynonymMapper.lookup _ _) as [canonical|].
  - destruct (FinancialMappingPipeline._build_result _ _ _ _ _ _ _); eauto.
  - rewrite Hf.
    destruct (proj1 (fuzzy_match_cases mcfg None (Normalizer.normalize_label raw_label)))
      as [[c|] ->]; simpl.
    + destruct (FinancialMappingPipeline._build_result _ _ _ _ _ _ _); eauto.
    + destruct (Config.enable_semantic_layer _); simpl; eauto.
Qed.

Lemma run_loop_total self pairs acc um seen mcfg :
  FinancialMappingPipeline._fuzzy self = FuzzyMatcher.__init__ mcfg None ->
  Forall (fun p => value_fits_float (snd p)) pairs ->
  exists res, FinancialMappingPipeline._run_loop self pairs acc um seen = Ok res.
Proof.
  intros Hf H. revert acc um seen.
  induction H as [|[l v] pairs Hv Hp IH]; intros acc um seen; simpl; eauto.
  destruct (map_single_total self l v seen mcfg Hf Hv) as [[[r|] seen'] ->];
    simpl; apply IH.
Qed.

Lemma init_fuzzy config extra p :
  FinancialMappingPipeline.__init__ config extra = Ok p ->
  FinancialMappingPipeline._fuzzy p
  = FuzzyMatcher.__init__ (Config.matching (FinancialMappingPipeline._config p)) None.
Proof.
  unfold FinancialMappingPipeline.__init__.
  destruct (SynonymMapper.__init__ extra) as [d|e]; simpl; [|discriminate].
  destruct (Config.custom_synonym_path _) as [data|]; simpl.
  - destruct (SynonymMapper.load_custom_synonyms d data) as [[d' n]|e]; simpl;
      [|discriminate].
    intros H. injection H as <-. reflexivity.
  - intros H. injection H as <-. reflexivity.
Qed.

Lemma success_iff o :
  (Schema.success o = true <-> Schema.validation_errors o = []) /\
  (Schema.success o = false <-> Schema.validation_errors o <> []).
Proof.
  unfold Schema.success. destruct (Schema.validation_errors o); simpl;
    split; split; auto; try discriminate; congruence.
Qed.

(** What a run does once every pair has been processed. *)
Lemma run_cases self pairs ms um :
  FinancialMappingPipeline._run_loop self pairs [] [] ∅ = Ok (ms, um) ->
  exists report,
    Validator.validate (Config.validation (FinancialMappingPipeline._config self)) ms
      = Ok report /\
    let out := SchemaBuilder.build_output ms um (Validator.errors report)
                 (Validator.warnings report) in
    FinancialMappingPipeline._run self pairs
    = if Config.strict_mode (Config.matching (FinancialMappingPipeline._config self))
         && negb (Schema.success out)
      then Raise (RuntimeError (strict_message (Validator.errors report)))
      else Ok out.
Proof.
  intros Hloop.
  set (vcfg := Config.validation (FinancialMappingPipeline._config self)).
  destruct (check_values_total vcfg ms
              (Validator._check_required_fields vcfg ms
                 (Validator._check_duplicates vcfg ms
                    {| Validator.errors := []; Validator.warnings := [] |})))
    as [report Hrep].
  { eapply List.Forall_impl; [|eapply run_loop_parsed; [constructor|exact Hloop]].
    intros m. apply parsed_value_fits. }
  assert (Hval : Validator.validate vcfg ms = Ok report) by exact Hrep.
  exists report. split; [exact Hval|].
  unfold FinancialMappingPipeline._run. rewrite Hloop.
  cbn [mbind result_bind Py.bind]. fold vcfg. rewrite Hval.
  cbn [mbind result_bind Py.bind]. reflexivity.
Qed.

End PipelineFacts.

(** A synonym hit, whatever the state of the pipeline. *)
Lemma synonym_hit {R : Runtime} self raw_label raw_value seen value ws canonical :
  Normalizer.normalize_value raw_value = Ok (value, ws) ->
  SynonymMapper.lookup (FinancialMappingPipeline._synonyms self)
    (Normalizer.normalize_label raw_label) = Some canonical ->
  exists r seen',
    FinancialMappingPipeline._map_single self raw_label raw_value seen
      = Ok (Some r, seen') /\
    Schema.canonical_name r = canonical /\
    Schema.raw_label r = raw_label /\
    Schema.mvalue r = FinancialMappingPipeline.of_parsed value /\
    Schema.confidence r = 100%Q /\
    Schema.match_method r = u "synonym" /\
    (seen !! canonical = None -> Schema.warnings r = ws).
Proof.
  intros Hv Hl.
  unfold FinancialMappingPipeline._map_single, Normalizer.normalize_pair.
  rewrite Hv. cbn [mbind result_bind Py.bind]. rewrite Hl.
  pose proof (build_result_fields canonical raw_label
                (FinancialMappingPipeline.of_parsed value) 100 (u "synonym") ws seen) as F.
  destruct (FinancialMappingPipeline._build_result _ _ _ _ _ _ _) as [r seen'].
  exists r, seen'. split; [reflexivity|exact F].
Qed.

(** C1, as the code has it.  A pair whose normalised label is a key of
    the synonym dictionary, and whose value [normalize_value] accepts, is
    mapped to the canonical name stored under that key with confidence
    100 and match method [synonym]; the input
    [{"Profit After Tax": 500000}] yields exactly one mapping, to
    [Net Profit] with value 500000.0, confidence 100, method [synonym],
    and no warning of any kind. *)
Theorem synonym_hit_maps_with_confidence_100 :
  (forall (R : Runtime) self raw_label raw_value seen value ws canonical,
     Normalizer.normalize_value raw_value = Ok (value, ws) ->
     SynonymMapper.lookup (FinancialMappingPipeline._synonyms self)
       (Normalizer.normalize_label raw_label) = Some canonical ->
     exists r seen',
       FinancialMappingPipeline._map_single self raw_label raw_value seen
         = Ok (Some r, seen') /\
       Schema.canonical_name r = canonical /\
       Schema.raw_label r = raw_label /\
       Schema.mvalue r = FinancialMappingPipeline.of_parsed value /\
       Schema.confidence r = 100%Q /\
       Schema.match_method r = u "synonym" /\
       (seen !! canonical = None -> Schema.warnings r = ws)) /\
  (forall R : Runtime,
     profit_after_tax_run
     = Ok {| Schema.mappings :=
               [ {| Schema.canonical_name := u "Net Profit";
                    Schema.raw_label := u "Profit After Tax";
                    Schema.mvalue := PFloat 500000;
                    Schema.confidence := 100;
                    Schema.match_method := u "synonym";
                    Schema.warnings := [] |} ];
             Schema.unmapped := [];
             Schema.validation_errors := [];
             Schema.validation_warnings := [] |}).
Proof.
  split.
  - intros R. apply synonym_hit.
  - intros R. vm_compute. reflexivity.
Qed.

Lemma synonym_hit_maps_with_confidence_100_witness :
  in_every_runtime (fun R =>
    exists r seen',
      FinancialMappingPipeline._map_single one_synonym_pipeline
        (u " PAT ") (PStr (u "(5,000)")) ∅ = Ok (Some r, seen') /\
      Schema.canonical_name r = u "Net Profit" /\
      Schema.confidence r = 100%Q /\
      Schema.match_method r = u "synonym").
Proof.
  intros R.
  destruct (proj1 synonym_hit_maps_with_confidence_100 R one_synonym_pipeline
              (u " PAT ") (PStr (u "(5,000)")) ∅ (Some (-5000)%float) []
              (u "Net Profit"))
    as (r & seen' & H1 & H2 & _ & _ & H5 & H6 & _).
  - vm_compute. reflexivity.
  - vm_compute. reflexivity.
  - exists r, seen'. auto.
Defined.

(** C1, the claim as stated fails: the match method of a synonym hit is
    [synonym], not [exact]. *)
Lemma synonym_hit_method_is_not_exact :
  in_every_runtime (fun R =>
    exists out m,
      profit_after_tax_run = Ok out /\
      Schema.mappings out = [m] /\
      Schema.match_method m = u "synonym" /\
      Schema.match_method m <> u "exact").
Proof.
  intros R. eexists. eexists.
  split; [vm_compute; reflexivity|]. split; [reflexivity|].
  split; [reflexivity|]. vm_compute. discriminate.
Qed.

Lemma init_default {R : Runtime} :
  FinancialMappingPipeline.__init__ None None = Ok builtin_pipeline.
Proof. reflexivity. Qed.

(** C2.  On a pipeline built by [__init__], when every raw value can be
    normalised the run validates the mappings and then: in strict mode
    with at least one validation error it raises [RuntimeError], whose
    message lists every error, and returns no output; otherwise it
    returns the output, whose [success] is true exactly when there is no
    validation error.  A raw value that is an int beyond the range of
    [float] ends the run with [OverflowError] also when strict mode is
    off, as for [{"Revenue": 10**400}]. *)
Theorem run_strict_mode :
  (forall (R : Runtime) config extra p pairs,
     FinancialMappingPipeline.__init__ config extra = Ok p ->
     Forall (fun pr => value_fits_float (snd pr)) pairs ->
     exists ms um report,
       FinancialMappingPipeline._run_loop p pairs [] [] ∅ = Ok (ms, um) /\
       Validator.validate
         (Config.validation (FinancialMappingPipeline._config p)) ms = Ok report /\
       let strict :=
         Config.strict_mode (Config.matching (FinancialMappingPipeline._config p)) in
       let out := SchemaBuilder.build_output ms um (Validator.errors report)
                    (Validator.warnings report) in
       (Schema.success out = true <-> Validator.errors report = []) /\
       (Schema.success out = false <-> Validator.errors report <> []) /\
       (strict = true -> Validator.errors report <> [] ->
          FinancialMappingPipeline._run p pairs
          = Raise (RuntimeError (strict_message (Validator.errors report)))) /\
       (strict = true -> Validator.errors report = [] ->
          FinancialMappingPipeline._run p pairs = Ok out) /\
       (strict = false -> FinancialMappingPipeline._run p pairs = Ok out)) /\
  (forall R : Runtime,
     Config.strict_mode (Config.matching Config.default_PipelineConfig) = false /\
     huge_int_run
     = Raise (OverflowError [T (u "int too large to convert to float")])).
Proof.
  split.
  - intros R config extra p pairs Hinit Hfit.
    destruct (run_loop_total p pairs [] [] ∅ _ (init_fuzzy config extra p Hinit) Hfit)
      as [[ms um] Hloop].
    destruct (run_cases p pairs ms um Hloop) as (report & Hval & Hrun).
    exists ms, um, report. split; [exact Hloop|]. split; [exact Hval|].
    cbv zeta in *.
    set (out := SchemaBuilder.build_output ms um (Validator.errors report)
                  (Validator.warnings report)) in *.
    destruct (success_iff out) as [Ht Hf]. change (Schema.validation_errors out)
      with (Validator.errors report) in *.
    split; [exact Ht|]. split; [exact Hf|].
    rewrite Hrun. repeat split.
    + intros -> He. apply Hf in He. rewrite He. reflexivity.
    + intros -> He. apply Ht in He. rewrite He. reflexivity.
    + intros ->. reflexivity.
  - intros R. split; vm_compute; reflexivity.
Qed.

Lemma run_strict_mode_witness :
  in_every_runtime (fun R =>
    exists out,
      FinancialMappingPipeline._run builtin_pipeline
        [(u "Profit After Tax", PInt 500000)] = Ok out).
Proof.
  intros R.
  destruct (proj1 run_strict_mode R None None builtin_pipeline
              [(u "Profit After Tax", PInt 500000)] init_default)
    as (ms & um & report & _ & _ & _ & _ & _ & _ & Hrun).
  - constructor; [vm_compute; reflexivity|constructor].
  - eexists. apply Hrun. reflexivity.
Defined.

(** ** [normalize_value] on the listed inputs *)

(** The currency class of the source does not contain the rupee sign; it
    contains the letters its UTF-8 bytes decode to in code page 1250. *)
Lemma currency_class_misses_rupee :
  Normalizer._CURRENCY_RE 8377%N = false /\
  Normalizer._CURRENCY_RE 36%N = true /\
  forallb Normalizer._CURRENCY_RE [226; 8218; 261]%N = true.
Proof. repeat split. Qed.

(** A character that is neither ASCII, nor whitespace, nor a decimal
    digit makes [float] reject the string. *)
Lemma float_char_not_decimal {R : Runtime} c :
  is_ascii c = false -> is_space c = false -> unicode_decimal c = None ->
  float_char c = None.
Proof. unfold float_char. intros -> -> ->. reflexivity. Qed.

Lemma float_of_str_bad_char {R : Runtime} c s :
  float_char c = None -> float_of_str (c :: s) = None.
Proof. unfold float_of_str. simpl. intros ->. reflexivity. Qed.

(** C4.  [normalize_value] on the listed inputs: ["(5,000)"] gives
    -5000.0; [None] gives no value and the one warning [Value is None];
    ["12.5%"] gives 12.5 (not 0.125) with the warning that the percent
    symbol was stripped and the raw value is treated as a number.  On
    the rupee input the code gives no value and a cannot-parse warning:
    the sign is not in [_CURRENCY_RE] (the dollar input ["$12,000"] does
    give 12000.0). *)
Theorem normalize_value_examples (R : Runtime) :
  unicode_decimal 8377%N = None ->
  Normalizer.normalize_value (PStr (u "(5,000)")) = Ok (Some (-5000)%float, []) /\
  Normalizer.normalize_value PNone = Ok (None, [[T (u "Value is None")]]) /\
  Normalizer.normalize_value (PStr (u "12.5%"))
  = Ok (Some 12.5%float,
        [[T (u "Percent symbol stripped; raw value treated as number")]]) /\
  Normalizer.normalize_value (PStr (u "$12,000")) = Ok (Some 12000%float, []) /\
  Normalizer.normalize_value (PStr rupee_12000)
  = Ok (None, [[T (u "Cannot parse numeric value from: "); ReprStr rupee_12000]]).
Proof.
  intros Hrupee.
  split; [vm_compute; reflexivity|]. split; [reflexivity|].
  split; [vm_compute; reflexivity|]. split; [vm_compute; reflexivity|].
  unfold Normalizer.normalize_value, rupee_12000. cbv zeta.
  replace (strip (8377%N :: u "12,000")) with (8377%N :: u "12,000")
    by (vm_compute; reflexivity).
  replace (u "12,000") with [49; 50; 44; 48; 48; 48]%N by reflexivity.
  cbv iota.
  replace (strip (List.filter (fun c => negb (Normalizer._CURRENCY_RE c))
                    [8377; 49; 50; 44; 48; 48; 48]%N))
    with [8377; 49; 50; 44; 48; 48; 48]%N by (vm_compute; reflexivity).
  replace (Normalizer._PAREN_NEG_RE [8377; 49; 50; 44; 48; 48; 48]%N)
    with (@None (list N)) by reflexivity.
  cbv iota.
  replace (replace (u ",") [] [8377; 49; 50; 44; 48; 48; 48]%N)
    with [8377; 49; 50; 48; 48; 48]%N by (vm_compute; reflexivity).
  replace (endswith (u "%") [8377; 49; 50; 48; 48; 48]%N) with false
    by (vm_compute; reflexivity).
  cbv iota beta.
  rewrite (float_of_str_bad_char 8377%N [49; 50; 48; 48; 48]%N)
    by (apply float_char_not_decimal; [reflexivity|reflexivity|exact Hrupee]).
  reflexivity.
Qed.

Lemma normalize_value_examples_witness :
  Normalizer.normalize_value (R := ascii_runtime) (PStr rupee_12000)
  = Ok (None, [[T (u "Cannot parse numeric value from: "); ReprStr rupee_12000]]).
Proof.
  apply (normalize_value_examples ascii_runtime). reflexivity.
Defined.

(** ** Year headers *)

Lemma odict_set_fresh {V} (k : nat) (v : V) (d : list (nat * V)) :
  ~ In k (ODict.keys d) -> ODict.set k v d = d ++ [(k, v)].
Proof.
  induction d as [|[k' v'] d IH]; simpl; auto.
  intros H. destruct (decide (k = k')) as [->|_]; [tauto|].
  rewrite IH; auto.
Qed.

(** With distinct columns the default labels go to the columns in their
    order; [g] places the first column of [cols] in the whole list. *)
Lemma default_years_from (g : nat -> nat) (cols : list nat) acc :
  NoDup (ODict.keys acc ++ cols) ->
  fold_left
    (fun yh '(i, col_idx) => ODict.set col_idx (year_label i) yh)
    (imap (fun i col_idx => (g i, col_idx)) cols) acc
  = acc ++ imap (fun i col_idx => (col_idx, year_label (g i))) cols.
Proof.
  revert g acc. induction cols as [|c cols IH]; intros g acc Hnd; simpl.
  - rewrite app_nil_r. reflexivity.
  - apply NoDup_app in Hnd. destruct Hnd as (Hacc & Hdisj & Hcols).
    apply NoDup_cons in Hcols. destruct Hcols as [Hc Hcols].
    rewrite odict_set_fresh.
    2:{ intros Hin. apply (Hdisj c); [apply list_elem_of_In, Hin|left]. }
    etransitivity;
      [apply (IH (g ∘ S) (acc ++ [(c, year_label (g 0%nat))]))|].
    + unfold ODict.keys. rewrite map_app. simpl. rewrite <- app_assoc. simpl.
      apply NoDup_app. split; [exact Hacc|]. split.
      * intros x Hx Hx'. apply elem_of_cons in Hx'. destruct Hx' as [->|Hx'].
        -- apply (Hdisj c Hx). left.
        -- apply (Hdisj x Hx). right. exact Hx'.
      * apply NoDup_cons. split; assumption.
    + rewrite <- app_assoc. reflexivity.
Qed.

Lemma default_years_distinct cols :
  NoDup cols ->
  ExcelParser.default_years cols
  = imap (fun i col_idx => (col_idx, year_label i)) cols.
Proof.
  intros H. unfold ExcelParser.default_years.
  apply (default_years_from (fun i => i) cols []). exact H.
Qed.

Section YearHeaderFacts.
Context {R : Runtime}.

Lemma scan_row_nothing row cols :
  (forall col_idx c, In col_idx cols -> row !! col_idx = Some c ->
     ExcelParser._extract_year_from_header c = Ok None) ->
  ExcelParser.scan_row row cols [] = Ok [].
Proof.
  induction cols as [|col cols IH]; intros H; simpl; auto.
  destruct (row !! col) as [c|] eqn:E.
  - rewrite (H col c (or_introl eq_refl) E). simpl. apply IH.
    intros col' c' Hin. apply H. right. exact Hin.
  - apply IH. intros col' c' Hin. apply H. right. exact Hin.
Qed.

Lemma scan_rows_nothing grid hdr cols offsets :
  (forall row_offset row col_idx c,
     In row_offset offsets ->
     (0 <= Z.of_nat hdr + row_offset)%Z ->
     grid !! Z.to_nat (Z.of_nat hdr + row_offset) = Some row ->
     In col_idx cols -> row !! col_idx = Some c ->
     ExcelParser._extract_year_from_header c = Ok None) ->
  ExcelParser.scan_rows grid hdr cols offsets [] = Ok [].
Proof.
  induction offsets as [|off offsets IH]; intros H; simpl; auto.
  assert (Hrest : ExcelParser.scan_rows grid hdr cols offsets [] = Ok []).
  { apply IH. intros ro row col c Hin. apply H. right. exact Hin. }
  destruct ((0 <=? Z.of_nat hdr + off)%Z
            && (Z.of_nat hdr + off <? Z.of_nat (List.length grid))%Z) eqn:Eb;
    [|exact Hrest].
  apply andb_true_iff in Eb. destruct Eb as [Hlo _]. apply Z.leb_le in Hlo.
  destruct (grid !! Z.to_nat (Z.of_nat hdr + off)) as [row|] eqn:Er;
    [|exact Hrest].
  rewrite (scan_row_nothing row cols).
  - simpl. exact Hrest.
  - intros col c. apply (H off row col c (or_introl eq_refl) Hlo Er).
Qed.

End YearHeaderFacts.

(** C3.  What the code yields on the listed inputs.  The text [FY 2025]
    yields [2025]: pattern 3, the bare year, is tried before pattern 4
    and matches; [FY2025], where no word boundary precedes the digits,
    does yield [FY2025].  A datetime of 2025-03-31 yields [2025-03-31].
    When no scanned cell yields a year, the value columns get [Year 1],
    [Year 2], ... in the order of the value columns. *)
Theorem year_header_examples (R : Runtime) :
  ExcelParser._extract_year_from_header (ExcelParser.CVal (PStr (u "FY 2025")))
  = Ok (Some (u "2025")) /\
  ExcelParser._extract_year_from_header (ExcelParser.CVal (PStr (u "FY2025")))
  = Ok (Some (u "FY2025")) /\
  ExcelParser._extract_year_from_header (ExcelParser.CDatetime 2025 3 31)
  = Ok (Some (u "2025-03-31")) /\
  (forall grid lay,
     no_year_found grid (default 0%nat (ExcelParser.header_row lay))
       (default [] (ExcelParser.value_cols lay)) ->
     ExcelParser._extract_year_headers grid lay
     = Ok (ExcelParser.default_years (default [] (ExcelParser.value_cols lay)))) /\
  (forall cols, NoDup cols ->
     ExcelParser.default_years cols
     = imap (fun i col_idx =>
               (col_idx, u "Year " ++ str_of_N (N.of_nat (i + 1)))) cols).
Proof.
  split; [vm_compute; reflexivity|]. split; [vm_compute; reflexivity|].
  split; [vm_compute; reflexivity|]. split.
  - intros grid lay H. unfold ExcelParser._extract_year_headers.
    rewrite (scan_rows_nothing grid _ _ _ H). reflexivity.
  - exact default_years_distinct.
Qed.

(** A header row without years, read at the value columns 1 and 2. *)
Lemma year_header_examples_witness :
  in_every_runtime (fun R =>
    ExcelParser._extract_year_headers
      [[ExcelParser.CVal (PStr (u "Particulars"));
        ExcelParser.CVal (PStr (u "Amount"));
        ExcelParser.CVal PNone]]
      {| ExcelParser.value_cols := Some [1; 2]%nat;
         ExcelParser.header_row := None |}
    = Ok [(1%nat, u "Year 1"); (2%nat, u "Year 2")]).
Proof.
  intros R.
  destruct (year_header_examples R) as (_ & _ & _ & Hscan & Hdef).
  rewrite Hscan.
  - rewrite Hdef; [reflexivity|]. apply (bool_decide_unpack _). reflexivity.
  - intros off row col c Hoff Hlo Hrow Hcol Hc. simpl in *.
    destruct Hoff as [<-|[<-|[<-|[<-|[]]]]]; simpl in Hrow; try lia;
      try discriminate.
    injection Hrow as <-.
    destruct Hcol as [<-|[<-|[]]]; simpl in Hc; injection Hc as <-;
      vm_compute; reflexivity.
Defined.

(** ** De-duplication in [parse_file] *)

Section DedupFacts.
Context {R : Runtime}.

Lemma dedup_from_keys (pairs : list (list N * pyobj)) (seen : gmap (list N) pyobj) :
  NoDup (List.map pair_key (ExcelParser.dedup_from pairs seen)) /\
  forall p, In p (ExcelParser.dedup_from pairs seen) -> seen !! pair_key p = None.
Proof.
  revert seen. induction pairs as [|[label value] pairs IH]; intros seen; simpl.
  - split; [constructor|tauto].
  - destruct (seen !! ExcelParser.dedup_key label) eqn:E; [apply IH|].
    destruct (IH (<[ExcelParser.dedup_key label := value]> seen)) as [Hnd Hseen].
    split.
    + simpl. apply NoDup_cons. split; [|exact Hnd].
      intros Hin. apply list_elem_of_In, in_map_iff in Hin.
      destruct Hin as (p & Hk & Hp). apply Hseen in Hp.
      rewrite Hk in Hp. unfold pair_key in Hp. simpl in Hp.
      rewrite lookup_insert_eq in Hp. discriminate.
    + intros p [<-|Hp]; [exact E|]. apply Hseen in Hp.
      destruct (decide (ExcelParser.dedup_key label = pair_key p)) as [Heq|Hne].
      * rewrite Heq, lookup_insert_eq in Hp. discriminate.
      * rewrite lookup_insert_ne in Hp by exact Hne. exact Hp.
Qed.

Lemma dedup_from_sublist (pairs : list (list N * pyobj)) (seen : gmap (list N) pyobj) :
  sublist (ExcelParser.dedup_from pairs seen) pairs.
Proof.
  revert seen. induction pairs as [|[label value] pairs IH]; intros seen; simpl.
  - constructor.
  - destruct (seen !! ExcelParser.dedup_key label).
    + apply sublist_cons, IH.
    + apply sublist_skip, IH.
Qed.

Lemma dedup_from_first (pairs : list (list N * pyobj)) (seen : gmap (list N) pyobj) k :
  seen !! k = None ->
  first_with_key k (ExcelParser.dedup_from pairs seen) = first_with_key k pairs.
Proof.
  unfold first_with_key.
  revert seen. induction pairs as [|[label value] pairs IH]; intros seen Hk; simpl; auto.
  unfold pair_key at 2. simpl.
  destruct (str_eqb (ExcelParser.dedup_key label) k) eqn:Ekey.
  - apply str_eqb_eq in Ekey. rewrite Ekey, Hk. simpl.
    unfold pair_key at 1. simpl. rewrite Ekey.
    rewrite (proj2 (str_eqb_eq k k) eq_refl). reflexivity.
  - assert (Hne : ExcelParser.dedup_key label <> k).
    { intros Heq. apply str_eqb_eq in Heq. congruence. }
    destruct (seen !! ExcelParser.dedup_key label).
    + apply IH, Hk.
    + simpl. unfold pair_key at 1. simpl. rewrite Ekey.
      apply IH. rewrite lookup_insert_ne by exact Hne. exact Hk.
Qed.

Lemma merge_sheet_info name syd yd :
  Forall (fun r => ExcelParser.log_level r = ExcelParser.INFO)
    (snd (ExcelParser.merge_sheet name syd yd)).
Proof.
  revert yd. induction syd as [|[year pairs] syd IH]; intros yd; simpl.
  - constructor.
  - specialize (IH (ODict.set year (default [] (ODict.get year yd) ++ pairs) yd)).
    destruct (ExcelParser.merge_sheet name syd _) as [yd' logs].
    simpl in *. constructor; [reflexivity|exact IH].
Qed.

Lemma merge_sheets_info wb yd :
  Forall (fun r => ExcelParser.log_level r = ExcelParser.INFO)
    (snd (ExcelParser.merge_sheets wb yd)).
Proof.
  revert yd. induction wb as [|ws wb IH]; intros yd; simpl.
  - constructor.
  - pose proof (merge_sheet_info (ExcelParser.sheet_name ws)
                  (ExcelParser.parsed_multi_year ws) yd) as H1.
    destruct (ExcelParser.merge_sheet _ _ yd) as [yd1 logs1].
    specialize (IH yd1).
    destruct (ExcelParser.merge_sheets wb yd1) as [yd2 logs2].
    simpl in *. constructor; [reflexivity|].
    apply Forall_app. split; assumption.
Qed.

Lemma dedup_years_info yd :
  Forall (fun r => ExcelParser.log_level r = ExcelParser.INFO)
    (snd (ExcelParser.dedup_years yd)).
Proof.
  unfold ExcelParser.dedup_years. simpl.
  induction yd as [|[year pairs] yd IH]; simpl; constructor; auto.
Qed.

(** Single-year mode keeps every pair, repeated keys included. *)
Lemma legacy_dedup_keeps_all (pairs : list (list N * pyobj)) (seen : gmap (list N) pyobj) :
  fst (ExcelParser.legacy_dedup pairs seen) = pairs.
Proof.
  revert seen. induction pairs as [|[label value] pairs IH]; intros seen; simpl; auto.
  specialize (IH (<[ExcelParser.dedup_key label := value]> seen)).
  destruct (ExcelParser.legacy_dedup pairs _) as [d l]. simpl in *.
  rewrite IH. reflexivity.
Qed.

(** C9.  In all-years mode [parse_file] returns, for every year, the
    pairs collected for that year with the later pairs of an already seen
    key ([label.strip().lower()]) dropped: the keys of the returned list
    are pairwise distinct, the list is a sub-list of the collected one in
    the same order, and for every key the first collected pair with that
    key is the pair returned for it.  Every log record of [parse_file] in
    this mode is at level INFO: the dropping adds no warning.

    In single-year mode (a year index is given) the loop under the
    comment [Deduplicate] appends every pair, seen or not: the list
    returned is every pair of every sheet, and a sheet that gives [Cash]
    and [cash] gets both back, two pairs with one key. *)
Theorem per_year_dedup_first_wins :
  (forall wb : list ExcelParser.sheet,
     let merged := fst (ExcelParser.merge_sheets wb []) in
     exists log,
       ExcelParser.parse_file None wb
       = (ExcelParser.AllYears
            (List.map (fun yp => (fst yp, ExcelParser.dedup_from (snd yp) ∅)) merged),
          log) /\
       Forall (fun r => ExcelParser.log_level r = ExcelParser.INFO) log /\
       forall year pairs, In (year, pairs) merged ->
         let kept := ExcelParser.dedup_from pairs ∅ in
         In (year, kept)
           (List.map (fun yp => (fst yp, ExcelParser.dedup_from (snd yp) ∅)) merged) /\
         NoDup (List.map pair_key kept) /\
         sublist kept pairs /\
         forall k, first_with_key k kept = first_with_key k pairs) /\
  (forall (year_index : nat) (wb : list ExcelParser.sheet),
     exists log,
       ExcelParser.parse_file (Some year_index) wb
       = (ExcelParser.SingleYear
            (List.concat (List.map ExcelParser.parsed_single wb)), log)) /\
  (forall year_index : nat,
     exists log,
       ExcelParser.parse_file (Some year_index) cash_and_cash
       = (ExcelParser.SingleYear [(u "Cash", PFloat 1); (u "cash", PFloat 2)],
          log) /\
       pair_key (u "Cash", PFloat 1) = pair_key (u "cash", PFloat 2) /\
       ~ NoDup (List.map pair_key [(u "Cash", PFloat 1); (u "cash", PFloat 2)])).
Proof.
  assert (Hsingle : forall (year_index : nat) (wb : list ExcelParser.sheet),
    exists log,
      ExcelParser.parse_file (Some year_index) wb
      = (ExcelParser.SingleYear
           (List.concat (List.map ExcelParser.parsed_single wb)), log)).
  { intros year_index wb. unfold ExcelParser.parse_file.
    rewrite List.map_map. simpl.
    pose proof (legacy_dedup_keeps_all
                  (List.concat (List.map ExcelParser.parsed_single wb)) ∅) as H.
    destruct (ExcelParser.legacy_dedup _ ∅) as [deduped logs]. simpl in H.
    subst deduped. eexists. reflexivity. }
  split; [|split; [exact Hsingle|]].
  - intros wb merged. unfold ExcelParser.parse_file.
    pose proof (merge_sheets_info wb []) as H1. subst merged.
    destruct (ExcelParser.merge_sheets wb []) as [yd logs1]. simpl in *.
    pose proof (dedup_years_info yd) as H2.
    unfold ExcelParser.dedup_years in *. simpl in H2.
    eexists. split.
    + f_equal. f_equal. apply map_ext. intros [y ps]. reflexivity.
    + split; [apply Forall_app; split; assumption|].
      intros year pairs Hin. split.
      * apply in_map_iff. exists (year, pairs). split; [reflexivity|exact Hin].
      * split; [apply dedup_from_keys|]. split; [apply dedup_from_sublist|].
        intros k. apply dedup_from_first, lookup_empty.
  - intros year_index. destruct (Hsingle year_index cash_and_cash) as [log H].
    exists log. split; [exact H|].
    assert (Hkey : pair_key (u "Cash", PFloat 1) = pair_key (u "cash", PFloat 2))
      by (vm_compute; reflexivity).
    split; [exact Hkey|].
    intros Hnd. simpl in Hnd. apply NoDup_cons in Hnd. destruct Hnd as [Hnot _].
    apply Hnot, list_elem_of_In. left. symmetry. exact Hkey.
Qed.

End DedupFacts.

Lemma per_year_dedup_first_wins_witness :
  in_every_runtime (fun R =>
    exists log,
      ExcelParser.parse_file None cash_twice
      = (ExcelParser.AllYears
           [(u "2025", [(u "Cash", PFloat 1); (u "Bank", PFloat 3)])], log) /\
      Forall (fun r => ExcelParser.log_level r = ExcelParser.INFO) log).
Proof.
  intros R.
  destruct (proj1 per_year_dedup_first_wins cash_twice) as (log & H & Hinfo & _).
  exists log. split; [|exact Hinfo].
  rewrite H. f_equal.
Defined.

(* ===================================================================== *)
(** * Part II, continued. Further properties of the code                  *)
(* ===================================================================== *)

(** ** Normalizer *)

Lemma lstrip_length s : (List.length (lstrip s) <= List.length s)%nat.
Proof.
  induction s as [|c s IH]; simpl; auto.
  destruct (is_space c); simpl; lia.
Qed.

Lemma rstrip_last s c : last (rstrip s) = Some c -> is_space c = false.
Proof.
  induction s as [|x s IH]; [discriminate|].
  rewrite rstrip_cons. destruct (rstrip s) as [|y r] eqn:E.
  - destruct (is_space x) eqn:Ex; simpl; [discriminate|].
    intros H. injection H as <-. exact Ex.
  - change (last (x :: y :: r)) with (last (y :: r)). exact IH.
Qed.

Lemma strip_head s c : head (strip s) = Some c -> is_space c = false.
Proof.
  unfold strip. pose proof (lstrip_head s) as Hh.
  destruct (lstrip s) as [|x t]; [discriminate|].
  destruct (rstrip_keeps_head x t Hh) as [r ->]. simpl.
  intros H. injection H as <-. exact Hh.
Qed.

Lemma single_spaced_no_double b s i :
  single_spaced b s = true ->
  ~ (s !! i = Some 32%N /\ s !! S i = Some 32%N).
Proof.
  revert b i. induction s as [|c s IH]; intros b i H [H1 H2]; [discriminate|].
  rewrite single_spaced_cons in H. apply andb_true_iff in H. destruct H as [_ H].
  destruct i as [|i].
  - simpl in H1. injection H1 as ->. simpl in H.
    apply andb_true_iff in H. destruct H as [_ H].
    destruct s as [|d s]; [discriminate|]. simpl in H2. injection H2 as ->.
    simpl in H. discriminate.
  - simpl in H1, H2. destruct (is_space c).
    + apply andb_true_iff in H. destruct H as [_ H]. exact (IH true i H (conj H1 H2)).
    + exact (IH false i H (conj H1 H2)).
Qed.

Lemma lstrip_spaces ws s : Forall (fun c => is_space c = true) ws -> lstrip (ws ++ s) = lstrip s.
Proof. induction 1 as [|c ws Hc _ IH]; simpl; auto. rewrite Hc. exact IH. Qed.

Lemma rstrip_spaces_nil ws : Forall (fun c => is_space c = true) ws -> rstrip ws = [].
Proof.
  induction 1 as [|c ws Hc _ IH]; auto. rewrite rstrip_cons, IH, Hc. reflexivity.
Qed.

Lemma rstrip_spaces s ws : Forall (fun c => is_space c = true) ws -> rstrip (s ++ ws) = rstrip s.
Proof.
  intros H. induction s as [|c s IH].
  - rewrite app_nil_l, (rstrip_spaces_nil ws H). reflexivity.
  - rewrite <- app_comm_cons, !rstrip_cons, IH. reflexivity.
Qed.

Lemma lstrip_all_spaces s : lstrip s = [] -> Forall (fun c => is_space c = true) s.
Proof.
  induction s as [|c s IH]; simpl; [constructor|].
  destruct (is_space c) eqn:E; [|discriminate]. constructor; auto.
Qed.

Lemma lstrip_app s w :
  lstrip (s ++ w) = match lstrip s with [] => lstrip w | _ :: _ => lstrip s ++ w end.
Proof.
  induction s as [|c s IH]; simpl.
  - destruct (lstrip w); reflexivity.
  - destruct (is_space c); [exact IH|reflexivity].
Qed.

Lemma strip_padding ws1 s ws2 :
  Forall (fun c => is_space c = true) ws1 ->
  Forall (fun c => is_space c = true) ws2 ->
  strip (ws1 ++ s ++ ws2) = strip s.
Proof.
  intros H1 H2. unfold strip. rewrite (lstrip_spaces ws1 _ H1), lstrip_app.
  destruct (lstrip s) as [|c t] eqn:E.
  - rewrite (rstrip_spaces_nil (lstrip ws2)); [reflexivity|].
    clear -H2. induction H2 as [|c ws Hc _ IH]; simpl; [constructor|].
    rewrite Hc. exact IH.
  - apply rstrip_spaces, H2.
Qed.

Lemma is_space_lower c : is_space (ascii_lower_char c) = is_space c.
Proof.
  unfold ascii_lower_char. destruct (in_range 65 90 c) eqn:E; [|reflexivity].
  assert (Hc : (65 <= c <= 90)%N) by (revert E; char_arith).
  assert (is_space c = false) as -> by char_arith.
  char_arith.
Qed.

Lemma lstrip_map_lower s :
  lstrip (List.map ascii_lower_char s) = List.map ascii_lower_char (lstrip s).
Proof.
  induction s as [|c s IH]; simpl; auto.
  rewrite is_space_lower. destruct (is_space c); auto.
Qed.

Lemma rstrip_map_lower s :
  rstrip (List.map ascii_lower_char s) = List.map ascii_lower_char (rstrip s).
Proof.
  induction s as [|c s IH]; auto.
  cbn [List.map]. rewrite !rstrip_cons, IH, is_space_lower.
  destruct (rstrip s); simpl; destruct (is_space c); reflexivity.
Qed.

Lemma lstrip_ascii s : forallb is_ascii s = true -> forallb is_ascii (lstrip s) = true.
Proof.
  induction s as [|c s IH]; simpl; auto.
  intros H. apply andb_true_iff in H. destruct H as [Hc Hs].
  destruct (is_space c); auto. simpl. rewrite Hc, Hs. reflexivity.
Qed.

Lemma rstrip_ascii s : forallb is_ascii s = true -> forallb is_ascii (rstrip s) = true.
Proof.
  induction s as [|c s IH]; auto.
  intros H. simpl in H. apply andb_true_iff in H. destruct H as [Hc Hs].
  rewrite rstrip_cons. specialize (IH Hs). destruct (rstrip s).
  - destruct (is_space c); simpl; rewrite ?Hc; reflexivity.
  - simpl in *. rewrite Hc, IH. reflexivity.
Qed.

Section NormalizerMore.
Context {R : Runtime}.

(** X1.  The result of [normalize_label] consists of the letters a-z,
    the digits, [-], [&] and blanks; it neither starts nor ends with a
    blank and has no two blanks in a row. *)
Theorem normalize_label_charset (raw : list N) :
  let t := Normalizer.normalize_label raw in
  Forall (fun c => plain c = true) t /\
  head t <> Some 32%N /\ last t <> Some 32%N /\
  forall i, ~ (t !! i = Some 32%N /\ t !! S i = Some 32%N).
Proof.
  intros t. destruct (normalize_label_shape raw) as [Hs Hst]. fold t in Hs, Hst.
  split; [eapply single_spaced_plain, Hs|]. split; [|split].
  - intros H. rewrite <- Hst in H. apply strip_head in H. discriminate.
  - intros H. rewrite <- Hst in H. unfold strip in H. apply rstrip_last in H.
    discriminate.
  - intros i. eapply single_spaced_no_double, Hs.
Qed.

(** X2.  [normalize_label] ignores whitespace around the label, and on
    ASCII labels it ignores case: two ASCII labels that agree once
    lower-cased have the same normal form. *)
Theorem normalize_label_ignores_padding_and_case :
  (forall ws1 s ws2,
     Forall (fun c => is_space c = true) ws1 ->
     Forall (fun c => is_space c = true) ws2 ->
     Normalizer.normalize_label (ws1 ++ s ++ ws2) = Normalizer.normalize_label s) /\
  (forall s s',
     forallb is_ascii s = true -> forallb is_ascii s' = true ->
     List.map ascii_lower_char s = List.map ascii_lower_char s' ->
     Normalizer.normalize_label s = Normalizer.normalize_label s').
Proof.
  split.
  - intros ws1 s ws2 H1 H2. unfold Normalizer.normalize_label.
    rewrite (strip_padding ws1 s ws2 H1 H2). reflexivity.
  - intros s s' Hs Hs' Heq. unfold Normalizer.normalize_label.
    assert (Hl : forall x, forallb is_ascii x = true ->
                   lower (strip x) = strip (List.map ascii_lower_char x)).
    { intros x Hx. unfold lower, strip.
      rewrite (rstrip_ascii _ (lstrip_ascii _ Hx)).
      rewrite lstrip_map_lower, rstrip_map_lower. reflexivity. }
    rewrite (Hl s Hs), (Hl s' Hs'), Heq. reflexivity.
Qed.

(** X3.  [normalize_value] raises exactly on an int that is beyond the
    range of [float]; on every other input it returns. *)
Theorem normalize_value_raises_iff_huge_int (raw : pyobj) :
  (exists e, Normalizer.normalize_value raw = Raise e) <->
  (exists z, raw = PInt z /\ ~ int_fits_float z).
Proof.
  split.
  - intros [e He]. destruct raw as [|z|f|s|ty rp].
    + discriminate.
    + exists z. split; [reflexivity|]. intros Hfit.
      destruct (normalize_value_total (PInt z) Hfit) as (pv & ws & H).
      congruence.
    + discriminate.
    + destruct (normalize_value_total (PStr s) I) as (pv & ws & H). congruence.
    + discriminate.
  - intros (z & -> & Hz). destruct (float_of_int_overflow z Hz) as [m Hm].
    simpl. rewrite Hm. simpl. eauto.
Qed.

(** X4.  When [normalize_value] returns no value it returns at least
    one warning; when it returns a value there is no warning, or the one
    warning that a percent sign was stripped. *)
Theorem normalize_value_warnings (raw : pyobj) v ws :
  Normalizer.normalize_value raw = Ok (v, ws) ->
  match v with
  | None => ws <> []
  | Some _ =>
      ws = [] \/
      ws = [[T (u "Percent symbol stripped; raw value treated as number")]]
  end.
Proof.
  destruct raw as [|z|f|s|ty rp]; simpl.
  - intros H. injection H as <- <-. discriminate.
  - destruct (float_of_int z); simpl; [|discriminate].
    intros H. injection H as <- <-. auto.
  - intros H. injection H as <- <-. auto.
  - destruct (strip s); [intros H; injection H as <- <-; discriminate|].
    match goal with
    | |- context [if ?b then _ else _] => destruct b
    end;
    match goal with
    | |- context [float_of_str ?t] => destruct (float_of_str t)
    end; intros H; injection H as <- <-; auto; discriminate.
  - intros H. injection H as <- <-. discriminate.
Qed.

(** X5.  The two dash replacements look for the three characters
    U+00E2 U+20AC U+201C (or U+201D): on a text that, once stripped and
    lower-cased, has no U+00E2 they change nothing, so that an en dash or
    em dash of the label is deleted with the punctuation and no hyphen
    takes its place. *)
Theorem normalize_label_dash_replacement_inert (raw : list N) :
  Forall (fun c => c <> 226%N) (lower (strip raw)) ->
  Normalizer.normalize_label raw
  = strip (Normalizer._MULTI_SPACE_RE_sub
             (List.filter Normalizer.kept_by_PUNCT_RE (lower (strip raw)))) /\
  Normalizer.kept_by_PUNCT_RE 8211%N = false /\
  Normalizer.kept_by_PUNCT_RE 8212%N = false.
Proof.
  intros H. unfold Normalizer.normalize_label.
  rewrite (replace_absent _ _ _ H), (replace_absent _ _ _ H).
  repeat split.
Qed.

End NormalizerMore.

Lemma normalize_label_ignores_padding_and_case_witness :
  in_every_runtime (fun R =>
    Normalizer.normalize_label (u "  NET Profit ")
    = Normalizer.normalize_label (u "net profit")).
Proof.
  intros R.
  rewrite (proj1 normalize_label_ignores_padding_and_case (u "  ") (u "NET Profit") (u " "))
    by (repeat constructor).
  apply (proj2 normalize_label_ignores_padding_and_case); reflexivity.
Defined.

Lemma normalize_value_raises_iff_huge_int_witness :
  in_every_runtime (fun R =>
    exists e, Normalizer.normalize_value (PInt (10 ^ 400)) = Raise e).
Proof.
  intros R. apply normalize_value_raises_iff_huge_int.
  exists (10 ^ 400)%Z. split; [reflexivity|]. vm_compute. discriminate.
Defined.

Lemma normalize_value_warnings_witness :
  in_every_runtime (fun R =>
    exists ws,
      Normalizer.normalize_value (PStr (u "   ")) = Ok (None, ws) /\ ws <> []).
Proof.
  intros R. eexists. split; [reflexivity|].
  exact (normalize_value_warnings (PStr (u "   ")) None _ eq_refl).
Defined.

Lemma normalize_label_dash_replacement_inert_witness :
  in_every_runtime (fun R =>
    Normalizer.normalize_label (u "Long-term Loans") = u "long-term loans").
Proof.
  intros R.
  rewrite (proj1 (normalize_label_dash_replacement_inert (u "Long-term Loans")
                    ltac:(vm_compute; repeat constructor; discriminate))).
  reflexivity.
Defined.

(** ** The canonical vocabulary and the synonym dictionary, continued *)

Lemma value_stripped f : strip (Schema.value f) = Schema.value f.
Proof. destruct f; reflexivity. Qed.

Lemma fold_insert_values (l : list (list N * list N)) (f : list N -> list N)
  (d : gmap (list N) (list N)) k v :
  fold_left (fun d '(a, b) => <[f a := b]> d) l d !! k = Some v ->
  (exists a, In (a, v) l) \/ d !! k = Some v.
Proof.
  revert d. induction l as [|[a b] l IH]; intros d; simpl; auto.
  intros H. apply IH in H. destruct H as [[a' H]|H]; [left; eauto|].
  destruct (decide (f a = k)) as [<-|Hne].
  - rewrite lookup_insert_eq in H. injection H as <-. left. eauto.
  - rewrite lookup_insert_ne in H by exact Hne. auto.
Qed.

Section SynonymMore.
Context {R : Runtime}.

(** X6.  [canonical_lookup] finds a field exactly when the name, trimmed
    and lower-cased, is the lower-cased canonical name of that field; it
    finds nothing exactly when this holds for no field. *)
Theorem canonical_lookup_spec (name : list N) :
  (forall f, Schema.canonical_lookup name = Some f <->
             lower (strip name) = lower (Schema.value f)) /\
  (Schema.canonical_lookup name = None <->
   forall f, lower (strip name) <> lower (Schema.value f)).
Proof.
  assert (Hfwd : forall f, Schema.canonical_lookup name = Some f ->
                   lower (strip name) = lower (Schema.value f)).
  { intros f H. unfold Schema.canonical_lookup in H.
    apply find_some in H. destruct H as [_ H]. apply str_eqb_eq in H. auto. }
  assert (Hbwd : forall f, lower (strip name) = lower (Schema.value f) ->
                   Schema.canonical_lookup name = Some f).
  { intros f H. rewrite <- (canonical_lookup_value f).
    unfold Schema.canonical_lookup. rewrite value_stripped, H. reflexivity. }
  split.
  - intros f. split; auto.
  - split.
    + intros H f Hf. apply Hbwd in Hf. congruence.
    + intros H. destruct (Schema.canonical_lookup name) as [f|] eqn:E; auto.
      exfalso. apply (H f), Hfwd. reflexivity.
Qed.

Lemma add_synonym_inserts_canonical d variant canonical d' :
  SynonymMapper.add_synonym d variant canonical = Ok d' ->
  exists cf, Schema.canonical_lookup canonical = Some cf /\
             d' = <[Normalizer.normalize_label variant := Schema.value cf]> d.
Proof.
  intros H. destruct (Schema.canonical_lookup canonical) as [cf|] eqn:E.
  - exists cf. split; [reflexivity|].
    rewrite (add_synonym_accepts d variant canonical cf E) in H. congruence.
  - destruct (add_synonym_rejects d variant canonical E) as [m Hm]. congruence.
Qed.

Lemma add_synonym_keeps_canonical d variant canonical d' :
  all_canonical d ->
  SynonymMapper.add_synonym d variant canonical = Ok d' ->
  all_canonical d'.
Proof.
  intros Hd H. apply add_synonym_inserts_canonical in H.
  destruct H as (cf & _ & ->). intros k v Hk.
  destruct (decide (Normalizer.normalize_label variant = k)) as [<-|Hne].
  - rewrite lookup_insert_eq in Hk. injection Hk as <-.
    apply canonical_name_in_spec. eauto.
  - rewrite lookup_insert_ne in Hk by exact Hne. eauto.
Qed.

(** X7.  The extension API keeps the dictionary inside the canonical
    vocabulary: if every value is a canonical name, so is every value
    after [add_synonym], and after [add_synonyms] and
    [load_custom_synonyms] when they return. *)
Theorem extension_keeps_canonical (d : gmap (list N) (list N)) :
  all_canonical d ->
  (forall variant canonical d',
     SynonymMapper.add_synonym d variant canonical = Ok d' -> all_canonical d') /\
  (forall mapping d',
     SynonymMapper.add_synonyms d mapping = Ok d' -> all_canonical d') /\
  (forall data d' n,
     SynonymMapper.load_custom_synonyms d data = Ok (d', n) ->
     all_canonical d' /\ n = List.length data).
Proof.
  intros Hd.
  assert (Hmany : forall mapping d0 d', all_canonical d0 ->
            SynonymMapper.add_synonyms d0 mapping = Ok d' -> all_canonical d').
  { induction mapping as [|[v c] mapping IH]; intros d0 d' H0; simpl.
    - intros H. injection H as <-. exact H0.
    - destruct (SynonymMapper.add_synonym d0 v c) as [d1|e] eqn:E; simpl;
        [|discriminate].
      apply IH. eapply add_synonym_keeps_canonical; eauto. }
  split; [|split].
  - intros variant canonical d'. apply add_synonym_keeps_canonical, Hd.
  - intros mapping d'. apply Hmany, Hd.
  - intros data d' n. unfold SynonymMapper.load_custom_synonyms.
    destruct (SynonymMapper.add_synonyms d data) as [d1|e] eqn:E; simpl;
      [|discriminate].
    intros H. injection H as <- <-. split; [eapply Hmany; eauto|reflexivity].
Qed.

Lemma builtin_values_known k v :
  builtin_dict !! k = Some v -> known_target v.
Proof.
  intros H.
  apply (fold_insert_values _ Normalizer.normalize_label) in H.
  destruct H as [[a Ha]|H].
  - assert (Hall : forallb (fun '(_, b) => Schema.canonical_name_in b
                                           || str_eqb b (u "Short-term Borrowings"))
                     SynonymMapper._BUILTIN_SYNONYMS = true)
      by (vm_compute; reflexivity).
    rewrite forallb_forall in Hall. specialize (Hall _ Ha). cbv beta iota in Hall.
    apply orb_true_iff in Hall. destruct Hall as [Hc|Hs]; [left; exact Hc|].
    right. apply str_eqb_eq, Hs.
  - rewrite lookup_empty in H. discriminate.
Qed.

Lemma add_synonyms_values d mapping d' k v :
  SynonymMapper.add_synonyms d mapping = Ok d' ->
  d' !! k = Some v ->
  d !! k = Some v \/ Schema.canonical_name_in v = true.
Proof.
  revert d. induction mapping as [|[variant canonical] mapping IH]; intros d; simpl.
  - intros H. injection H as <-. auto.
  - destruct (SynonymMapper.add_synonym d variant canonical) as [d1|e] eqn:E;
      simpl; [|discriminate].
    intros H Hk. destruct (IH d1 H Hk) as [H1|H1]; [|auto].
    apply add_synonym_inserts_canonical in E. destruct E as (cf & _ & ->).
    destruct (decide (Normalizer.normalize_label variant = k)) as [<-|Hne].
    + rewrite lookup_insert_eq in H1. injection H1 as <-. right.
      apply canonical_name_in_spec. eauto.
    + rewrite lookup_insert_ne in H1 by exact Hne. auto.
Qed.

(** X8.  The built-in dictionary is not inside the canonical vocabulary:
    every value is a canonical name or [Short-term Borrowings], which is
    not one, and the label [Current Borrowings] is mapped to it, with
    confidence 100 and without any warning or validation finding. *)
Theorem builtin_dictionary_leaves_vocabulary :
  (forall k v, builtin_dict !! k = Some v ->
     Schema.canonical_name_in v = true \/ v = u "Short-term Borrowings") /\
  Schema.canonical_name_in (u "Short-term Borrowings") = false /\
  SynonymMapper.lookup builtin_dict (u "current borrowings")
  = Some (u "Short-term Borrowings") /\
  current_borrowings_run
  = Ok {| Schema.mappings :=
            [ {| Schema.canonical_name := u "Short-term Borrowings";
                 Schema.raw_label := u "Current Borrowings";
                 Schema.mvalue := PFloat 1;
                 Schema.confidence := 100;
                 Schema.match_method := u "synonym";
                 Schema.warnings := [] |} ];
          Schema.unmapped := [];
          Schema.validation_errors := [];
          Schema.validation_warnings := [] |}.
Proof.
  split; [|split; [reflexivity|split; vm_compute; reflexivity]].
  intros k v H. exact (builtin_values_known k v H).
Qed.

(** X9.  Every entry of the built-in table is found by [lookup] under
    its normalised key, with the target the table gives; the dictionary
    has 235 keys for the 236 entries of the table. *)
Theorem builtin_entries_found :
  (forall variant canonical,
     In (variant, canonical) SynonymMapper._BUILTIN_SYNONYMS ->
     SynonymMapper.lookup builtin_dict (Normalizer.normalize_label variant)
     = Some canonical) /\
  SynonymMapper.__init__ None = Ok builtin_dict /\
  SynonymMapper.size builtin_dict = 235%nat /\
  List.length SynonymMapper._BUILTIN_SYNONYMS = 236%nat.
Proof.
  split; [|split; [reflexivity|split; vm_compute; reflexivity]].
  intros variant canonical Hin.
  assert (Hall : forallb
            (fun '(k, v) =>
               match SynonymMapper.lookup builtin_dict (Normalizer.normalize_label k) with
               | Some v' => str_eqb v' v
               | None => false
               end) SynonymMapper._BUILTIN_SYNONYMS = true)
    by (vm_compute; reflexivity).
  rewrite forallb_forall in Hall. specialize (Hall _ Hin). cbv beta iota in Hall.
  destruct (SynonymMapper.lookup _ _) as [v'|]; [|discriminate].
  apply str_eqb_eq in Hall. congruence.
Qed.

(** X10.  [add_synonyms] raises exactly when some item names a canonical
    that [canonical_lookup] does not find.  When it returns, a key that
    is the normal form of no variant keeps its entry, and each variant is
    found under its normal form with the canonical name of the last item
    that has this normal form. *)
Theorem add_synonyms_spec (d : gmap (list N) (list N)) (mapping : list (list N * list N)) :
  ((exists e, SynonymMapper.add_synonyms d mapping = Raise e) <->
   (exists variant canonical,
      In (variant, canonical) mapping /\
      Schema.canonical_lookup canonical = None)) /\
  (forall d', SynonymMapper.add_synonyms d mapping = Ok d' ->
     (forall k,
        (forall variant canonical, In (variant, canonical) mapping ->
           Normalizer.normalize_label variant <> k) ->
        d' !! k = d !! k) /\
     (forall before variant canonical after,
        mapping = before ++ (variant, canonical) :: after ->
        (forall v c, In (v, c) after ->
           Normalizer.normalize_label v <> Normalizer.normalize_label variant) ->
        exists cf,
          Schema.canonical_lookup canonical = Some cf /\
          SynonymMapper.lookup d' (Normalizer.normalize_label variant)
          = Some (Schema.value cf))).
Proof.
  split.
  - revert d. induction mapping as [|[v c] mapping IH]; intros d; simpl.
    + split; [intros [e H]; discriminate|intros (? & ? & [] & _)].
    + destruct (Schema.canonical_lookup c) as [cf|] eqn:E.
      * rewrite (add_synonym_accepts d v c cf E). simpl. rewrite IH. split.
        -- intros (v' & c' & Hin & Hn). exists v', c'. auto.
        -- intros (v' & c' & [Heq|Hin] & Hn); [|eauto].
           injection Heq as <- <-. congruence.
      * destruct (add_synonym_rejects d v c E) as [m ->]. simpl.
        split; [|eauto]. intros _. exists v, c. auto.
  - revert d. induction mapping as [|[v c] mapping IH]; intros d d'; simpl.
    + intros H. injection H as <-. split; [reflexivity|].
      intros [|] ? ? ? H; discriminate.
    + destruct (SynonymMapper.add_synonym d v c) as [d1|e] eqn:E; simpl;
        [|discriminate].
      intros H. destruct (IH d1 d' H) as [Hkeep Hlast].
      destruct (add_synonym_inserts_canonical d v c d1 E) as (cf & Hcf & ->).
      split.
      * intros k Hk. rewrite Hkeep by (intros v' c' Hin; apply (Hk v' c'); right; exact Hin).
        apply lookup_insert_ne. apply (Hk v c). auto.
      * intros before variant canonical after Heq Hafter.
        destruct before as [|b before]; simpl in Heq.
        -- injection Heq as Hv Hc Hm. subst variant canonical after.
           exists cf. split; [exact Hcf|].
           unfold SynonymMapper.lookup. rewrite Hkeep.
           ++ apply lookup_insert_eq.
           ++ intros v' c' Hin. apply (Hafter v' c' Hin).
        -- injection Heq as _ Hm. eapply Hlast; eauto.
Qed.

End SynonymMore.

Lemma canonical_lookup_spec_witness :
  in_every_runtime (fun R =>
    Schema.canonical_lookup (u "  reserves & SURPLUS ")
    = Some Schema.RESERVES_AND_SURPLUS).
Proof.
  intros R.
  apply (proj1 (canonical_lookup_spec (u "  reserves & SURPLUS "))). reflexivity.
Defined.

Lemma extension_keeps_canonical_witness :
  in_every_runtime (fun R =>
    all_canonical ({[ u "pat" := u "Net Profit" ]} : gmap (list N) (list N)) /\
    forall d',
      SynonymMapper.add_synonym {[ u "pat" := u "Net Profit" ]} (u "Turnover")
        (u "revenue") = Ok d' ->
      all_canonical d').
Proof.
  intros R.
  assert (H : all_canonical ({[ u "pat" := u "Net Profit" ]} : gmap (list N) (list N))).
  { intros k v Hk. apply lookup_singleton_Some in Hk. destruct Hk as [_ <-].
    reflexivity. }
  split; [exact H|].
  exact (proj1 (extension_keeps_canonical _ H) (u "Turnover") (u "revenue")).
Defined.

Lemma builtin_entries_found_witness :
  in_every_runtime (fun R =>
    SynonymMapper.lookup builtin_dict (u "total assets ta") = Some (u "Total Assets")).
Proof.
  intros R.
  apply (proj1 builtin_entries_found (u "total assets (ta)") (u "Total Assets")).
  vm_compute. tauto.
Defined.

Lemma add_synonyms_spec_witness :
  in_every_runtime (fun R =>
    exists e,
      SynonymMapper.add_synonyms ∅ [(u "a", u "Tax"); (u "b", u "Not A Real Field")]
      = Raise e).
Proof.
  intros R.
  apply (proj1 (add_synonyms_spec ∅ [(u "a", u "Tax"); (u "b", u "Not A Real Field")])).
  exists (u "b"), (u "Not A Real Field"). split; [right; left; reflexivity|].
  vm_compute. reflexivity.
Defined.

(** ** The validator, continued *)

Lemma find_app_first {A} (f : A -> bool) l1 l2 :
  List.find f (l1 ++ l2)
  = match List.find f l1 with Some x => Some x | None => List.find f l2 end.
Proof.
  induction l1 as [|x l1 IH]; simpl; [reflexivity|].
  destruct (f x); [reflexivity|exact IH].
Qed.

Lemma str_eqb_refl a : str_eqb a a = true.
Proof. apply str_eqb_eq. reflexivity. Qed.

Lemma str_eqb_neq a b : a <> b -> str_eqb a b = false.
Proof.
  intros H. destruct (str_eqb a b) eqn:E; [|reflexivity].
  apply str_eqb_eq in E. contradiction.
Qed.

Lemma first_named_snoc name before m :
  first_named name (before ++ [m])
  = match first_named name before with
    | Some x => Some x
    | None => if str_eqb (Schema.canonical_name m) name then Some m else None
    end.
Proof. unfold first_named. rewrite find_app_first. reflexivity. Qed.

Lemma first_named_none name before :
  first_named name before = None <->
  ~ In name (List.map Schema.canonical_name before).
Proof.
  unfold first_named. induction before as [|m before IH]; simpl.
  - tauto.
  - destruct (str_eqb (Schema.canonical_name m) name) eqn:E.
    + apply str_eqb_eq in E. split; [discriminate|]. intros H. exfalso. auto.
    + rewrite IH. split; [|tauto]. intros H [Heq|Hin]; [|tauto].
      rewrite Heq, str_eqb_refl in E. discriminate.
Qed.

(** The loop of the duplicate check, for a [seen] that holds the first
    raw label of every name of [before]. *)
Lemma check_duplicates_from_spec cfg seen before ms r :
  (forall k, seen !! k = Schema.raw_label <$> first_named k before) ->
  Validator._check_duplicates_from cfg seen ms r
  = if Config.error_on_duplicate cfg
    then {| Validator.errors := Validator.errors r ++ duplicate_msgs before ms;
            Validator.warnings := Validator.warnings r |}
    else {| Validator.errors := Validator.errors r;
            Validator.warnings := Validator.warnings r ++ duplicate_msgs before ms |}.
Proof.
  revert seen before r. induction ms as [|m ms IH]; intros seen before r Hseen.
  - simpl. rewrite !app_nil_r. destruct r, (Config.error_on_duplicate cfg);
      reflexivity.
  - simpl. rewrite (Hseen (Schema.canonical_name m)).
    destruct (first_named (Schema.canonical_name m) before) as [first|] eqn:E;
      simpl.
    + rewrite (IH seen (before ++ [m])).
      * destruct (Config.error_on_duplicate cfg); simpl;
          rewrite <- app_assoc; reflexivity.
      * intros k. rewrite Hseen, first_named_snoc.
        destruct (first_named k before) as [x|] eqn:Ek; [reflexivity|].
        destruct (str_eqb (Schema.canonical_name m) k) eqn:Em; [|reflexivity].
        apply str_eqb_eq in Em. congruence.
    + rewrite (IH _ (before ++ [m])); [reflexivity|].
      intros k. rewrite first_named_snoc.
      destruct (decide (Schema.canonical_name m = k)) as [<-|Hne].
      * rewrite lookup_insert_eq, E, str_eqb_refl. reflexivity.
      * rewrite lookup_insert_ne by exact Hne. rewrite Hseen.
        rewrite (str_eqb_neq _ _ Hne).
        destruct (first_named k before); reflexivity.
Qed.

Lemma duplicate_msgs_nil before ms :
  duplicate_msgs before ms = [] <->
  (forall m, In m ms ->
     ~ In (Schema.canonical_name m) (List.map Schema.canonical_name before)) /\
  NoDup (List.map Schema.canonical_name ms).
Proof.
  revert before. induction ms as [|m ms IH]; intros before; simpl.
  - split; [|reflexivity]. intros _. split; [tauto|constructor].
  - rewrite NoDup_cons, list_elem_of_In.
    destruct (first_named (Schema.canonical_name m) before) as [first|] eqn:E.
    + split; [discriminate|]. intros [H _]. exfalso.
      assert (Hn : first_named (Schema.canonical_name m) before <> None)
        by congruence.
      apply Hn, first_named_none, H. auto.
    + apply first_named_none in E. simpl. rewrite IH.
      rewrite List.map_app. simpl. split.
      * intros [H1 H2]. split; [|split; [|exact H2]].
        -- intros m' [<-|Hin]; [exact E|].
           intros Hb. apply (H1 m' Hin), in_or_app. auto.
        -- intros Hin. apply in_map_iff in Hin. destruct Hin as (m' & Hn & Hin).
           apply (H1 m' Hin), in_or_app. right. left. symmetry. exact Hn.
      * intros [H1 [H2 H3]]. split; [|exact H3].
        intros m' Hin Hb. apply in_app_or in Hb. destruct Hb as [Hb|[Hb|[]]].
        -- apply (H1 m'); auto.
        -- apply H2. rewrite Hb. apply in_map. exact Hin.
Qed.

Lemma check_required_fields_spec cfg ms r :
  Validator._check_required_fields cfg ms r
  = {| Validator.errors :=
         Validator.errors r ++ List.map missing_msg (missing_required cfg ms);
       Validator.warnings := Validator.warnings r |}.
Proof.
  unfold Validator._check_required_fields, missing_required.
  assert (H : forall reqs r0,
    fold_left
      (fun r1 req =>
         if existsb (str_eqb req) (List.map Schema.canonical_name ms) then r1
         else Validator.add_error
                [T (u "Required field missing: '"); T req; T (u "'")] r1)
      reqs r0
    = {| Validator.errors :=
           Validator.errors r0 ++
           List.map missing_msg
             (List.filter
                (fun req => negb (existsb (str_eqb req)
                                    (List.map Schema.canonical_name ms))) reqs);
         Validator.warnings := Validator.warnings r0 |}).
  { induction reqs as [|req reqs IH]; intros r0; simpl.
    - rewrite app_nil_r. destruct r0; reflexivity.
    - rewrite IH.
      destruct (existsb (str_eqb req) (List.map Schema.canonical_name ms));
        simpl; [reflexivity|]. rewrite <- app_assoc. reflexivity. }
  destruct (Config.required_fields cfg) as [|req reqs] eqn:E.
  - simpl. rewrite app_nil_r. destruct r; reflexivity.
  - apply H.
Qed.

Lemma missing_required_nil cfg ms :
  missing_required cfg ms = [] <->
  forall req, In req (Config.required_fields cfg) ->
              In req (List.map Schema.canonical_name ms).
Proof.
  unfold missing_required.
  induction (Config.required_fields cfg) as [|req reqs IH]; simpl.
  - tauto.
  - destruct (existsb (str_eqb req) (List.map Schema.canonical_name ms)) eqn:E;
      simpl.
    + rewrite IH. apply existsb_exists in E. destruct E as (x & Hx & Hxe).
      apply str_eqb_eq in Hxe. subst x.
      split; [intros H r [<-|Hr]; auto|auto].
    + split; [discriminate|]. intros H. exfalso.
      assert (Hin : In req (List.map Schema.canonical_name ms)) by auto.
      assert (Ht : existsb (str_eqb req) (List.map Schema.canonical_name ms) = true).
      { apply existsb_exists. exists req. split; [exact Hin|apply str_eqb_refl]. }
      congruence.
Qed.

(** X11.  The duplicate check adds one message for each mapping whose
    canonical name an earlier mapping of the list has, naming the raw
    label of the first mapping with that name; the messages go to
    [errors] when [error_on_duplicate] is set and to [warnings] when it
    is not, and there is none exactly when the canonical names are
    pairwise distinct. *)
Theorem check_duplicates_spec (cfg : Config.ValidationConfig)
  (ms : list Schema.MappingResult) (r : Validator.ValidationReport) :
  Validator._check_duplicates cfg ms r
  = (if Config.error_on_duplicate cfg
     then {| Validator.errors := Validator.errors r ++ duplicate_msgs [] ms;
             Validator.warnings := Validator.warnings r |}
     else {| Validator.errors := Validator.errors r;
             Validator.warnings := Validator.warnings r ++ duplicate_msgs [] ms |}) /\
  (duplicate_msgs [] ms = [] <-> NoDup (List.map Schema.canonical_name ms)) /\
  (forall before m after first,
     ms = before ++ m :: after ->
     first_named (Schema.canonical_name m) before = Some first ->
     In (duplicate_msg (Schema.raw_label first) m) (duplicate_msgs [] ms)).
Proof.
  split; [|split].
  - apply check_duplicates_from_spec. intros k. rewrite lookup_empty. reflexivity.
  - rewrite duplicate_msgs_nil. simpl. tauto.
  - intros before m after first -> Hfirst.
    assert (H : forall b0 before0,
      first_named (Schema.canonical_name m) (b0 ++ before0) = Some first ->
      In (duplicate_msg (Schema.raw_label first) m)
         (duplicate_msgs b0 (before0 ++ m :: after))).
    { intros b0 before0. revert b0.
      induction before0 as [|x before0 IH]; intros b0 H; simpl.
      - rewrite app_nil_r in H. rewrite H. left. reflexivity.
      - apply in_or_app. right. apply IH. rewrite <- app_assoc. exact H. }
    apply (H [] before). exact Hfirst.
Qed.

Lemma validate_errors_eq cfg ms report :
  Validator.validate cfg ms = Ok report ->
  Validator.errors report
  = (if Config.error_on_duplicate cfg then duplicate_msgs [] ms else [])
    ++ List.map missing_msg (missing_required cfg ms)
    ++ value_errors ms.
Proof.
  intros H. unfold Validator.validate in H. apply check_values_errors in H.
  rewrite check_required_fields_spec in H. simpl in H.
  unfold Validator._check_duplicates in H.
  rewrite (check_duplicates_from_spec cfg ∅ [] ms) in H
    by (intros k; rewrite lookup_empty; reflexivity).
  rewrite H. destruct (Config.error_on_duplicate cfg); simpl;
    rewrite <- ?app_assoc; reflexivity.
Qed.

Lemma validate_errors_nil cfg ms report :
  Validator.validate cfg ms = Ok report ->
  (Validator.errors report = [] <->
   (Config.error_on_duplicate cfg = true ->
    NoDup (List.map Schema.canonical_name ms)) /\
   (forall req, In req (Config.required_fields cfg) ->
                In req (List.map Schema.canonical_name ms)) /\
   value_errors ms = []).
Proof.
  intros H. rewrite (validate_errors_eq cfg ms report H).
  assert (Hd : duplicate_msgs [] ms = [] <->
               NoDup (List.map Schema.canonical_name ms))
    by (rewrite duplicate_msgs_nil; simpl; tauto).
  pose proof (missing_required_nil cfg ms) as Hm.
  split.
  - intros Happ. apply List.app_eq_nil in Happ. destruct Happ as [H1 H2].
    apply List.app_eq_nil in H2. destruct H2 as [H2 H3].
    split; [|split; [|exact H3]].
    + intros Ht. rewrite Ht in H1. apply Hd, H1.
    + apply Hm. destruct (missing_required cfg ms); [reflexivity|discriminate].
  - intros (H1 & H2 & H3). rewrite H3. apply Hm in H2. rewrite H2. simpl.
    destruct (Config.error_on_duplicate cfg); [|reflexivity].
    rewrite (proj2 Hd (H1 eq_refl)). reflexivity.
Qed.

(** X12.  When [validate] returns, [errors] is, in this order: the
    duplicate messages if [error_on_duplicate] is set, one message for
    each required field no mapping has, and one message for each NaN or
    infinite value.  So the report is valid exactly when the canonical
    names are pairwise distinct or duplicates are not errors, every
    required field is mapped, and no value is NaN or infinite. *)
Theorem validate_errors_spec (cfg : Config.ValidationConfig)
  (ms : list Schema.MappingResult) (report : Validator.ValidationReport) :
  Validator.validate cfg ms = Ok report ->
  Validator.errors report
  = (if Config.error_on_duplicate cfg then duplicate_msgs [] ms else [])
    ++ List.map missing_msg (missing_required cfg ms)
    ++ value_errors ms /\
  (Validator.is_valid report = true <->
   (Config.error_on_duplicate cfg = true ->
    NoDup (List.map Schema.canonical_name ms)) /\
   (forall req, In req (Config.required_fields cfg) ->
                In req (List.map Schema.canonical_name ms)) /\
   value_errors ms = []).
Proof.
  intros H. split; [apply validate_errors_eq, H|].
  unfold Validator.is_valid. rewrite Nat.eqb_eq, length_zero_iff_nil.
  apply validate_errors_nil, H.
Qed.

Lemma validate_errors_spec_witness :
  exists report,
    Validator.validate Config.default_ValidationConfig (firstn 1 nan_and_huge_int)
      = Ok report /\
    Validator.is_valid report = false.
Proof.
  destruct (Validator.validate Config.default_ValidationConfig
              (firstn 1 nan_and_huge_int)) as [report|e] eqn:E;
    [|exfalso; vm_compute in E; discriminate].
  exists report. split; [reflexivity|].
  destruct (validate_errors_spec Config.default_ValidationConfig
              (firstn 1 nan_and_huge_int) report E) as [_ Hvalid].
  destruct (Validator.is_valid report); [|reflexivity].
  destruct (proj1 Hvalid eq_refl) as (_ & _ & Hv). vm_compute in Hv. discriminate.
Defined.

Lemma odict_set_keys {K V} `{EqDecision K} (k : K) (v : V) (d : list (K * V)) :
  (In k (ODict.keys d) /\ ODict.keys (ODict.set k v d) = ODict.keys d) \/
  (~ In k (ODict.keys d) /\ ODict.keys (ODict.set k v d) = ODict.keys d ++ [k]).
Proof.
  induction d as [|[k' v'] d IH]; simpl; [right; tauto|].
  destruct (decide (k = k')) as [->|Hne]; simpl; [left; auto|].
  destruct IH as [[Hin ->]|[Hnin ->]]; [left; auto|right].
  split; [|reflexivity]. intros [H|H]; [congruence|tauto].
Qed.

Lemma odict_set_keys_nodup {K V} `{EqDecision K} (k : K) (v : V) (d : list (K * V)) :
  NoDup (ODict.keys d) -> NoDup (ODict.keys (ODict.set k v d)).
Proof.
  intros H. destruct (odict_set_keys k v d) as [[_ ->]|[Hnin ->]]; [exact H|].
  apply NoDup_app. split; [exact H|]. split; [|apply NoDup_singleton].
  intros x Hx Hk. apply list_elem_of_In in Hx.
  apply list_elem_of_In in Hk. destruct Hk as [->|[]]. tauto.
Qed.

Lemma odict_fold_keys_nodup {K V A} `{EqDecision K} (f : A -> K) (g : A -> V)
  (l : list A) (d : list (K * V)) :
  NoDup (ODict.keys d) ->
  NoDup (ODict.keys (fold_left (fun d x => ODict.set (f x) (g x) d) l d)).
Proof.
  revert d. induction l as [|x l IH]; intros d H; simpl; [exact H|].
  apply IH, odict_set_keys_nodup, H.
Qed.

(** ** The fuzzy matcher, continued *)

Lemma odict_get_in {K V} `{EqDecision K} (k : K) (v : V) (d : list (K * V)) :
  ODict.get k d = Some v -> In (k, v) d.
Proof.
  induction d as [|[k' v'] d IH]; simpl; [discriminate|].
  destruct (decide (k = k')) as [->|_].
  - intros H. injection H as ->. auto.
  - auto.
Qed.

Lemma odict_set_in {K V} `{EqDecision K} (k k0 : K) (v v0 : V) (d : list (K * V)) :
  In (k0, v0) (ODict.set k v d) -> (k0, v0) = (k, v) \/ In (k0, v0) d.
Proof.
  induction d as [|[k' v'] d IH]; simpl.
  - intros [H|[]]. auto.
  - destruct (decide (k = k')) as [->|_]; simpl.
    + intros [H|H]; auto.
    + intros [H|H]; auto. apply IH in H. tauto.
Qed.

Section FuzzyMore.
Context {R : Runtime}.

Lemma fold_targets_in (names : list (list N)) (d : list (list N * list N)) k v :
  In (k, v) (fold_left (fun d name => ODict.set (lower name) name d) names d) ->
  In (k, v) d \/ (In v names /\ k = lower v).
Proof.
  revert d. induction names as [|x names IH]; intros d; simpl; auto.
  intros H. apply IH in H. destruct H as [H|[H1 H2]]; auto.
  apply odict_set_in in H. destruct H as [H|H]; auto.
  injection H as -> ->. auto.
Qed.

(** The pool holds canonical names and extra targets only, each under
    its lower-cased form. *)
Lemma targets_in_vocabulary cfg extra key name :
  ODict.get key (FuzzyMatcher._targets (FuzzyMatcher.__init__ cfg extra))
  = Some name ->
  (Schema.canonical_name_in name = true \/ In name (default [] extra)) /\
  key = lower name.
Proof.
  intros H. apply odict_get_in in H. unfold FuzzyMatcher.__init__ in H.
  simpl in H.
  assert (Hc : forall k v,
    In (k, v) (fold_left (fun d name => ODict.set (lower name) name d)
                 (set_iteration Schema.CANONICAL_NAMES) []) ->
    Schema.canonical_name_in v = true /\ k = lower v).
  { intros k v Hin. apply fold_targets_in in Hin.
    destruct Hin as [[]|[Hin Hk]]. split; [|exact Hk].
    apply (Permutation_in _ (set_iteration_perm _)) in Hin.
    unfold Schema.canonical_name_in. apply existsb_exists.
    exists v. split; [exact Hin|apply str_eqb_eq; reflexivity]. }
  destruct extra as [ts|]; simpl in *.
  - apply fold_targets_in in H. destruct H as [H|[H1 H2]]; [|auto].
    apply Hc in H. tauto.
  - apply Hc in H. tauto.
Qed.

(** X13.  A candidate of a matcher built by [__init__] names a canonical
    field or one of the extra targets, its score is the ratio between
    the label and the lower-cased name, and the label is not empty. *)
Theorem fuzzy_candidate_in_pool (cfg : Config.MatchingConfig)
  (extra : option (list (list N))) (label : list N)
  (c : FuzzyMatcher.FuzzyCandidate) :
  FuzzyMatcher.match_ (FuzzyMatcher.__init__ cfg extra) label = Ok (Some c) ->
  label <> [] /\
  (Schema.canonical_name_in (FuzzyMatcher.canonical_name c) = true \/
   In (FuzzyMatcher.canonical_name c) (default [] extra)) /\
  FuzzyMatcher.score c
  = token_sort_ratio label (lower (FuzzyMatcher.canonical_name c)).
Proof.
  intros H. split.
  - intros ->. discriminate.
  - destruct (fuzzy_match_cases cfg extra label) as (_ & Hc & _).
    destruct (Hc c H) as (_ & (key & _ & Hs & Hget) & _).
    apply targets_in_vocabulary in Hget. destruct Hget as [Hv ->]. auto.
Qed.

Lemma odict_get_set_eq {K V} `{EqDecision K} (k : K) (v : V) (d : list (K * V)) :
  ODict.get k (ODict.set k v d) = Some v.
Proof.
  induction d as [|[k' v'] d IH]; simpl.
  - destruct (decide (k = k)); congruence.
  - destruct (decide (k = k')) as [->|Hne]; simpl.
    + destruct (decide (k' = k')); congruence.
    + destruct (decide (k = k')); [contradiction|exact IH].
Qed.

Lemma odict_get_set_ne {K V} `{EqDecision K} (k k0 : K) (v : V) (d : list (K * V)) :
  k <> k0 -> ODict.get k0 (ODict.set k v d) = ODict.get k0 d.
Proof.
  intros Hne. induction d as [|[k' v'] d IH]; simpl.
  - destruct (decide (k0 = k)); congruence.
  - destruct (decide (k = k')) as [->|Hne']; simpl.
    + destruct (decide (k0 = k')); congruence.
    + destruct (decide (k0 = k')); [reflexivity|exact IH].
Qed.

Lemma match_batch_from_spec cfg extra labels acc :
  let self := FuzzyMatcher.__init__ cfg extra in
  exists d,
    FuzzyMatcher.match_batch_from self labels acc = Ok d /\
    (forall l, In l labels ->
       exists c, FuzzyMatcher.match_ self l = Ok c /\ ODict.get l d = Some c) /\
    (forall l, ~ In l labels -> ODict.get l d = ODict.get l acc) /\
    (forall l, In l (ODict.keys d) -> In l labels \/ In l (ODict.keys acc)) /\
    (NoDup (ODict.keys acc) -> NoDup (ODict.keys d)).
Proof.
  intros self. revert acc. induction labels as [|label labels IH]; intros acc.
  - exists acc. simpl. repeat split; auto. tauto.
  - simpl. destruct (fuzzy_match_cases cfg extra label) as ([c Hc] & _).
    fold self in Hc. rewrite Hc. simpl.
    destruct (IH (ODict.set label c acc)) as (d & Hd & Hin & Hout & Hkeys & Hnd).
    exists d. split; [exact Hd|]. split; [|split; [|split]].
    + intros l [<-|Hl].
      * destruct (decide (label ∈ labels)) as [Hi|Hni];
          rewrite list_elem_of_In in *; [auto|].
        exists c. split; [exact Hc|]. rewrite Hout by exact Hni.
        apply odict_get_set_eq.
      * auto.
    + intros l Hl. rewrite Hout by tauto. apply odict_get_set_ne. tauto.
    + intros l Hl. apply Hkeys in Hl. destruct Hl as [Hl|Hl]; [tauto|].
      destruct (odict_set_keys label c acc) as [[_ E]|[_ E]]; rewrite E in Hl.
      * tauto.
      * apply in_app_or in Hl. destruct Hl as [Hl|[Hl|[]]]; auto.
    + intros H. apply Hnd, odict_set_keys_nodup, H.
Qed.

(** X14.  [match_batch] on a matcher built by [__init__] returns a dict
    that holds, for every label of the list, what [match] returns on it;
    its keys are labels of the list, each once. *)
Theorem match_batch_spec (cfg : Config.MatchingConfig)
  (extra : option (list (list N))) (labels : list (list N)) :
  let self := FuzzyMatcher.__init__ cfg extra in
  exists d,
    FuzzyMatcher.match_batch self labels = Ok d /\
    (forall l, In l labels ->
       exists c, FuzzyMatcher.match_ self l = Ok c /\ ODict.get l d = Some c) /\
    (forall l, In l (ODict.keys d) -> In l labels) /\
    NoDup (ODict.keys d).
Proof.
  intros self.
  destruct (match_batch_from_spec cfg extra labels []) as (d & Hd & Hin & _ & Hk & Hnd).
  exists d. split; [exact Hd|]. split; [exact Hin|]. split.
  - intros l Hl. apply Hk in Hl. destruct Hl as [Hl|[]]. exact Hl.
  - apply Hnd. constructor.
Qed.

End FuzzyMore.

Lemma fuzzy_candidate_in_pool_witness :
  exists c,
    FuzzyMatcher.match_ (R := ascii_runtime)
      (FuzzyMatcher.__init__ (R := ascii_runtime)
         Config.default_MatchingConfig None)
      (u "net profit") = Ok (Some c) /\
    Schema.canonical_name_in (FuzzyMatcher.canonical_name c) = true.
Proof.
  destruct (FuzzyMatcher.match_ (R := ascii_runtime)
              (FuzzyMatcher.__init__ (R := ascii_runtime)
                 Config.default_MatchingConfig None)
              (u "net profit")) as [[c|]|e] eqn:E;
    try (exfalso; vm_compute in E; discriminate).
  exists c. split; [reflexivity|].
  destruct (fuzzy_candidate_in_pool (R := ascii_runtime)
              Config.default_MatchingConfig None (u "net profit") c E)
    as (_ & [H|[]] & _).
  exact H.
Defined.

Section FuzzyAmbiguity.
Context {R : Runtime}.

Lemma init_keys_nodup cfg extra :
  NoDup (FuzzyMatcher._target_keys (FuzzyMatcher.__init__ cfg extra)).
Proof.
  unfold FuzzyMatcher.__init__. simpl.
  destruct extra as [ts|].
  - apply (odict_fold_keys_nodup lower (fun x => x)).
    apply (odict_fold_keys_nodup lower (fun x => x)). constructor.
  - apply (odict_fold_keys_nodup lower (fun x => x)). constructor.
Qed.

(** The candidate [match] returns, read off the sorted scores. *)
Lemma match_sorted self label c :
  FuzzyMatcher.match_ self label = Ok (Some c) ->
  exists bk i rest0,
    fold_right FuzzyMatcher.insert_by_score []
      (imap (fun i c => (c, token_sort_ratio label c, i))
         (FuzzyMatcher._target_keys self))
    = (bk, FuzzyMatcher.score c, i) :: rest0 /\
    FuzzyMatcher.is_ambiguous c
    = match rest0 with
      | (_, second_score, _) :: _ =>
          Qle_bool (float_round (FuzzyMatcher.score c - second_score))
            (Config.fuzzy_ambiguity_delta (FuzzyMatcher._config self))
      | [] => false
      end.
Proof.
  unfold FuzzyMatcher.match_, FuzzyMatcher.extract.
  destruct label as [|ch label]; [discriminate|].
  set (q := ch :: label).
  destruct (fold_right FuzzyMatcher.insert_by_score [] _)
    as [|[[bk s] i] rest0]; [discriminate|].
  cbn [firstn].
  destruct (FuzzyMatcher.Qltb s _); [discriminate|].
  destruct (ODict.get bk _) as [canonical|]; [|discriminate].
  intros H. injection H as <-. simpl. exists bk, i, rest0.
  split; [reflexivity|]. destruct rest0 as [|[[k2 s2] i2] rest1]; reflexivity.
Qed.

(** X15.  A candidate of a matcher built by [__init__] is flagged ambiguous
    exactly when two different pool keys are involved, one that reaches
    the candidate's score and another whose score, subtracted from the
    candidate's as floats are (the difference rounded), leaves at most
    [fuzzy_ambiguity_delta]. *)
Theorem ambiguity_flag_spec (cfg : Config.MatchingConfig)
  (extra : option (list (list N))) (label : list N)
  (c : FuzzyMatcher.FuzzyCandidate) :
  let self := FuzzyMatcher.__init__ cfg extra in
  FuzzyMatcher.match_ self label = Ok (Some c) ->
  (FuzzyMatcher.is_ambiguous c = true <->
   exists k1 k2,
     k1 <> k2 /\
     In k1 (FuzzyMatcher._target_keys self) /\
     In k2 (FuzzyMatcher._target_keys self) /\
     (FuzzyMatcher.score c <= token_sort_ratio label k1)%Q /\
     (float_round (FuzzyMatcher.score c - token_sort_ratio label k2)
      <= Config.fuzzy_ambiguity_delta cfg)%Q).
Proof.
  intros self Hm.
  pose proof (init_keys_nodup cfg extra) as Hnd. fold self in Hnd.
  destruct (match_sorted self label c Hm) as (bk & i & rest0 & Hsort & Hamb).
  set (keys := FuzzyMatcher._target_keys self) in *.
  set (scored := imap (fun i c => (c, token_sort_ratio label c, i)) keys) in *.
  pose proof (sort_by_score_perm scored) as Hperm.
  pose proof (sort_by_score_descending scored) as Hdesc.
  rewrite Hsort in Hperm, Hdesc.
  assert (Hin : forall y, In y scored ->
            exists j k, keys !! j = Some k /\ y = (k, token_sort_ratio label k, j)).
  { intros y Hy. apply list_elem_of_In, elem_of_lookup_imap in Hy.
    destruct Hy as (j & k & -> & Hk). eauto. }
  assert (Hall : forall k, In k keys ->
            exists j, In (k, token_sort_ratio label k, j) scored).
  { intros k Hk. apply list_elem_of_In, list_elem_of_lookup in Hk.
    destruct Hk as [j Hj]. exists j. apply list_elem_of_In, elem_of_lookup_imap.
    exists j, k. auto. }
  assert (Hnds : NoDup scored).
  { unfold scored. apply NoDup_alt. intros j1 j2 y H1 H2.
    rewrite list_lookup_imap in H1, H2.
    destruct (keys !! j1) as [k1|] eqn:E1; [|discriminate].
    destruct (keys !! j2) as [k2|] eqn:E2; [|discriminate].
    simpl in H1, H2. congruence. }
  assert (Hnd2 : NoDup ((bk, FuzzyMatcher.score c, i) :: rest0)).
  { rewrite Hperm. exact Hnds. }
  assert (Hdelta : Config.fuzzy_ambiguity_delta (FuzzyMatcher._config self)
                   = Config.fuzzy_ambiguity_delta cfg).
  { unfold self, FuzzyMatcher.__init__. reflexivity. }
  rewrite Hdelta in Hamb.
  inversion Hdesc as [|? ? Hdesc' Hhead]; subst.
  rewrite Hamb. split.
  - destruct rest0 as [|[[k2 s2] i2] rest1]; [discriminate|].
    intros Hle. apply Qle_bool_iff in Hle.
    destruct (Hin (bk, FuzzyMatcher.score c, i)) as (j1 & k1 & Hk1 & E1).
    { apply (Permutation_in _ Hperm). left. reflexivity. }
    destruct (Hin (k2, s2, i2)) as (j2 & k2' & Hk2 & E2).
    { apply (Permutation_in _ Hperm). right. left. reflexivity. }
    injection E1 as -> Hs1 ->. injection E2 as -> -> ->.
    exists k1, k2'. split; [|split; [|split; [|split]]].
    + intros ->. apply NoDup_cons in Hnd2. destruct Hnd2 as [Hnot _].
      assert (j1 = j2) by exact (NoDup_lookup keys j1 j2 _ Hnd Hk1 Hk2). subst j2.
      apply Hnot, list_elem_of_In. left. rewrite Hs1. reflexivity.
    + apply list_elem_of_In. eapply list_elem_of_lookup_2, Hk1.
    + apply list_elem_of_In. eapply list_elem_of_lookup_2, Hk2.
    + rewrite Hs1. apply Qle_refl.
    + exact Hle.
  - intros (k1 & k2 & Hne & Hk1 & Hk2 & Hbest & Hclose).
    destruct (Hall k1 Hk1) as [j1 Hj1]. destruct (Hall k2 Hk2) as [j2 Hj2].
    apply (Permutation_in _ (Permutation_sym Hperm)) in Hj1, Hj2.
    assert (Htail : forall y, In y rest0 ->
              match rest0 with
              | (_, second_score, _) :: _ => (score_of y <= second_score)%Q
              | [] => False
              end).
    { intros y Hy. destruct rest0 as [|[[k' s'] i'] rest1]; [destruct Hy|].
      destruct Hy as [<-|Hy]; [apply Qle_refl|].
      inversion Hdesc' as [|? ? _ Hfa]; subst.
      apply (proj1 (List.Forall_forall _ _) Hfa) in Hy. exact Hy. }
    assert (Hsecond :
      match rest0 with
      | (_, second_score, _) :: _ => (token_sort_ratio label k2 <= second_score)%Q
      | [] => False
      end).
    { destruct Hj2 as [Hj2|Hj2].
      - destruct Hj1 as [Hj1|Hj1]; [congruence|].
        apply Htail in Hj1. destruct rest0 as [|[[k' s'] i'] rest1]; [exact Hj1|].
        unfold score_of in Hj1. simpl in Hj1. injection Hj2 as _ Hs2 _.
        rewrite <- Hs2. eapply Qle_trans; [exact Hbest|exact Hj1].
      - apply Htail in Hj2. destruct rest0 as [|[[k' s'] i'] rest1]; [exact Hj2|].
        exact Hj2. }
    destruct rest0 as [|[[k' s'] i'] rest1]; [destruct Hsecond|].
    apply Qle_bool_iff. eapply Qle_trans; [|exact Hclose].
    apply float_round_le. unfold Qminus. apply Qplus_le_r, Qopp_le_compat, Hsecond.
Qed.

End FuzzyAmbiguity.

Lemma ambiguity_flag_spec_witness :
  exists c,
    FuzzyMatcher.match_ (R := ascii_runtime)
      (FuzzyMatcher.__init__ (R := ascii_runtime) accept_all_MatchingConfig None)
      (u "zzz") = Ok (Some c) /\
    FuzzyMatcher.is_ambiguous c = true /\
    exists k1 k2 : list N,
      k1 <> k2 /\
      (float_round (Runtime := ascii_runtime)
         (FuzzyMatcher.score c
          - token_sort_ratio (Runtime := ascii_runtime) (u "zzz") k2) <= 5)%Q.
Proof.
  destruct (FuzzyMatcher.match_ (R := ascii_runtime)
              (FuzzyMatcher.__init__ (R := ascii_runtime)
                 accept_all_MatchingConfig None)
              (u "zzz")) as [[c|]|e] eqn:E;
    try (exfalso; vm_compute in E; discriminate).
  assert (Ha : FuzzyMatcher.is_ambiguous c = true)
    by (vm_compute in E; injection E as <-; reflexivity).
  exists c. split; [reflexivity|]. split; [exact Ha|].
  destruct (proj1 (ambiguity_flag_spec (R := ascii_runtime)
                     accept_all_MatchingConfig None (u "zzz") c E) Ha)
    as (k1 & k2 & Hne & _ & _ & _ & Hclose).
  exists k1, k2. split; [exact Hne|exact Hclose].
Defined.

(** ** The pipeline, continued *)

Section RunMore.
Context {R : Runtime}.

(** What [_map_single] does with one pair. *)
Lemma map_single_cases self label raw seen res seen' :
  FinancialMappingPipeline._map_single self label raw seen = Ok (res, seen') ->
  exists pv ws,
    Normalizer.normalize_value raw = Ok (pv, ws) /\
    match res with
    | Some m =>
        Schema.raw_label m = label /\
        Schema.mvalue m = FinancialMappingPipeline.of_parsed pv /\
        (from_synonym self m \/ from_fuzzy self m)
    | None => unmatched self label
    end.
Proof.
  unfold FinancialMappingPipeline._map_single, Normalizer.normalize_pair.
  destruct (Normalizer.normalize_value raw) as [[pv ws]|e]; simpl; [|discriminate].
  destruct (SynonymMapper.lookup _ _) as [canonical|] eqn:El.
  - pose proof (build_result_fields canonical label
                  (FinancialMappingPipeline.of_parsed pv) 100 (u "synonym") ws seen) as F.
    destruct (FinancialMappingPipeline._build_result _ _ _ _ _ _ _) as [r0 s0].
    intros H. injection H as <- <-. exists pv, ws. split; [reflexivity|].
    destruct F as (F1 & F2 & F3 & F4 & F5 & _). simpl in F1, F2, F3, F4, F5.
    split; [exact F2|]. split; [exact F3|]. left.
    unfold from_synonym, synonym_of. rewrite F1, F2. auto.
  - destruct (FuzzyMatcher.match_ _ _) as [[c|]|e] eqn:Ef; simpl; [| |discriminate].
    + match goal with
      | |- context [FinancialMappingPipeline._build_result ?a ?b ?c ?d ?e ?f ?g] =>
          pose proof (build_result_fields a b c d e f g) as F;
          destruct (FinancialMappingPipeline._build_result a b c d e f g) as [r0 s0]
      end.
      intros H. injection H as <- <-. exists pv, ws. split; [reflexivity|].
      destruct F as (F1 & F2 & F3 & F4 & F5 & _). simpl in F1, F2, F3, F4, F5.
      split; [exact F2|]. split; [exact F3|]. right.
      unfold from_fuzzy, synonym_of, fuzzy_of. rewrite F2.
      split; [exact F5|]. split; [exact El|]. exists c. auto.
    + destruct (Config.enable_semantic_layer _); simpl;
        intros H; injection H as <- <-; exists pv, ws;
        (split; [reflexivity|split; [exact El|exact Ef]]).
Qed.

Lemma run_loop_classified self pairs acc um seen ms um' :
  FinancialMappingPipeline._run_loop self pairs acc um seen = Ok (ms, um') ->
  exists ms1 um1,
    ms = acc ++ ms1 /\ um' = um ++ um1 /\ classified self pairs ms1 um1.
Proof.
  revert acc um seen. induction pairs as [|[label raw] pairs IH];
    intros acc um seen; simpl.
  - intros H. injection H as <- <-. exists [], [].
    rewrite !app_nil_r. repeat split. constructor.
  - destruct (FinancialMappingPipeline._map_single self label raw seen)
      as [[res seen1]|e] eqn:E; simpl; [|discriminate].
    apply map_single_cases in E. destruct E as (pv & ws & Hv & Hres).
    destruct res as [m|].
    + intros H. apply IH in H. destruct H as (ms1 & um1 & -> & -> & Hc).
      exists (m :: ms1), um1. rewrite <- app_assoc. repeat split.
      destruct Hres as (H1 & H2 & H3). econstructor; eauto.
    + intros H. apply IH in H. destruct H as (ms1 & um1 & -> & -> & Hc).
      exists ms1, ((label, raw) :: um1). rewrite <- app_assoc. repeat split.
      constructor; auto.
Qed.

Lemma run_ok_loop self pairs out :
  FinancialMappingPipeline.map_pairs self pairs = Ok out ->
  FinancialMappingPipeline._run_loop self pairs [] [] ∅
  = Ok (Schema.mappings out, Schema.unmapped out).
Proof.
  unfold FinancialMappingPipeline.map_pairs, FinancialMappingPipeline._run.
  destruct (FinancialMappingPipeline._run_loop self pairs [] [] ∅)
    as [[ms um]|e]; simpl; [|discriminate].
  destruct (Validator.validate _ ms) as [report|e]; simpl; [|discriminate].
  destruct (Config.strict_mode _ && _); [discriminate|].
  intros H. injection H as <-. reflexivity.
Qed.

Lemma run_ok_classified self pairs out :
  FinancialMappingPipeline.map_pairs self pairs = Ok out ->
  classified self pairs (Schema.mappings out) (Schema.unmapped out).
Proof.
  intros H. apply run_ok_loop, run_loop_classified in H.
  destruct H as (ms1 & um1 & -> & -> & Hc). exact Hc.
Qed.

(** X16.  A run loses no pair and invents none: the mappings and the
    unmapped pairs together are as many as the input pairs, the unmapped
    pairs are input pairs with their raw values, in input order, the raw
    labels of the mappings are input labels in input order, and every
    input pair is in one of the two lists. *)
Theorem run_partitions_input (self : FinancialMappingPipeline.t)
  (pairs : list (list N * pyobj)) (out : Schema.PipelineOutput) :
  FinancialMappingPipeline.map_pairs self pairs = Ok out ->
  (List.length (Schema.mappings out) + List.length (Schema.unmapped out)
   = List.length pairs)%nat /\
  sublist (Schema.unmapped out) pairs /\
  sublist (List.map Schema.raw_label (Schema.mappings out)) (List.map fst pairs) /\
  (forall label raw, In (label, raw) pairs ->
     In label (List.map Schema.raw_label (Schema.mappings out)) \/
     In (label, raw) (Schema.unmapped out)).
Proof.
  intros H. apply run_ok_classified in H.
  induction H as [|label raw pv ws m pairs ms um Hl Hv Hm Hc H IH
                  |label raw pairs ms um Hu H IH]; simpl.
  - repeat split; [constructor|constructor|tauto].
  - destruct IH as (I1 & I2 & I3 & I4). split; [lia|].
    split; [apply sublist_cons, I2|]. split; [rewrite Hl; apply sublist_skip, I3|].
    intros l r [E|Hin].
    + injection E as <- <-. auto.
    + destruct (I4 l r Hin); auto.
  - destruct IH as (I1 & I2 & I3 & I4). split; [lia|].
    split; [apply sublist_skip, I2|]. split; [apply sublist_cons, I3|].
    intros l r [E|Hin]; [auto|]. destruct (I4 l r Hin); auto.
Qed.

(** X17.  Every mapping of a run comes from the synonym layer (method
    [synonym], confidence 100, the name the dictionary has for the
    normalised label) or, when the dictionary has nothing, from the fuzzy
    layer (method [fuzzy], name and score of the candidate); its value is
    what [normalize_value] makes of a raw value given with its label.  A
    pair is unmapped exactly because both layers found nothing.  No
    mapping has the method [semantic]. *)
Theorem run_classifies_pairs (self : FinancialMappingPipeline.t)
  (pairs : list (list N * pyobj)) (out : Schema.PipelineOutput) :
  FinancialMappingPipeline.map_pairs self pairs = Ok out ->
  Forall (fun m => (from_synonym self m \/ from_fuzzy self m) /\
                   value_from pairs m /\
                   Schema.match_method m <> u "semantic")
    (Schema.mappings out) /\
  Forall (fun p => unmatched self (fst p)) (Schema.unmapped out).
Proof.
  intros H. apply run_ok_classified in H.
  induction H as [|label raw pv ws m pairs ms um Hl Hv Hm Hc H IH
                  |label raw pairs ms um Hu H IH].
  - split; constructor.
  - destruct IH as [I1 I2]. split; [|exact I2]. constructor.
    + split; [exact Hc|]. split.
      * exists raw, pv, ws. rewrite Hl. simpl. auto.
      * destruct Hc as [(E & _)|(E & _)]; rewrite E; vm_compute; discriminate.
    + eapply List.Forall_impl; [|exact I1]. intros m' (A & (r & p & w & B1 & B2) & C).
      split; [exact A|]. split; [|exact C]. exists r, p, w. simpl. auto.
  - destruct IH as [I1 I2]. split.
    + eapply List.Forall_impl; [|exact I1]. intros m' (A & (r & p & w & B1 & B2) & C).
      split; [exact A|]. split; [|exact C]. exists r, p, w. simpl. auto.
    + constructor; [exact Hu|exact I2].
Qed.

Lemma map_single_semantic_inert b self label raw seen :
  FinancialMappingPipeline._map_single (with_semantic_layer b self) label raw seen
  = FinancialMappingPipeline._map_single self label raw seen.
Proof.
  unfold FinancialMappingPipeline._map_single. simpl.
  destruct (Normalizer.normalize_pair label raw) as [[[nl v] ws]|e]; simpl;
    [|reflexivity].
  destruct (SynonymMapper.lookup _ _); [reflexivity|].
  destruct (FuzzyMatcher.match_ _ _) as [[c|]|e]; simpl; try reflexivity.
  destruct b, (Config.enable_semantic_layer _); reflexivity.
Qed.

Lemma run_loop_semantic_inert b self pairs acc um seen :
  FinancialMappingPipeline._run_loop (with_semantic_layer b self) pairs acc um seen
  = FinancialMappingPipeline._run_loop self pairs acc um seen.
Proof.
  revert acc um seen. induction pairs as [|[label raw] pairs IH];
    intros acc um seen; [reflexivity|].
  cbn [FinancialMappingPipeline._run_loop].
  rewrite map_single_semantic_inert.
  destruct (FinancialMappingPipeline._map_single self label raw seen)
    as [[[m|] seen1]|e]; simpl; auto.
Qed.

(** X18.  The flag [enable_semantic_layer] changes nothing: with the flag
    set or cleared, a pipeline gives the same result, or raises the same
    exception, as without the change. *)
Theorem semantic_layer_inert (b : bool) (self : FinancialMappingPipeline.t)
  (pairs : list (list N * pyobj)) :
  FinancialMappingPipeline.map_pairs (with_semantic_layer b self) pairs
  = FinancialMappingPipeline.map_pairs self pairs /\
  FinancialMappingPipeline.map_dict (with_semantic_layer b self) pairs
  = FinancialMappingPipeline.map_dict self pairs.
Proof.
  assert (H : FinancialMappingPipeline._run (with_semantic_layer b self) pairs
              = FinancialMappingPipeline._run self pairs).
  { unfold FinancialMappingPipeline._run. rewrite run_loop_semantic_inert.
    reflexivity. }
  split; exact H.
Qed.

End RunMore.

Lemma run_partitions_input_witness :
  in_every_runtime (fun R =>
    exists out,
      FinancialMappingPipeline.map_pairs builtin_pipeline
        [(u "Profit After Tax", PInt 500000)] = Ok out /\
      (List.length (Schema.mappings out) + List.length (Schema.unmapped out)
       = 1)%nat).
Proof.
  intros R.
  destruct (FinancialMappingPipeline.map_pairs builtin_pipeline
              [(u "Profit After Tax", PInt 500000)]) as [out|e] eqn:E;
    [|exfalso; vm_compute in E; discriminate].
  exists out. split; [reflexivity|].
  exact (proj1 (run_partitions_input builtin_pipeline _ out E)).
Defined.

Lemma run_classifies_pairs_witness :
  in_every_runtime (fun R =>
    exists out,
      FinancialMappingPipeline.map_pairs builtin_pipeline
        [(u "Profit After Tax", PInt 500000)] = Ok out /\
      Forall (fun m => (from_synonym builtin_pipeline m \/
                        from_fuzzy builtin_pipeline m) /\
                       value_from [(u "Profit After Tax", PInt 500000)] m /\
                       Schema.match_method m <> u "semantic")
        (Schema.mappings out) /\
      Forall (fun p => unmatched builtin_pipeline (fst p)) (Schema.unmapped out)).
Proof.
  intros R.
  destruct (FinancialMappingPipeline.map_pairs builtin_pipeline
              [(u "Profit After Tax", PInt 500000)]) as [out|e] eqn:E;
    [|exfalso; vm_compute in E; discriminate].
  exists out. split; [reflexivity|].
  exact (run_classifies_pairs builtin_pipeline _ out E).
Defined.

Section VocabularyMore.
Context {R : Runtime}.

Lemma synonym_init_cases extra d :
  SynonymMapper.__init__ extra = Ok d ->
  d = builtin_dict \/
  exists mapping, SynonymMapper.add_synonyms builtin_dict mapping = Ok d.
Proof.
  destruct extra as [[|x xs]|].
  - change (Ok builtin_dict = Ok d -> d = builtin_dict \/
            exists mapping, SynonymMapper.add_synonyms builtin_dict mapping = Ok d).
    intros H. left. congruence.
  - change (SynonymMapper.add_synonyms builtin_dict (x :: xs) = Ok d ->
            d = builtin_dict \/
            exists mapping, SynonymMapper.add_synonyms builtin_dict mapping = Ok d).
    eauto.
  - change (Ok builtin_dict = Ok d -> d = builtin_dict \/
            exists mapping, SynonymMapper.add_synonyms builtin_dict mapping = Ok d).
    intros H. left. congruence.
Qed.

Lemma init_synonyms_known config extra p :
  FinancialMappingPipeline.__init__ config extra = Ok p ->
  forall k v, FinancialMappingPipeline._synonyms p !! k = Some v -> known_target v.
Proof.
  unfold FinancialMappingPipeline.__init__.
  destruct (SynonymMapper.__init__ extra) as [d|e] eqn:Ed;
    cbn [mbind result_bind Py.bind]; [|discriminate].
  assert (Hd : forall k v, d !! k = Some v -> known_target v).
  { apply synonym_init_cases in Ed. destruct Ed as [->|[mapping Ed]].
    - exact builtin_values_known.
    - intros k v Hk. destruct (add_synonyms_values _ _ _ k v Ed Hk) as [H|H].
      + exact (builtin_values_known k v H).
      + left. exact H. }
  clear Ed.
  destruct (Config.custom_synonym_path _) as [data|];
    cbn [mbind result_bind Py.bind].
  - unfold SynonymMapper.load_custom_synonyms.
    destruct (SynonymMapper.add_synonyms d data) as [d'|e] eqn:E;
      cbn [mbind result_bind Py.bind]; [|discriminate].
    intros H. injection H as <-. cbn [FinancialMappingPipeline._synonyms].
    intros k v Hk.
    destruct (add_synonyms_values _ _ _ k v E Hk) as [H|H]; [eauto|left; exact H].
  - intros H. injection H as <-. exact Hd.
Qed.

Lemma init_config config extra p :
  FinancialMappingPipeline.__init__ config extra = Ok p ->
  FinancialMappingPipeline._config p = default Config.default_PipelineConfig config.
Proof.
  unfold FinancialMappingPipeline.__init__.
  destruct (SynonymMapper.__init__ extra) as [d|e]; simpl; [|discriminate].
  destruct (Config.custom_synonym_path _) as [data|]; simpl.
  - destruct (SynonymMapper.load_custom_synonyms d data) as [[d' n]|e]; simpl;
      [|discriminate].
    intros H. injection H as <-. reflexivity.
  - intros H. injection H as <-. reflexivity.
Qed.

Lemma classified_origin self pairs ms um :
  classified self pairs ms um ->
  Forall (fun m => from_synonym self m \/ from_fuzzy self m) ms.
Proof. induction 1; auto. Qed.

(** X19.  On a pipeline built by [__init__], with any configuration, extra
    synonyms and custom synonyms, every mapping of a run names a
    canonical field or [Short-term Borrowings], and its confidence is 100
    or at least the configured [fuzzy_threshold]. *)
Theorem run_stays_in_vocabulary (config : option Config.PipelineConfig)
  (extra : option (list (list N * list N))) (p : FinancialMappingPipeline.t)
  (pairs : list (list N * pyobj)) (out : Schema.PipelineOutput) :
  FinancialMappingPipeline.__init__ config extra = Ok p ->
  FinancialMappingPipeline.map_pairs p pairs = Ok out ->
  Forall
    (fun m =>
       known_target (Schema.canonical_name m) /\
       (Schema.confidence m = 100%Q \/
        (Config.fuzzy_threshold
           (Config.matching (default Config.default_PipelineConfig config))
         <= Schema.confidence m)%Q))
    (Schema.mappings out).
Proof.
  intros Hinit Hrun. apply run_ok_classified, classified_origin in Hrun.
  eapply List.Forall_impl; [|exact Hrun]. intros m [Hs|Hf].
  - destruct Hs as (_ & Hc & Hl). split; [|left; exact Hc].
    eapply init_synonyms_known; [exact Hinit|exact Hl].
  - destruct Hf as (_ & _ & c & Hc & Hn & Hs).
    unfold fuzzy_of in Hc. rewrite (init_fuzzy _ _ _ Hinit) in Hc.
    rewrite (init_config _ _ _ Hinit) in Hc.
    destruct (fuzzy_match_cases
                (Config.matching (default Config.default_PipelineConfig config))
                None (Normalizer.normalize_label (Schema.raw_label m)))
      as (_ & Hcases & _).
    destruct (Hcases c Hc) as (Hth & (key & _ & _ & Hget) & _).
    apply targets_in_vocabulary in Hget. destruct Hget as [[Hv|[]] _].
    rewrite Hn, Hs. split; [left; exact Hv|right; exact Hth].
Qed.

End VocabularyMore.

(** ** The views of the output *)




Lemma run_stays_in_vocabulary_witness :
  in_every_runtime (fun R =>
    exists out,
      FinancialMappingPipeline.map_pairs builtin_pipeline
        [(u "Profit After Tax", PInt 500000)] = Ok out /\
      Forall (fun m => known_target (Schema.canonical_name m)) (Schema.mappings out)).
Proof.
  intros R.
  destruct (FinancialMappingPipeline.map_pairs builtin_pipeline
              [(u "Profit After Tax", PInt 500000)]) as [out|e] eqn:E;
    [|exfalso; vm_compute in E; discriminate].
  exists out. split; [reflexivity|].
  eapply List.Forall_impl;
    [|exact (run_stays_in_vocabulary None None builtin_pipeline _ out
               init_default E)].
  intros m [H _]. exact H.
Defined.

Section RunSuccess.
Context {R : Runtime}.

Lemma run_ok_report self pairs out :
  FinancialMappingPipeline.map_pairs self pairs = Ok out ->
  exists report,
    Validator.validate
      (Config.validation (FinancialMappingPipeline._config self))
      (Schema.mappings out) = Ok report /\
    Schema.validation_errors out = Validator.errors report /\
    Schema.validation_warnings out = Validator.warnings report.
Proof.
  unfold FinancialMappingPipeline.map_pairs, FinancialMappingPipeline._run.
  destruct (FinancialMappingPipeline._run_loop self pairs [] [] ∅)
    as [[ms um]|e]; simpl; [|discriminate].
  destruct (Validator.validate _ ms) as [report|e] eqn:E; simpl; [|discriminate].
  destruct (Config.strict_mode _ && _); [discriminate|].
  intros H. injection H as <-. simpl. eauto.
Qed.

Lemma value_errors_parsed ms :
  Forall parsed_value ms ->
  (value_errors ms = [] <->
   forall m f, In m ms -> Schema.mvalue m = PFloat f -> nonfinite f = false).
Proof.
  induction 1 as [|m ms [pv Hm] Hms IH].
  - simpl. split; [intros _ m f []|reflexivity].
  - unfold value_errors. simpl. fold (value_errors ms). rewrite Hm.
    destruct pv as [f|]; simpl.
    + destruct (nonfinite f) eqn:En; simpl.
      * split; [discriminate|]. intros H. exfalso.
        specialize (H m f (or_introl eq_refl)). rewrite Hm in H.
        specialize (H eq_refl). congruence.
      * rewrite IH. split.
        -- intros H m' f' [<-|Hin] Hv; [|eauto].
           rewrite Hm in Hv. simpl in Hv. congruence.
        -- intros H m' f' Hin. apply H. auto.
    + rewrite IH. split.
      * intros H m' f' [<-|Hin] Hv; [|eauto].
        rewrite Hm in Hv. discriminate.
      * intros H m' f' Hin. apply H. auto.
Qed.

(** X21.  What makes a run succeed: [success] is true exactly when the
    canonical names of the mappings are pairwise distinct (or duplicates
    are not errors), every required field has a mapping, and no mapped
    value is NaN or infinite.  With [error_on_duplicate] set, a successful
    run has as many entries in [mapped_dict] as it has mappings. *)
Theorem run_success_spec (self : FinancialMappingPipeline.t)
  (pairs : list (list N * pyobj)) (out : Schema.PipelineOutput) :
  let vcfg := Config.validation (FinancialMappingPipeline._config self) in
  FinancialMappingPipeline.map_pairs self pairs = Ok out ->
  (Schema.success out = true <->
   (Config.error_on_duplicate vcfg = true ->
    NoDup (List.map Schema.canonical_name (Schema.mappings out))) /\
   (forall req, In req (Config.required_fields vcfg) ->
      In req (List.map Schema.canonical_name (Schema.mappings out))) /\
   (forall m f, In m (Schema.mappings out) -> Schema.mvalue m = PFloat f ->
      nonfinite f = false)) /\
  (Schema.success out = true -> Config.error_on_duplicate vcfg = true ->
   List.length (SchemaViews.mapped_dict out) = List.length (Schema.mappings out)).
Proof.
  intros vcfg Hrun.
  destruct (run_ok_report self pairs out Hrun) as (report & Hval & He & _).
  fold vcfg in Hval.
  pose proof (validate_errors_nil vcfg _ report Hval) as Hnil.
  rewrite <- He in Hnil.
  assert (Hparsed : Forall parsed_value (Schema.mappings out)).
  { eapply run_loop_parsed; [constructor|apply run_ok_loop, Hrun]. }
  rewrite (value_errors_parsed _ Hparsed) in Hnil.
  assert (Hs : Schema.success out = true <-> Schema.validation_errors out = [])
    by apply success_iff.
  split; [rewrite Hs; exact Hnil|].
  intros Hsucc Hdup. apply Hs, Hnil in Hsucc. destruct Hsucc as (Hnd & _).
  specialize (Hnd Hdup). unfold SchemaViews.mapped_dict.
  assert (H : forall (ms : list Schema.MappingResult) (d : list (list N * pyobj)),
    NoDup (ODict.keys d ++ List.map Schema.canonical_name ms) ->
    List.length
      (fold_left (fun d m => ODict.set (Schema.canonical_name m) (Schema.mvalue m) d)
         ms d)
    = (List.length d + List.length ms)%nat).
  { induction ms as [|m ms IH]; intros d Hd; simpl; [lia|].
    assert (Hfresh : ~ In (Schema.canonical_name m) (ODict.keys d)).
    { intros Hin. apply NoDup_app in Hd. destruct Hd as (_ & Hd & _).
      apply (Hd (Schema.canonical_name m)); apply list_elem_of_In;
        [exact Hin|left; reflexivity]. }
    destruct (odict_set_keys (Schema.canonical_name m) (Schema.mvalue m) d)
      as [[Hin _]|[_ Hk]]; [contradiction|].
    rewrite IH.
    - assert (Hl : List.length (ODict.set (Schema.canonical_name m) (Schema.mvalue m) d)
                   = S (List.length d)).
      { assert (Hlen : forall x : list (list N * pyobj),
                  List.length x = List.length (ODict.keys x))
          by (intros x; unfold ODict.keys; rewrite length_map; reflexivity).
        rewrite (Hlen (ODict.set _ _ d)), Hk, length_app, <- Hlen. simpl. lia. }
      rewrite Hl. lia.
    - rewrite Hk, <- app_assoc. exact Hd. }
  rewrite H; [reflexivity|]. exact Hnd.
Qed.

End RunSuccess.

Lemma run_success_spec_witness :
  in_every_runtime (fun R =>
    exists out,
      FinancialMappingPipeline.map_pairs builtin_pipeline
        [(u "Profit After Tax", PInt 500000)] = Ok out /\
      (Schema.success out = true ->
       List.length (SchemaViews.mapped_dict out)
       = List.length (Schema.mappings out))).
Proof.
  intros R.
  destruct (FinancialMappingPipeline.map_pairs builtin_pipeline
              [(u "Profit After Tax", PInt 500000)]) as [out|e] eqn:E;
    [|exfalso; vm_compute in E; discriminate].
  exists out. split; [reflexivity|]. intros Hs.
  exact (proj2 (run_success_spec builtin_pipeline _ out E) Hs eq_refl).
Defined.

(** ** The Excel parser, continued *)

Section ExcelMore.
Context {R : Runtime}.

Import ExcelParser.

Lemma is_label_not_numeric c :
  ExcelCells._is_label c = true -> ExcelCells._is_numeric c = false.
Proof.
  destruct c as [y m d|[|z|f|s|ty rp]]; simpl; try discriminate.
  destruct (strip s); [discriminate|].
  destruct (float_of_str _); [discriminate|reflexivity].
Qed.

(** X22.  The three cell classifiers agree: a label is not numeric and
    converts to [None]; a cell converts to a number only if it is numeric;
    a numeric cell converts to a number, unless it is an int beyond the
    float range, on which [_to_number] raises; and a string is neither a
    label nor numeric exactly when it is blank. *)
Theorem cell_classifiers_agree (c : cell) :
  (ExcelCells._is_label c = true ->
   ExcelCells._is_numeric c = false /\ ExcelCells._to_number c = Ok None) /\
  (forall f, ExcelCells._to_number c = Ok (Some f) ->
             ExcelCells._is_numeric c = true) /\
  (ExcelCells._is_numeric c = true ->
   (exists f, ExcelCells._to_number c = Ok (Some f)) \/
   (exists z m, c = CVal (PInt z) /\
                ExcelCells._to_number c = Raise (OverflowError m))) /\
  (forall s, c = CVal (PStr s) ->
     (ExcelCells._is_label c = false /\ ExcelCells._is_numeric c = false <->
      strip s = [])).
Proof.
  split; [|split; [|split]].
  - intros H. split; [apply is_label_not_numeric, H|].
    destruct c as [y m d|[|z|f|s|ty rp]]; simpl in *; try discriminate.
    destruct (strip s); [discriminate|].
    destruct (ExcelCells.unwrap _) as [cl neg]. simpl in H.
    destruct (float_of_str cl); [discriminate|reflexivity].
  - intros f.
    destruct c as [y m d|[|z|f0|s|ty rp]]; simpl; try discriminate; auto.
    destruct (ExcelCells.unwrap _) as [cl neg]. simpl.
    destruct (float_of_str cl); [reflexivity|discriminate].
  - destruct c as [y m d|[|z|f0|s|ty rp]]; simpl; try discriminate.
    + intros _. unfold float_of_int.
      destruct (PrimFloat.is_infinity _); simpl; eauto.
    + eauto.
    + destruct (ExcelCells.unwrap _) as [cl neg]. simpl.
      destruct (float_of_str cl); [eauto|discriminate].
  - intros s ->. simpl. destruct (strip s) as [|ch s'] eqn:E.
    + split; [reflexivity|]. intros _. split; reflexivity.
    + destruct (float_of_str _).
      * split; [intros [_ H]; discriminate|discriminate].
      * split; [intros [H _]; discriminate|discriminate].
Qed.

End ExcelMore.

Lemma lookup_repeat {A} (x : A) n i : (i < n)%nat -> List.repeat x n !! i = Some x.
Proof.
  revert i. induction n as [|n IH]; intros i H; [lia|].
  destruct i as [|i]; simpl; [reflexivity|]. apply IH. lia.
Qed.

Lemma strongly_sorted_filter {A} (r : A -> A -> Prop) (f : A -> bool) l :
  StronglySorted r l -> StronglySorted r (List.filter f l).
Proof.
  induction 1 as [|x l Hl IH Hx]; simpl; [constructor|].
  destruct (f x); [|exact IH]. constructor; [exact IH|].
  apply List.Forall_forall. intros y Hy. apply List.filter_In in Hy.
  destruct Hy as [Hy _]. revert y Hy. apply List.Forall_forall, Hx.
Qed.

Lemma strongly_sorted_seq a n : StronglySorted lt (seq a n).
Proof.
  revert a. induction n as [|n IH]; intros a; simpl; constructor; [apply IH|].
  apply List.Forall_forall. intros y Hy. apply in_seq in Hy. lia.
Qed.

Lemma max_of_list (l : list nat) :
  (forall x, In x l -> (x <= fold_right Nat.max 0 l)%nat) /\
  (l <> [] -> In (fold_right Nat.max 0%nat l) l).
Proof.
  induction l as [|x l [IH1 IH2]]; simpl.
  - split; [tauto|congruence].
  - split.
    + intros y [<-|Hy]; [lia|]. apply IH1 in Hy. lia.
    + intros _. destruct l as [|x' l'].
      * left. simpl. lia.
      * destruct (Nat.max_spec x (fold_right Nat.max 0%nat (x' :: l')))
          as [[_ ->]|[_ ->]]; [right; apply IH2; discriminate|left; reflexivity].
Qed.

(** [l.index(max(l))]: the first position of the greatest element. *)
Lemma index_of_max_spec (l : list nat) :
  l <> [] ->
  exists m,
    l !! ExcelCells.index_of_max l = Some m /\
    (forall j x, l !! j = Some x -> (x <= m)%nat) /\
    (forall j x, l !! j = Some x -> (j < ExcelCells.index_of_max l)%nat ->
                 (x < m)%nat).
Proof.
  intros Hne. unfold ExcelCells.index_of_max.
  set (m := fold_right Nat.max 0%nat l).
  destruct (max_of_list l) as [Hle Hin]. fold m in Hle, Hin.
  specialize (Hin Hne).
  destruct (list_find (fun x => x = m) l) as [[i x]|] eqn:E.
  - apply list_find_Some in E. destruct E as (Hi & -> & Hfirst). simpl.
    exists m. split; [exact Hi|]. split.
    + intros j x Hj. apply Hle, list_elem_of_In. eapply list_elem_of_lookup_2, Hj.
    + intros j x Hj Hlt. specialize (Hfirst j x Hj Hlt).
      assert (x <= m)%nat
        by (apply Hle, list_elem_of_In; eapply list_elem_of_lookup_2, Hj).
      lia.
  - exfalso. apply list_find_None in E.
    apply list_elem_of_In in Hin.
    rewrite List.Forall_forall in E. apply (E m); [|reflexivity].
    apply list_elem_of_In. exact Hin.
Qed.

Section GenericColumns.
Context {R : Runtime}.

Import ExcelParser.

Lemma cell_is_cons p i c (row : list cell) :
  cell_is p (S i) (c :: row) = cell_is p i row.
Proof. reflexivity. Qed.

(** One row adds one to the counter of each column where it has a label,
    or a number. *)
Lemma count_row_spec max_cols row : forall j lc nc,
  let res := ExcelCells.count_row max_cols j row (lc, nc) in
  List.length (fst res) = List.length lc /\
  List.length (snd res) = List.length nc /\
  forall i, (i < max_cols)%nat ->
    fst res !! i
    = (fun n => n + hit ((j <=? i)%nat && cell_is ExcelCells._is_label (i - j) row))%nat
        <$> lc !! i /\
    snd res !! i
    = (fun n => n + hit ((j <=? i)%nat && cell_is ExcelCells._is_numeric (i - j) row))%nat
        <$> nc !! i.
Proof.
  induction row as [|c row IH]; intros j lc nc.
  - simpl. split; [reflexivity|]. split; [reflexivity|]. intros i _.
    unfold cell_is. simpl. rewrite andb_false_r. simpl.
    split; (destruct (_ !! i); simpl; [rewrite Nat.add_0_r|]; reflexivity).
  - cbn [ExcelCells.count_row].
    set (counts1 :=
      if (j <? max_cols)%nat
      then if ExcelCells._is_label c then (ExcelCells.bump j lc, nc)
           else if ExcelCells._is_numeric c then (lc, ExcelCells.bump j nc)
           else (lc, nc)
      else (lc, nc)).
    destruct counts1 as [lc1 nc1] eqn:E1.
    destruct (IH (S j) lc1 nc1) as (L1 & L2 & Hi).
    assert (Hlen : List.length lc1 = List.length lc /\
                   List.length nc1 = List.length nc).
    { unfold counts1 in E1.
      destruct (j <? max_cols)%nat, (ExcelCells._is_label c),
        (ExcelCells._is_numeric c); injection E1 as <- <-;
        unfold ExcelCells.bump; rewrite ?length_alter; auto. }
    split; [rewrite L1; tauto|]. split; [rewrite L2; tauto|].
    intros i Hlt. destruct (Hi i Hlt) as [H1 H2]. rewrite H1, H2. clear Hi H1 H2.
    assert (Hstep :
      lc1 !! i = (fun n => n + hit ((j =? i)%nat && ExcelCells._is_label c))%nat
                   <$> lc !! i /\
      nc1 !! i = (fun n => n + hit ((j =? i)%nat && ExcelCells._is_numeric c))%nat
                   <$> nc !! i).
    { unfold counts1 in E1.
      destruct (Nat.eqb_spec j i) as [->|Hne].
      - apply Nat.ltb_lt in Hlt. rewrite Hlt in E1. simpl.
        destruct (ExcelCells._is_label c) eqn:El.
        + rewrite (is_label_not_numeric c El). injection E1 as <- <-.
          unfold ExcelCells.bump. rewrite list_lookup_alter_eq. simpl.
          split; destruct (_ !! i); simpl; f_equal; lia.
        + destruct (ExcelCells._is_numeric c); injection E1 as <- <-;
            unfold ExcelCells.bump; rewrite ?list_lookup_alter_eq; simpl;
            split; destruct (_ !! i); simpl; f_equal; lia.
      - simpl.
        assert (lc1 !! i = lc !! i /\ nc1 !! i = nc !! i) as [-> ->].
        { destruct (j <? max_cols)%nat, (ExcelCells._is_label c),
            (ExcelCells._is_numeric c); injection E1 as <- <-;
            unfold ExcelCells.bump; rewrite ?list_lookup_alter_ne by exact Hne;
            auto. }
        split; destruct (_ !! i); simpl; f_equal; lia. }
    destruct Hstep as [-> ->].
    assert (Hcell : forall p,
      (hit ((j =? i)%nat && p c) + hit ((S j <=? i)%nat && cell_is p (i - S j) row)
       = hit ((j <=? i)%nat && cell_is p (i - j) (c :: row)))%nat).
    { intros p. destruct (Nat.eqb_spec j i) as [->|Hne].
      - rewrite Nat.sub_diag. replace (S i <=? i)%nat with false
          by (symmetry; apply Nat.leb_gt; lia).
        rewrite Nat.leb_refl. unfold cell_is. simpl. lia.
      - destruct (Nat.leb_spec (S j) i) as [Hle|Hgt].
        + replace (j <=? i)%nat with true by (symmetry; apply Nat.leb_le; lia).
          replace (i - j)%nat with (S (i - S j)) by lia.
          rewrite cell_is_cons. reflexivity.
        + replace (j <=? i)%nat with false by (symmetry; apply Nat.leb_gt; lia).
          reflexivity. }
    split; rewrite <- Hcell; destruct (_ !! i); cbn [fmap option_fmap option_map];
      f_equal; lia.
Qed.

Lemma count_grid_spec max_cols grid : forall lc nc,
  let res := fold_left (fun counts row => ExcelCells.count_row max_cols 0 row counts)
               grid (lc, nc) in
  List.length (fst res) = List.length lc /\
  List.length (snd res) = List.length nc /\
  forall i, (i < max_cols)%nat ->
    fst res !! i = (fun n => n + labels_in grid i)%nat <$> lc !! i /\
    snd res !! i = (fun n => n + numbers_in grid i)%nat <$> nc !! i.
Proof.
  induction grid as [|row grid IH]; intros lc nc.
  - simpl. split; [reflexivity|]. split; [reflexivity|]. intros i _.
    unfold labels_in, numbers_in. simpl.
    split; (destruct (_ !! i); simpl; [rewrite Nat.add_0_r|]; reflexivity).
  - cbn [fold_left].
    destruct (ExcelCells.count_row max_cols 0 row (lc, nc)) as [lc1 nc1] eqn:E.
    pose proof (count_row_spec max_cols row 0 lc nc) as Hrow.
    rewrite E in Hrow. cbn [fst snd] in Hrow. destruct Hrow as (R1 & R2 & Hrow).
    destruct (IH lc1 nc1) as (L1 & L2 & Hi).
    split; [congruence|]. split; [congruence|].
    intros i Hlt. destruct (Hi i Hlt) as [H1 H2]. rewrite H1, H2.
    destruct (Hrow i Hlt) as [-> ->]. rewrite Nat.sub_0_r. cbn [Nat.leb andb].
    assert (Hl : labels_in (row :: grid) i
                 = (hit (cell_is ExcelCells._is_label i row) + labels_in grid i)%nat)
      by (unfold labels_in; simpl;
          destruct (cell_is ExcelCells._is_label i row); reflexivity).
    assert (Hn : numbers_in (row :: grid) i
                 = (hit (cell_is ExcelCells._is_numeric i row) + numbers_in grid i)%nat)
      by (unfold numbers_in; simpl;
          destruct (cell_is ExcelCells._is_numeric i row); reflexivity).
    rewrite Hl, Hn.
    split.
    + destruct (lc !! i) as [n|]; cbn [fmap option_fmap option_map];
        [f_equal; lia|reflexivity].
    + destruct (nc !! i) as [n|]; cbn [fmap option_fmap option_map];
        [f_equal; lia|reflexivity].
Qed.

End GenericColumns.

Section GenericLayout.
Context {R : Runtime}.

Import ExcelParser.

(** X23.  The generic layout: the label column is the first column with
    the most label cells; every other column with more than two numeric
    cells is a value column, in increasing order; when there is no such
    column the one value column is the column right of the label column,
    or the label column itself when that is the last column (or the grid
    is empty).  So [value_cols] is never empty. *)
Theorem generic_columns_spec (grid : list (list cell)) :
  let g := ExcelCells._detect_generic_columns grid in
  let w := width grid in
  ExcelCells.value_cols g <> [] /\
  StronglySorted lt (ExcelCells.value_cols g) /\
  (w = 0%nat -> ExcelCells.label_col g = 0%nat /\ ExcelCells.value_cols g = [0%nat]) /\
  ((0 < w)%nat ->
   (ExcelCells.label_col g < w)%nat /\
   (forall j, (j < w)%nat ->
      (labels_in grid j <= labels_in grid (ExcelCells.label_col g))%nat) /\
   (forall j, (j < ExcelCells.label_col g)%nat ->
      (labels_in grid j < labels_in grid (ExcelCells.label_col g))%nat)) /\
  (forall j, (j < w)%nat -> j <> ExcelCells.label_col g ->
     (2 < numbers_in grid j)%nat -> In j (ExcelCells.value_cols g)) /\
  (forall j, In j (ExcelCells.value_cols g) ->
     ((j < w)%nat /\ j <> ExcelCells.label_col g /\ (2 < numbers_in grid j)%nat) \/
     (ExcelCells.value_cols g = [j] /\
      j = (if (ExcelCells.label_col g + 1 <? w)%nat
           then (ExcelCells.label_col g + 1)%nat else ExcelCells.label_col g) /\
      forall j', (j' < w)%nat -> j' <> ExcelCells.label_col g ->
                 (numbers_in grid j' <= 2)%nat)).
Proof.
  intros g w. unfold g, ExcelCells._detect_generic_columns.
  fold (width grid). fold w.
  pose proof (count_grid_spec w grid (List.repeat 0%nat w) (List.repeat 0%nat w)) as Hc.
  destruct (fold_left _ grid _) as [lc nc].
  cbn [fst snd] in Hc. destruct Hc as (L1 & L2 & Hc).
  rewrite repeat_length in L1, L2.
  assert (Hlc : forall i, (i < w)%nat -> lc !! i = Some (labels_in grid i)).
  { intros i Hi. destruct (Hc i Hi) as [-> _].
    rewrite lookup_repeat by exact Hi. reflexivity. }
  assert (Hnc : forall i, (i < w)%nat -> nc !! i = Some (numbers_in grid i)).
  { intros i Hi. destruct (Hc i Hi) as [_ ->].
    rewrite lookup_repeat by exact Hi. reflexivity. }
  clear Hc.
  set (lab := match lc with [] => 0%nat | _ :: _ => ExcelCells.index_of_max lc end).
  set (dense := List.filter
                  (fun j => (2 <? default 0%nat (nc !! j))%nat && negb (j =? lab)%nat)
                  (seq 0 w)).
  cbn [ExcelCells.label_col ExcelCells.value_cols].
  assert (Hlab0 : w = 0%nat -> lab = 0%nat).
  { intros Hw. unfold lab. destruct lc; [reflexivity|]. simpl in L1. lia. }
  assert (Hlab : (0 < w)%nat ->
            (lab < w)%nat /\
            (forall j, (j < w)%nat -> (labels_in grid j <= labels_in grid lab)%nat) /\
            (forall j, (j < lab)%nat -> (labels_in grid j < labels_in grid lab)%nat)).
  { intros Hw.
    assert (Hne : lc <> []) by (intros ->; simpl in L1; lia).
    assert (Hidx : lab = ExcelCells.index_of_max lc)
      by (unfold lab; destruct lc; [congruence|reflexivity]).
    destruct (index_of_max_spec lc Hne) as (m & Hm & Hle & Hlt).
    rewrite <- Hidx in Hm, Hlt.
    assert (Hlw : (lab < w)%nat) by (rewrite <- L1; eapply lookup_lt_Some, Hm).
    rewrite (Hlc lab Hlw) in Hm. injection Hm as <-.
    split; [exact Hlw|]. split.
    - intros j Hj. apply (Hle j). apply Hlc, Hj.
    - intros j Hj. apply (Hlt j); [apply Hlc; lia|exact Hj]. }
  assert (Hdense : forall j, In j dense <->
            (j < w)%nat /\ j <> lab /\ (2 < numbers_in grid j)%nat).
  { intros j. unfold dense. rewrite List.filter_In, in_seq. split.
    - intros [Hj Hp]. assert (Hjw : (j < w)%nat) by lia.
      rewrite (Hnc j Hjw) in Hp. simpl in Hp. apply andb_true_iff in Hp.
      destruct Hp as [H1 H2]. apply Nat.ltb_lt in H1.
      apply negb_true_iff, Nat.eqb_neq in H2. auto.
    - intros (Hj & Hn & Hd). split; [lia|]. rewrite (Hnc j Hj). simpl.
      apply andb_true_iff. split; [apply Nat.ltb_lt, Hd|].
      apply negb_true_iff, Nat.eqb_neq, Hn. }
  assert (Hsorted : StronglySorted lt dense)
    by apply strongly_sorted_filter, strongly_sorted_seq.
  destruct dense as [|d ds] eqn:Ed.
  - set (fb := if (lab + 1 <? w)%nat then [(lab + 1)%nat] else [lab]).
    assert (Hfb : fb = [if (lab + 1 <? w)%nat then (lab + 1)%nat else lab])
      by (unfold fb; destruct (lab + 1 <? w)%nat; reflexivity).
    rewrite Hfb. split; [discriminate|]. split; [repeat constructor|].
    split; [|split; [exact Hlab|split]].
    + intros Hw. split; [auto|]. rewrite (Hlab0 Hw), Hw. reflexivity.
    + intros j Hj Hn Hd. exfalso. apply (proj2 (Hdense j)). auto.
    + intros j [<-|[]]. right. split; [reflexivity|]. split; [reflexivity|].
      intros j' Hj' Hn'. apply Nat.nlt_ge. intros Hd.
      apply (proj2 (Hdense j')). auto.
  - split; [discriminate|]. split; [exact Hsorted|].
    split; [|split; [exact Hlab|split]].
    + intros Hw. exfalso.
      assert (Hd : In d (d :: ds)) by (left; reflexivity).
      apply Hdense in Hd. lia.
    + intros j Hj Hn Hd. apply Hdense. auto.
    + intros j Hj. left. apply Hdense, Hj.
Qed.

End GenericLayout.

Section YearHeaders.
Context {R : Runtime}.

Import ExcelParser.






End YearHeaders.


Lemma odict_get_keys_none {K V} `{EqDecision K} (k : K) (d : list (K * V)) :
  ODict.get k d = None <-> ~ In k (ODict.keys d).
Proof.
  induction d as [|[k' v'] d IH]; simpl; [tauto|].
  destruct (decide (k = k')) as [->|Hne].
  - split; [discriminate|]. intros H. exfalso. auto.
  - rewrite IH. split; [|tauto]. intros H [E|Hin]; [congruence|tauto].
Qed.

Lemma odict_get_map {K V W} `{EqDecision K} (f : V -> W) (k : K) (d : list (K * V)) :
  ODict.get k (List.map (fun p => (fst p, f (snd p))) d) = f <$> ODict.get k d.
Proof.
  induction d as [|[k' v'] d IH]; simpl; [reflexivity|].
  destruct (decide (k = k')); [reflexivity|exact IH].
Qed.

Section ParseFileMore.
Context {R : Runtime}.

Import ExcelParser.

(** What one sheet gives for a year. *)
Lemma merge_sheet_spec name syd : forall yd,
  let yd' := fst (merge_sheet name syd yd) in
  (NoDup (ODict.keys yd) -> NoDup (ODict.keys yd')) /\
  (forall year, In year (ODict.keys yd') <->
     In year (ODict.keys yd) \/ In year (List.map fst syd)) /\
  (forall year,
     default [] (ODict.get year yd')
     = default [] (ODict.get year yd)
       ++ List.concat
            (List.map snd (List.filter (fun yp => str_eqb (fst yp) year) syd))).
Proof.
  induction syd as [|[y pairs] syd IH]; intros yd; simpl.
  - split; [auto|]. split; [intros; tauto|]. intros year. rewrite app_nil_r.
    reflexivity.
  - specialize (IH (ODict.set y (default [] (ODict.get y yd) ++ pairs) yd)).
    destruct (merge_sheet name syd _) as [yd1 logs]. simpl in *.
    destruct IH as (I1 & I2 & I3). split; [|split].
    + intros H. apply I1, odict_set_keys_nodup, H.
    + intros year. rewrite I2.
      destruct (odict_set_keys y (default [] (ODict.get y yd) ++ pairs) yd)
        as [[Hin ->]|[Hnin ->]].
      * split; [tauto|]. intros [H|[<-|H]]; auto.
      * rewrite in_app_iff. simpl. tauto.
    + intros year. rewrite I3.
      destruct (str_eqb y year) eqn:E.
      * apply str_eqb_eq in E. subst y. rewrite odict_get_set_eq. simpl.
        rewrite <- app_assoc. reflexivity.
      * rewrite odict_get_set_ne; [reflexivity|].
        intros Heq. rewrite Heq, str_eqb_refl in E. discriminate.
Qed.

Lemma merge_sheets_spec wb : forall yd,
  let yd' := fst (merge_sheets wb yd) in
  (NoDup (ODict.keys yd) -> NoDup (ODict.keys yd')) /\
  (forall year, In year (ODict.keys yd') <->
     In year (ODict.keys yd) \/ In year (years_of wb)) /\
  (forall year,
     default [] (ODict.get year yd')
     = default [] (ODict.get year yd) ++ pairs_of_year year wb).
Proof.
  induction wb as [|ws wb IH]; intros yd; simpl.
  - split; [auto|]. split; [intros; unfold years_of; simpl; tauto|].
    intros year. unfold pairs_of_year. simpl. rewrite app_nil_r. reflexivity.
  - pose proof (merge_sheet_spec (sheet_name ws) (parsed_multi_year ws) yd) as H1.
    destruct (merge_sheet _ _ yd) as [yd1 logs1].
    specialize (IH yd1).
    destruct (merge_sheets wb yd1) as [yd2 logs2]. simpl in *.
    destruct H1 as (A1 & A2 & A3). destruct IH as (I1 & I2 & I3).
    split; [auto|]. split.
    + intros year. rewrite I2, A2. unfold years_of. simpl.
      rewrite in_app_iff. tauto.
    + intros year. rewrite I3, A3. unfold pairs_of_year. simpl.
      rewrite <- app_assoc. reflexivity.
Qed.

(** X25.  All-years mode: the dict [parse_file] returns has one entry for
    each year that some sheet names; the entry holds everything the
    sheets give for that year, sheet after sheet in workbook order, with
    the later pairs of an already seen key dropped. *)
Theorem all_years_collects_sheets (wb : list sheet) :
  exists yd log,
    parse_file None wb = (AllYears yd, log) /\
    NoDup (ODict.keys yd) /\
    (forall year, In year (ODict.keys yd) <-> In year (years_of wb)) /\
    (forall year, In year (years_of wb) ->
       ODict.get year yd = Some (dedup_from (pairs_of_year year wb) ∅)).
Proof.
  unfold parse_file.
  pose proof (merge_sheets_spec wb []) as H.
  destruct (merge_sheets wb []) as [merged logs1]. simpl in H.
  destruct H as (H1 & H2 & H3).
  unfold dedup_years.
  exists (List.map (fun yp => (fst yp, dedup_from (snd yp) ∅)) merged).
  assert (H2' : forall year, In year (ODict.keys merged) <-> In year (years_of wb))
    by (intros year; rewrite H2; tauto).
  assert (Hk : ODict.keys (List.map (fun yp => (fst yp, dedup_from (snd yp) ∅)) merged)
               = ODict.keys merged).
  { unfold ODict.keys. rewrite List.map_map. reflexivity. }
  eexists. split; [|split; [|split]].
  - f_equal. f_equal. apply map_ext. intros [y ps]. reflexivity.
  - rewrite Hk. apply H1. constructor.
  - intros year. rewrite Hk. apply H2'.
  - intros year Hin. rewrite (odict_get_map (fun ps => dedup_from ps ∅)).
    specialize (H3 year).
    destruct (ODict.get year merged) as [ps|] eqn:E.
    + simpl in *. rewrite H3. reflexivity.
    + exfalso. apply odict_get_keys_none in E. apply E, H2', Hin.
Qed.

(** X26.  Single-year mode: [parse_file] returns every pair of every sheet,
    in workbook order, repeated labels included; nothing is removed. *)
Theorem single_year_keeps_all (year_index : nat) (wb : list sheet) :
  exists log,
    parse_file (Some year_index) wb
    = (SingleYear (List.concat (List.map parsed_single wb)), log) /\
    last log
    = Some {| log_level := INFO;
              log_format := u "Total extracted pairs: %d (from %d sheets)";
              log_args :=
                [IntDec (Z.of_nat (List.length
                                     (List.concat (List.map parsed_single wb))));
                 IntDec (Z.of_nat (List.length wb))] |}.
Proof.
  unfold parse_file. rewrite List.map_map. simpl.
  pose proof (legacy_dedup_keeps_all
                (List.concat (List.map parsed_single wb)) ∅) as H.
  destruct (legacy_dedup _ ∅) as [deduped logs]. simpl in H. subst deduped.
  eexists. split; [reflexivity|].
  rewrite !app_assoc. apply last_snoc.
Qed.

End ParseFileMore.

(** ** Duplicate warnings of the pipeline *)

Section DuplicateWarnings.
Context {R : Runtime}.

Lemma normalize_value_other raw pv ws :
  Normalizer.normalize_value raw = Ok (pv, ws) -> Forall other_warning ws.
Proof.
  assert (Hshort : forall w : msg, (List.length w <= 2)%nat -> other_warning w).
  { intros w Hw name prev raw0 ->. simpl in Hw. lia. }
  destruct raw as [|z|f|s|ty rp]; simpl.
  - intros H. injection H as <- <-. repeat constructor. apply Hshort. simpl. lia.
  - destruct (float_of_int z); simpl; [|discriminate].
    intros H. injection H as <- <-. constructor.
  - intros H. injection H as <- <-. constructor.
  - destruct (strip s);
      [intros H; injection H as <- <-; repeat constructor; apply Hshort; simpl; lia|].
    match goal with
    | |- context [if ?b then _ else _] => destruct b
    end;
    match goal with
    | |- context [float_of_str ?t] => destruct (float_of_str t)
    end; intros H; injection H as <- <-; repeat constructor;
      apply Hshort; simpl; lia.
  - intros H. injection H as <- <-. repeat constructor. apply Hshort. simpl. lia.
Qed.

Lemma build_result_warnings canonical raw value conf method ws seen :
  let res := FinancialMappingPipeline._build_result canonical raw value conf
               method ws seen in
  Schema.canonical_name (fst res) = canonical /\
  Schema.raw_label (fst res) = raw /\
  match seen !! canonical with
  | Some prev =>
      Schema.warnings (fst res) = ws ++ [duplicate_warning canonical prev raw] /\
      snd res = seen
  | None =>
      Schema.warnings (fst res) = ws /\ snd res = <[canonical := raw]> seen
  end.
Proof.
  unfold FinancialMappingPipeline._build_result.
  destruct (seen !! canonical); simpl; auto.
Qed.

(** One pair: the warnings of the mapping, and what becomes of
    [seen_canonical]. *)
Lemma map_single_warnings self label raw seen res seen' :
  FinancialMappingPipeline._map_single self label raw seen = Ok (res, seen') ->
  match res with
  | Some m =>
      Schema.raw_label m = label /\
      exists ws0,
        Forall other_warning ws0 /\
        match seen !! Schema.canonical_name m with
        | Some prev =>
            Schema.warnings m
            = ws0 ++ [duplicate_warning (Schema.canonical_name m) prev label] /\
            seen' = seen
        | None =>
            Schema.warnings m = ws0 /\
            seen' = <[Schema.canonical_name m := label]> seen
        end
  | None => seen' = seen
  end.
Proof.
  unfold FinancialMappingPipeline._map_single, Normalizer.normalize_pair.
  destruct (Normalizer.normalize_value raw) as [[pv ws]|e] eqn:En; simpl;
    [|discriminate].
  apply normalize_value_other in En.
  destruct (SynonymMapper.lookup _ _) as [canonical|].
  - pose proof (build_result_warnings canonical label
                  (FinancialMappingPipeline.of_parsed pv) 100 (u "synonym") ws seen) as F.
    destruct (FinancialMappingPipeline._build_result _ _ _ _ _ _ _) as [r0 s0].
    intros H. injection H as <- <-. simpl in F. destruct F as (F1 & F2 & F3).
    split; [exact F2|]. exists ws. split; [exact En|]. rewrite F1. exact F3.
  - destruct (FuzzyMatcher.match_ _ _) as [[c|]|e]; simpl; [| |discriminate].
    + match goal with
      | |- context [FinancialMappingPipeline._build_result ?a ?b ?c ?d ?e ?f ?g] =>
          pose proof (build_result_warnings a b c d e f g) as F;
          destruct (FinancialMappingPipeline._build_result a b c d e f g) as [r0 s0];
          assert (Hws : Forall other_warning f)
      end.
      { destruct (FuzzyMatcher.is_ambiguous c); [|exact En].
        apply Forall_app. split; [exact En|]. constructor; [|constructor].
        intros name prev raw0 H. discriminate H. }
      intros H. injection H as <- <-. simpl in F. destruct F as (F1 & F2 & F3).
      split; [exact F2|]. eexists. split; [exact Hws|]. rewrite F1. exact F3.
    + destruct (Config.enable_semantic_layer _); simpl;
        intros H; injection H as <- <-; reflexivity.
Qed.

Lemma run_loop_duplicates self pairs : forall acc um seen ms um',
  (forall k, seen !! k = Schema.raw_label <$> first_named k acc) ->
  FinancialMappingPipeline._run_loop self pairs acc um seen = Ok (ms, um') ->
  exists ms1, ms = acc ++ ms1 /\ duplicates_marked acc ms1.
Proof.
  induction pairs as [|[label raw] pairs IH]; intros acc um seen ms um' Hseen; simpl.
  - intros H. injection H as <- _. exists []. rewrite app_nil_r. split; constructor.
  - destruct (FinancialMappingPipeline._map_single self label raw seen)
      as [[res seen1]|e] eqn:E; simpl; [|discriminate].
    apply map_single_warnings in E. destruct res as [m|].
    + destruct E as (Hl & ws0 & Hws & Hcase). intros H.
      rewrite (Hseen (Schema.canonical_name m)) in Hcase.
      assert (Hseen1 : forall k,
                seen1 !! k = Schema.raw_label <$> first_named k (acc ++ [m])).
      { intros k. rewrite first_named_snoc.
        destruct (first_named (Schema.canonical_name m) acc) as [first|] eqn:Ef;
          simpl in Hcase; destruct Hcase as [_ ->].
        - rewrite Hseen. destruct (first_named k acc) as [x|] eqn:Ek; [reflexivity|].
          destruct (str_eqb (Schema.canonical_name m) k) eqn:Em; [|reflexivity].
          apply str_eqb_eq in Em. congruence.
        - destruct (decide (Schema.canonical_name m = k)) as [<-|Hne].
          + rewrite lookup_insert_eq, Ef, str_eqb_refl. simpl. rewrite Hl.
            reflexivity.
          + rewrite lookup_insert_ne by exact Hne. rewrite Hseen.
            rewrite (str_eqb_neq _ _ Hne).
            destruct (first_named k acc); reflexivity. }
      destruct (IH _ _ _ _ _ Hseen1 H) as (ms1 & -> & Hm).
      exists (m :: ms1). rewrite <- app_assoc. split; [reflexivity|].
      split; [|exact Hm]. exists ws0. split; [exact Hws|].
      destruct (first_named (Schema.canonical_name m) acc) as [first|];
        simpl in Hcase; destruct Hcase as [-> _]; rewrite ?Hl, ?app_nil_r;
        reflexivity.
    + subst seen1. intros H. exact (IH _ _ _ _ _ Hseen H).
Qed.

Lemma duplicates_marked_at b0 before m after :
  duplicates_marked b0 (before ++ m :: after) ->
  exists ws0,
    Forall other_warning ws0 /\
    Schema.warnings m
    = ws0 ++ match first_named (Schema.canonical_name m) (b0 ++ before) with
             | Some first =>
                 [duplicate_warning (Schema.canonical_name m)
                    (Schema.raw_label first) (Schema.raw_label m)]
             | None => []
             end.
Proof.
  revert b0. induction before as [|x before IH]; intros b0; simpl.
  - rewrite app_nil_r. intros [H _]. exact H.
  - intros [_ H]. apply IH in H. rewrite <- app_assoc in H. exact H.
Qed.

(** X27.  In the output of a run a mapping carries the warning
    [Duplicate mapping to ...] exactly when an earlier mapping of the
    output has the same canonical name; it is then the last warning of
    the mapping and names the raw label of the first mapping with that
    name.  The duplicate is kept as a mapping. *)
Theorem run_marks_duplicates (self : FinancialMappingPipeline.t)
  (pairs : list (list N * pyobj)) (out : Schema.PipelineOutput) :
  FinancialMappingPipeline.map_pairs self pairs = Ok out ->
  forall before m after,
    Schema.mappings out = before ++ m :: after ->
    (has_duplicate_warning m <->
     In (Schema.canonical_name m) (List.map Schema.canonical_name before)) /\
    (forall first,
       first_named (Schema.canonical_name m) before = Some first ->
       last (Schema.warnings m)
       = Some (duplicate_warning (Schema.canonical_name m)
                 (Schema.raw_label first) (Schema.raw_label m))).
Proof.
  intros Hrun before m after Hsplit.
  apply run_ok_loop in Hrun.
  apply run_loop_duplicates in Hrun;
    [|intros k; rewrite lookup_empty; reflexivity].
  destruct Hrun as (ms1 & Hms & Hmarked). simpl in Hms. subst ms1.
  rewrite Hsplit in Hmarked. apply duplicates_marked_at in Hmarked.
  simpl in Hmarked. destruct Hmarked as (ws0 & Hws & Hw).
  pose proof (first_named_none (Schema.canonical_name m) before) as Hnone.
  split.
  - split.
    + intros [prev Hin]. rewrite Hw in Hin. apply in_app_or in Hin.
      destruct Hin as [Hin|Hin].
      * exfalso. rewrite List.Forall_forall in Hws.
        exact (Hws _ Hin _ _ _ eq_refl).
      * destruct (first_named (Schema.canonical_name m) before) as [first|] eqn:Ef;
          [|destruct Hin].
        apply find_some in Ef. destruct Ef as [Hf He]. apply str_eqb_eq in He.
        rewrite <- He. apply in_map, Hf.
    + intros Hin.
      destruct (first_named (Schema.canonical_name m) before) as [first|] eqn:Ef.
      * exists (Schema.raw_label first). rewrite Hw. apply in_or_app. right.
        left. reflexivity.
      * exfalso. apply (proj1 Hnone); [reflexivity|exact Hin].
  - intros first Hf. rewrite Hw, Hf. apply last_snoc.
Qed.

End DuplicateWarnings.

Lemma run_marks_duplicates_witness :
  in_every_runtime (fun R =>
    exists out m1 m2,
      FinancialMappingPipeline.map_pairs builtin_pipeline
        [(u "Profit After Tax", PInt 1); (u "PAT", PInt 2)] = Ok out /\
      Schema.mappings out = [m1; m2] /\
      has_duplicate_warning m2 /\
      last (Schema.warnings m2)
      = Some (duplicate_warning (u "Net Profit") (u "Profit After Tax") (u "PAT"))).
Proof.
  intros R.
  destruct (FinancialMappingPipeline.map_pairs builtin_pipeline
              [(u "Profit After Tax", PInt 1); (u "PAT", PInt 2)])
    as [out|e] eqn:E; [|exfalso; vm_compute in E; discriminate].
  destruct (Schema.mappings out) as [|m1 [|m2 [|m3 ms]]] eqn:Em;
    try (exfalso; vm_compute in E; injection E as <-; discriminate).
  exists out, m1, m2. split; [reflexivity|]. split; [exact Em|].
  destruct (run_marks_duplicates builtin_pipeline _ out E [m1] m2 [] Em)
    as [Hiff Hlast].
  pose proof E as E'. vm_compute in E'. injection E' as Hout.
  rewrite <- Hout in Em. simpl in Em. injection Em as Hm1 Hm2.
  subst m1 m2.
  split; [apply Hiff; left; reflexivity|exact (Hlast _ eq_refl)].
Defined.

Section FuzzyPool.
Context {R : Runtime}.

Lemma canonical_lower_nodup : NoDup (List.map lower Schema.CANONICAL_NAMES).
Proof. apply (bool_decide_unpack _). vm_compute. reflexivity. Qed.

Lemma fold_targets_keys (names : list (list N)) (d : list (list N * list N)) :
  NoDup (ODict.keys d ++ List.map lower names) ->
  ODict.keys (fold_left (fun d name => ODict.set (lower name) name d) names d)
  = ODict.keys d ++ List.map lower names.
Proof.
  revert d. induction names as [|x names IH]; intros d Hnd; simpl.
  - rewrite app_nil_r. reflexivity.
  - destruct (odict_set_keys (lower x) x d) as [[Hin _]|[_ Hk]].
    + exfalso. apply NoDup_app in Hnd. destruct Hnd as (_ & Hd & _).
      apply (Hd (lower x)); apply list_elem_of_In; [exact Hin|left; reflexivity].
    + rewrite IH; rewrite Hk, <- app_assoc; [reflexivity|exact Hnd].
Qed.

Lemma fold_targets_get (names : list (list N)) : forall (d : list (list N * list N)) k v,
  ODict.get k d = Some v -> lower v = k ->
  exists v',
    ODict.get k (fold_left (fun d name => ODict.set (lower name) name d) names d)
    = Some v' /\
    lower v' = k /\
    ((forall x, In x names -> lower x <> k) -> v' = v).
Proof.
  induction names as [|x names IH]; intros d k v Hget Hl; simpl.
  - exists v. auto.
  - destruct (decide (lower x = k)) as [E|Hne].
    + destruct (IH (ODict.set (lower x) x d) k x) as (v' & H1 & H2 & _).
      * rewrite E. apply odict_get_set_eq.
      * exact E.
      * exists v'. split; [exact H1|]. split; [exact H2|].
        intros Hno. exfalso. apply (Hno x); auto.
    + destruct (IH (ODict.set (lower x) x d) k v) as (v' & H1 & H2 & H3).
      * rewrite odict_get_set_ne by exact Hne. exact Hget.
      * exact Hl.
      * exists v'. split; [exact H1|]. split; [exact H2|].
        intros Hno. apply H3. intros y Hy. apply Hno. auto.
Qed.

Lemma fold_targets_get_new (names : list (list N)) : forall (d : list (list N * list N)) n,
  NoDup (List.map lower names) -> In n names ->
  ODict.get (lower n)
    (fold_left (fun d name => ODict.set (lower name) name d) names d)
  = Some n.
Proof.
  induction names as [|x names IH]; intros d n Hnd Hin; [destruct Hin|].
  simpl in Hnd. apply NoDup_cons in Hnd. destruct Hnd as [Hx Hnd].
  simpl. destruct Hin as [->|Hin]; [|apply IH; assumption].
  destruct (fold_targets_get names (ODict.set (lower n) n d) (lower n) n)
    as (v' & H1 & _ & H3).
  - apply odict_get_set_eq.
  - reflexivity.
  - rewrite H1. f_equal. apply H3. intros y Hy E. apply Hx.
    apply list_elem_of_In, in_map_iff. exists y. auto.
Qed.

(** X28.  The pool of a matcher built by [__init__] holds every canonical
    field under its lower-cased name: without extra targets the keys are
    exactly the lower-cased canonical names, one for each of the 50
    fields, and each leads to its canonical name; an extra target can
    replace the name under a key only by a name with the same lower-cased
    form. *)
Theorem fuzzy_pool_complete (cfg : Config.MatchingConfig)
  (extra : option (list (list N))) (f : Schema.CanonicalField) :
  let self := FuzzyMatcher.__init__ cfg extra in
  (exists name,
     ODict.get (lower (Schema.value f)) (FuzzyMatcher._targets self) = Some name /\
     lower name = lower (Schema.value f) /\
     (extra = None -> name = Schema.value f)) /\
  In (lower (Schema.value f)) (FuzzyMatcher._target_keys self) /\
  (extra = None ->
   FuzzyMatcher._target_keys self
   = List.map lower (set_iteration Schema.CANONICAL_NAMES) /\
   List.length (FuzzyMatcher._target_keys self) = 50%nat).
Proof.
  intros self.
  pose proof (set_iteration_perm Schema.CANONICAL_NAMES) as Hperm.
  assert (Hnd : NoDup (List.map lower (set_iteration Schema.CANONICAL_NAMES))).
  { rewrite Hperm. exact canonical_lower_nodup. }
  assert (Hin : In (Schema.value f) (set_iteration Schema.CANONICAL_NAMES)).
  { apply (Permutation_in _ (Permutation_sym Hperm)).
    unfold Schema.CANONICAL_NAMES. apply in_map. destruct f; vm_compute; tauto. }
  pose proof (fold_targets_get_new _ [] _ Hnd Hin) as Hbase.
  assert (Hget : exists name,
    ODict.get (lower (Schema.value f)) (FuzzyMatcher._targets self) = Some name /\
    lower name = lower (Schema.value f) /\
    (extra = None -> name = Schema.value f)).
  { unfold self, FuzzyMatcher.__init__. cbn [FuzzyMatcher._targets].
    destruct extra as [ts|].
    - destruct (fold_targets_get ts _ _ _ Hbase eq_refl) as (v' & H1 & H2 & _).
      exists v'. split; [exact H1|]. split; [exact H2|]. discriminate.
    - exists (Schema.value f). auto. }
  split; [exact Hget|]. split.
  - destruct Hget as (name & Hname & _).
    unfold self, FuzzyMatcher.__init__ in *.
    cbn [FuzzyMatcher._targets FuzzyMatcher._target_keys] in *.
    apply odict_get_in in Hname.
    apply (in_map fst) in Hname. exact Hname.
  - intros ->. unfold self, FuzzyMatcher.__init__.
    cbn [FuzzyMatcher._target_keys].
    rewrite fold_targets_keys by exact Hnd. simpl.
    split; [reflexivity|].
    rewrite length_map, (Permutation_length Hperm). reflexivity.
Qed.

End FuzzyPool.
